(** * pywhoishistory: normalisation, change detection and state storage

    A shallow embedding of [src/whoishistory.py] (class [App]), the
    properties of it that the specification states, and further properties
    of the code.

    Conventions of the embedding.
    - A Python [str] is a [string]; a character is a code point below 256.
    - A Python [int] is a [Z].
    - A value that python-whois hands over is a [pyval]: [None], a [str], a
      [datetime.datetime], or a list of those.
    - A [dict] with string keys is a [gmap string _]; [d[key]] on a missing
      key raises [KeyError].
    - An uncaught exception (and [sys.exit]) is a [Raise] result.
    - The MySQL database is a record of tables; the foreign keys and unique
      indexes of the schema created by [_init_db] are checked by the
      statements that could violate them. A column returns the value that
      was written to it (column widths and collations are not modelled).
    - [print] produces no value and touches no state; it is left out. *)

From Stdlib Require Import ZArith Lia Ascii String List.
From stdpp Require Import base decidable option list sorting strings pretty gmap.

Local Open Scope string_scope.
Local Open Scope Z_scope.

(** ** Python values and exceptions *)

Module Py.

Inductive exn : Type :=
| TypeError
| ValueError
| KeyError (key : string)
| AttributeError
| SystemExit (code : Z)
| IntegrityError
| DatabaseError
| DNSException.

Inductive result (A : Type) : Type :=
| Ok (a : A)
| Raise (e : exn).
Arguments Ok {A} a.
Arguments Raise {A} e.

Definition bind {A B} (r : result A) (f : A -> result B) : result B :=
  match r with
  | Ok a => f a
  | Raise e => Raise e
  end.

(** [datetime.datetime]: the civil fields, and the UTC offset in seconds of
    an aware value ([tzinfo] is [None] for a naive one). *)
Record datetime : Type := mkdt {
  year : Z; month : Z; day : Z;
  hour : Z; minute : Z; second : Z;
  microsecond : Z;
  tzinfo : option Z
}.

Inductive scalar : Type :=
| SNone
| SStr (s : string)
| SDate (d : datetime).

Inductive pyval : Type :=
| PScalar (v : scalar)
| PList (l : list scalar).

#[global] Instance datetime_eq_dec : EqDecision datetime.
Proof. solve_decision. Defined.
#[global] Instance scalar_eq_dec : EqDecision scalar.
Proof. solve_decision. Defined.
#[global] Instance pyval_eq_dec : EqDecision pyval.
Proof. solve_decision. Defined.
#[global] Instance exn_eq_dec : EqDecision exn.
Proof. solve_decision. Defined.

Definition PNone : pyval := PScalar SNone.
Definition PStr (s : string) : pyval := PScalar (SStr s).
Definition PDate (d : datetime) : pyval := PScalar (SDate d).

(** [a != b] on Python values. The values that the program compares are
    [None], strings, lists and naive datetimes, which are equal when their
    fields are. *)
Definition py_ne (a b : pyval) : bool := bool_decide (a <> b).

(** *** Strings *)

(** [sep.join(l)] *)
Fixpoint join (sep : string) (l : list string) : string :=
  match l with
  | [] => ""
  | [x] => x
  | x :: l' => x +:+ sep +:+ join sep l'
  end.

(** [sorted(l)] on strings: ascending by code point. *)
Definition sorted (l : list string) : list string := merge_sort String.le l.

(** [sorted(set(l))]: the distinct elements, ascending. *)
Definition sorted_set (l : list string) : list string := sorted (remove_dups l).

Definition code (c : ascii) : N := N_of_ascii c.

(** [str.lower] on one character (code points below 256: A-Z and the
    Latin-1 capitals, the multiplication sign excepted). *)
Definition lower_char (c : ascii) : ascii :=
  let n := code c in
  if ((65 <=? n) && (n <=? 90))%N then ascii_of_N (n + 32)
  else if ((192 <=? n) && (n <=? 222) && negb (n =? 215))%N then ascii_of_N (n + 32)
  else c.

Fixpoint lower (s : string) : string :=
  match s with
  | EmptyString => EmptyString
  | String c s' => String (lower_char c) (lower s')
  end.

(** The characters of a string as one-character strings (iterating a
    [str]). *)
Fixpoint chars (s : string) : list string :=
  match s with
  | EmptyString => []
  | String c s' => String c EmptyString :: chars s'
  end.

Fixpoint prefixb (p s : string) : bool :=
  match p, s with
  | EmptyString, _ => true
  | String a p', String b s' => if Ascii.eqb a b then prefixb p' s' else false
  | String _ _, EmptyString => false
  end.

(** [needle in hay] *)
Fixpoint contains (needle hay : string) : bool :=
  prefixb needle hay ||
  match hay with
  | EmptyString => false
  | String _ hay' => contains needle hay'
  end.

Definition is_digit (c : ascii) : bool := ((48 <=? code c) && (code c <=? 57))%N.

(** [int(s)] for a string of decimal digits. *)
Definition int_of_digits (s : string) : Z :=
  fold_left (fun acc c => 10 * acc + (Z.of_N (code c) - 48)) (list_ascii_of_string s) 0.

(** *** datetime *)

Definition is_leap (y : Z) : bool :=
  (y mod 4 =? 0) && (negb (y mod 100 =? 0) || (y mod 400 =? 0)).

Definition days_in_month (y m : Z) : Z :=
  if m =? 2 then (if is_leap y then 29 else 28)
  else if (m =? 4) || (m =? 6) || (m =? 9) || (m =? 11) then 30
  else 31.

Definition fields_ok (y m d h mi s : Z) : bool :=
  (1 <=? y) && (y <=? 9999) && (1 <=? m) && (m <=? 12) &&
  (1 <=? d) && (d <=? days_in_month y m) &&
  (0 <=? h) && (h <=? 23) && (0 <=? mi) && (mi <=? 59) &&
  (0 <=? s) && (s <=? 59).

(** [datetime.datetime(y, m, d, h, mi, s)]: a naive value with no
    microseconds; [ValueError] when a field is out of range. *)
Definition datetime_new (y m d h mi s : Z) : result datetime :=
  if fields_ok y m d h mi s then Ok (mkdt y m d h mi s 0 None)
  else Raise ValueError.

(** The invariant of every [datetime.datetime] object. *)
Definition dt_valid (d : datetime) : bool :=
  fields_ok (year d) (month d) (day d) (hour d) (minute d) (second d) &&
  (0 <=? microsecond d) && (microsecond d <=? 999999).

(** [date.replace(microsecond=0)] *)
Definition replace_microsecond0 (d : datetime) : datetime :=
  mkdt (year d) (month d) (day d) (hour d) (minute d) (second d) 0 (tzinfo d).

(** Ordering of naive datetimes: lexicographic on the fields. *)
Definition dt_key (d : datetime) : list Z :=
  [year d; month d; day d; hour d; minute d; second d; microsecond d].

Fixpoint lex_compare (a b : list Z) : comparison :=
  match a, b with
  | [], [] => Eq
  | [], _ :: _ => Lt
  | _ :: _, [] => Gt
  | x :: a', y :: b' =>
      match x ?= y with
      | Eq => lex_compare a' b'
      | c => c
      end
  end.

Definition dt_compare (a b : datetime) : comparison :=
  lex_compare (dt_key a) (dt_key b).

(** [a < b], [a > b], [a <= b] on naive datetimes *)
Definition dt_ltb (a b : datetime) : bool :=
  match dt_compare a b with Lt => true | _ => false end.
Definition dt_gtb (a b : datetime) : bool := dt_ltb b a.
Definition dt_leb (a b : datetime) : bool := negb (dt_ltb b a).

(** [max(l)] and [min(l)]: the first greatest (smallest) element;
    [ValueError] on an empty list. *)
Definition py_max (l : list datetime) : result datetime :=
  match l with
  | [] => Raise ValueError
  | x :: l' => Ok (fold_left (fun m y => if dt_gtb y m then y else m) l' x)
  end.

Definition py_min (l : list datetime) : result datetime :=
  match l with
  | [] => Raise ValueError
  | x :: l' => Ok (fold_left (fun m y => if dt_ltb y m then y else m) l' x)
  end.

End Py.
Export Py.

Notation "'let!' x ':=' r 'in' k" := (Py.bind r (fun x => k))
  (at level 10, x pattern, r at level 100, k at level 200).

(** ** Regular expressions

    The fragment of Python's [re] that the two patterns of the program use,
    with the backtracking semantics of the library: alternatives are tried in
    priority order and the first complete match wins. A matcher takes its
    continuation [k], so that a quantifier that fails later is resumed. *)

Module Re.

Inductive re : Type :=
| Bol                                   (* ^ *)
| Eol                                   (* $ *)
| Lit (c : ascii)                       (* a literal character *)
| Seq (r1 r2 : re)                      (* r1 r2 *)
| Opt (r : re)                          (* r? (greedy) *)
| Rep (p : ascii -> bool) (plus lazy : bool)
                                        (* a class under *, +, *? or +? *)
| Grp (name : option string) (r : re).  (* (r) and (?P<name>r) *)

(** Captured groups: name, start and end offsets, the latest first. *)
Definition caps : Type := list (string * (nat * nat)).

Definition cont : Type := caps -> nat -> string -> option caps.

Definition LF : ascii := ascii_of_N 10.

(** [.]: anything but a line feed *)
Definition dot (c : ascii) : bool := negb (Ascii.eqb c LF).

(** [\d] *)
Definition digit (c : ascii) : bool := is_digit c.

(** [\s] on a [str] pattern, for code points below 256 *)
Definition space (c : ascii) : bool :=
  let n := code c in
  (((9 <=? n) && (n <=? 13)) || ((28 <=? n) && (n <=? 32)) || (n =? 133) || (n =? 160))%N.

(** [\S] *)
Definition nonspace (c : ascii) : bool := negb (space c).

(** [p*?]: leave first, take one more character only when the rest fails *)
Fixpoint rep_lazy (p : ascii -> bool) (k : nat -> string -> option caps)
    (pos : nat) (s : string) : option caps :=
  match k pos s with
  | Some m => Some m
  | None =>
      match s with
      | String c s' => if p c then rep_lazy p k (S pos) s' else None
      | EmptyString => None
      end
  end.

(** [p*]: take as many characters as possible, give back one at a time *)
Fixpoint rep_greedy (p : ascii -> bool) (k : nat -> string -> option caps)
    (pos : nat) (s : string) : option caps :=
  match s with
  | String c s' =>
      if p c then
        match rep_greedy p k (S pos) s' with
        | Some m => Some m
        | None => k pos s
        end
      else k pos s
  | EmptyString => k pos s
  end.

Definition rep (p : ascii -> bool) (plus lazy : bool)
    (k : nat -> string -> option caps) (pos : nat) (s : string) : option caps :=
  let star := if lazy then rep_lazy p k else rep_greedy p k in
  if plus then
    match s with
    | String c s' => if p c then star (S pos) s' else None
    | EmptyString => None
    end
  else star pos s.

(** [$] without MULTILINE: at the end, or before a final line feed *)
Definition at_eol (s : string) : bool :=
  match s with
  | EmptyString => true
  | String c EmptyString => Ascii.eqb c LF
  | _ => false
  end.

Fixpoint rmatch (r : re) (k : cont) (cs : caps) (pos : nat) (s : string) : option caps :=
  match r with
  | Bol => if Nat.eqb pos 0 then k cs pos s else None
  | Eol => if at_eol s then k cs pos s else None
  | Lit c =>
      match s with
      | String c' s' => if Ascii.eqb c c' then k cs (S pos) s' else None
      | EmptyString => None
      end
  | Seq r1 r2 => rmatch r1 (rmatch r2 k) cs pos s
  | Opt r' =>
      match rmatch r' k cs pos s with
      | Some m => Some m
      | None => k cs pos s
      end
  | Rep p plus lazy => rep p plus lazy (k cs) pos s
  | Grp None r' => rmatch r' k cs pos s
  | Grp (Some n) r' =>
      rmatch r' (fun cs' pos' s' => k ((n, (pos, pos')) :: cs') pos' s') cs pos s
  end.

(** A match object: the subject and its groups. *)
Record match_obj : Type := mkmatch { subject : string; groups : caps }.

(** [pattern.match(s)] *)
Definition re_match (r : re) (s : string) : option match_obj :=
  match rmatch r (fun cs _ _ => Some cs) [] 0%nat s with
  | Some cs => Some (mkmatch s cs)
  | None => None
  end.

Fixpoint assoc (n : string) (cs : caps) : option (nat * nat) :=
  match cs with
  | [] => None
  | (n', span) :: cs' => if String.eqb n n' then Some span else assoc n cs'
  end.

(** [m.group(name)]: [None] when the group took no part in the match *)
Definition group (m : match_obj) (name : string) : option string :=
  match assoc name (groups m) with
  | Some (a, b) => Some (substring a (b - a) (subject m))
  | None => None
  end.

Fixpoint lits (s : string) : re -> re :=
  match s with
  | EmptyString => fun r => r
  | String c s' => fun r => Seq (Lit c) (lits s' r)
  end.

Declare Scope re_scope.
Delimit Scope re_scope with re.
Infix "\\" := Seq (at level 60, right associativity) : re_scope.

End Re.
Export Re.

(** ** The application *)

Module App.

(** *** Class attributes *)

(** Datapoints we compare on, and their English labels for the [changed]
    table (a [dict]: iteration follows the order of the literal). *)
Definition datapoints : list (string * string) :=
  [ ("registrar", "Registrar");
    ("whois_server", "WHOIS Server");
    ("referral_url", "Referral URL");
    ("updated_date", "Updated Date");
    ("creation_date", "Creation Date");
    ("expiration_date", "Expiration Date");
    ("name_servers", "Nameservers");
    ("status", "Status");
    ("emails", "Emails");
    ("dnssec", "DNSSEC");
    ("name", "Registrant Name");
    ("org", "Registrant Organization");
    ("address", "Registrant Address");
    ("city", "Registrant City");
    ("state", "Registrant State");
    ("zipcode", "Registrant Zipcode");
    ("ip", "IP Address");
    ("mx", "MX Addresses") ].

(** [^(?P<year>\d+)-(?P<month>\d+)-(?P<day>\d+)T(?P<hour>\d+):(?P<min>\d+):(?P<sec>\d+)$] *)
Definition date_t_re : re :=
  (Bol \\ Grp (Some "year") (Rep digit true false) \\ Lit "-"
       \\ Grp (Some "month") (Rep digit true false) \\ Lit "-"
       \\ Grp (Some "day") (Rep digit true false) \\ Lit "T"
       \\ Grp (Some "hour") (Rep digit true false) \\ Lit ":"
       \\ Grp (Some "min") (Rep digit true false) \\ Lit ":"
       \\ Grp (Some "sec") (Rep digit true false) \\ Eol)%re.

(** [^(?P<status>.*?)( \(?(?P<url>http\S+?)\)?)?$] *)
Definition status_url_re : re :=
  (Bol \\ Grp (Some "status") (Rep dot false true)
       \\ Opt (Grp None (Lit " " \\ Opt (Lit "(")
                          \\ Grp (Some "url") (lits "http" (Rep nonspace true true))
                          \\ Opt (Lit ")")))
       \\ Eol)%re.

(** *** Normalisation of the parsed record *)

(** [parsed_data[key]] *)
Definition getitem (parsed_data : gmap string pyval) (key : string) : result pyval :=
  match parsed_data !! key with
  | Some v => Ok v
  | None => Raise (KeyError key)
  end.

(** [int(match.group(name))] *)
Definition group_int (m : match_obj) (name : string) : result Z :=
  match group m name with
  | Some digits => Ok (int_of_digits digits)
  | None => Raise TypeError
  end.

(** The body of the loop over [dates]: what is appended to [new_dates]. *)
Definition clean_date (date : scalar) : result datetime :=
  match date with
  | SDate d =>
      match tzinfo d with
      | None => Ok (replace_microsecond0 d)
      | Some _ =>
          datetime_new (year d) (month d) (day d) (hour d) (minute d) (second d)
      end
  | SStr s =>
      match re_match date_t_re s with
      | Some m =>
          let! y := group_int m "year" in
          let! mo := group_int m "month" in
          let! d := group_int m "day" in
          let! h := group_int m "hour" in
          let! mi := group_int m "min" in
          let! sec := group_int m "sec" in
          datetime_new y mo d h mi sec
      | None => Raise (SystemExit 1)
      end
  | SNone => Raise TypeError
  end.

(** A loop that builds a list, stopping at the first exception. *)
Fixpoint for_each {A B} (f : A -> result B) (l : list A) : result (list B) :=
  match l with
  | [] => Ok []
  | x :: l' =>
      let! y := f x in
      let! ys := for_each f l' in
      Ok (y :: ys)
  end.

(** [dates]: the list itself, or the one value as a list *)
Definition as_list (v : pyval) : list scalar :=
  match v with
  | PList l => l
  | PScalar x => [x]
  end.

Definition clean_dates (func : list datetime -> result datetime)
    (v : pyval) : result datetime :=
  let! new_dates := for_each clean_date (as_list v) in
  func new_dates.

Definition date_keys : list (string * (list datetime -> result datetime)) :=
  [ ("updated_date", py_max);
    ("creation_date", py_min);
    ("expiration_date", py_min) ].

Definition clean_date_key (parsed_data : gmap string pyval)
    (kf : string * (list datetime -> result datetime)) : result (gmap string pyval) :=
  let! v := getitem parsed_data (fst kf) in
  let! d := clean_dates (snd kf) v in
  Ok (<[fst kf := PDate d]> parsed_data).

Fixpoint clean_date_keys (parsed_data : gmap string pyval)
    (l : list (string * (list datetime -> result datetime))) : result (gmap string pyval) :=
  match l with
  | [] => Ok parsed_data
  | kf :: l' =>
      let! parsed_data := clean_date_key parsed_data kf in
      clean_date_keys parsed_data l'
  end.

(** [ns.lower()] for the entries met when iterating [name_servers] *)
Definition lower_entry (ns : scalar) : result string :=
  match ns with
  | SStr s => Ok (lower s)
  | _ => Raise AttributeError
  end.

Definition clean_name_servers (v : pyval) : result string :=
  let! entries :=
    match v with
    | PList l => Ok l
    | PScalar (SStr s) => Ok (map SStr (chars s))
    | PScalar _ => Raise TypeError
    end in
  let! name_servers := for_each lower_entry entries in
  Ok (join ", " (sorted_set name_servers)).

(** What one status adds to [new_statuses]. *)
Definition clean_status (status : scalar) : result string :=
  match status with
  | SStr s =>
      match re_match status_url_re s with
      | Some m =>
          match group m "status" with
          | Some stripped => Ok stripped
          | None => Raise TypeError
          end
      | None => Ok s
      end
  | _ => Raise TypeError
  end.

Definition clean_statuses (v : pyval) : result string :=
  let! new_statuses := for_each clean_status (as_list v) in
  Ok (join ", " (sorted_set new_statuses)).

Definition str_entry (v : scalar) : result string :=
  match v with
  | SStr s => Ok s
  | _ => Raise TypeError
  end.

(** The new value of [emails]: only a list is touched. *)
Definition clean_emails (v : pyval) : result pyval :=
  match v with
  | PList l =>
      let! emails := for_each str_entry l in
      Ok (PStr (join ", " (sorted emails)))
  | PScalar _ => Ok v
  end.

Definition _clean_parsed_data (parsed_data : gmap string pyval) : result (gmap string pyval) :=
  let! parsed_data := clean_date_keys parsed_data date_keys in
  let! ns := getitem parsed_data "name_servers" in
  let! ns := clean_name_servers ns in
  let parsed_data := <["name_servers" := PStr ns]> parsed_data in
  let! st := getitem parsed_data "status" in
  let! st := clean_statuses st in
  let parsed_data := <["status" := PStr st]> parsed_data in
  let! em := getitem parsed_data "emails" in
  let! em := clean_emails em in
  Ok (<["emails" := em]> parsed_data).

(** *** DNS lookups *)

Inductive rdtype : Type := A | AAAA | MX.

Inductive rdata : Type :=
| Address (address : string)
| Exchange (preference : Z) (exchange : string).

(** What [dns.resolver.query] does: an answer, [NoAnswer], or any other
    exception of the resolver. *)
Inductive answer : Type :=
| Answer (rrset : list rdata)
| NoAnswer
| Failed.

Definition address_of (r : rdata) : result string :=
  match r with
  | Address a => Ok a
  | Exchange _ _ => Raise AttributeError
  end.

(** [s.endswith('.')] and [s[:-1]] *)
Fixpoint strip_final_dot (s : string) : string :=
  match s with
  | EmptyString => EmptyString
  | String c EmptyString => if Ascii.eqb c "." then EmptyString else s
  | String c s' => String c (strip_final_dot s')
  end.

Definition mx_of (r : rdata) : result string :=
  match r with
  | Exchange pref exch => Ok (pretty pref +:+ "/" +:+ strip_final_dot exch)
  | Address _ => Raise AttributeError
  end.

(** One [try: ... except dns.resolver.NoAnswer: pass] block. *)
Definition lookup_into (f : rdata -> result string) (a : answer)
    (acc : list string) : result (list string) :=
  match a with
  | Answer rrset =>
      let! found := for_each f rrset in
      Ok (acc ++ found)%list
  | NoAnswer => Ok acc
  | Failed => Raise DNSException
  end.

Definition disabled : string := "(lookups disabled)".

Definition _inject_dns_placeholder (parsed_data : gmap string pyval) : gmap string pyval :=
  <["mx" := PStr disabled]> (<["ip" := PStr disabled]> parsed_data).

Section Resolver.

Variable query : string -> rdtype -> answer.

Definition _inject_dns_lookups (domain : string)
    (parsed_data : gmap string pyval) : result (gmap string pyval) :=
  let! ips := lookup_into address_of (query domain A) [] in
  let! ips := lookup_into address_of (query domain AAAA) ips in
  let parsed_data := <["ip" := PStr (join ", " (sorted_set ips))]> parsed_data in
  let! mx := lookup_into mx_of (query domain MX) [] in
  Ok (<["mx" := PStr (join ", " (sorted_set mx))]> parsed_data).

End Resolver.

(** *** The database

    The tables [domain], [state] and [changed] of the schema that [_init_db]
    creates, with its keys:
    - [domain.domain] is the primary key of [domain];
    - [state.id] and [changed.id] are auto-increment primary keys;
    - [state (domain, check_time)] and [changed (state, info)] are unique;
    - [domain.last_state] and [changed.state] reference [state.id], and
      [state.domain] references [domain.domain]. *)

Record domain_row : Type := mkdomain {
  last_state : option Z;
  active_checks : bool;
  do_dns : bool;
  last_checked : option Z;
  cur_raw_text : option string
}.

(** The eighteen data columns of a [state] row. *)
Record canon : Type := mkcanon {
  c_registrar : scalar; c_whois_server : scalar; c_referral_url : scalar;
  c_updated_date : scalar; c_creation_date : scalar; c_expiration_date : scalar;
  c_name_servers : scalar; c_status : scalar; c_emails : scalar; c_dnssec : scalar;
  c_name : scalar; c_org : scalar;
  c_address : scalar; c_city : scalar; c_state : scalar; c_zipcode : scalar;
  c_ip : scalar; c_mx : scalar
}.

Record state_row : Type := mkstate {
  st_id : Z;
  st_domain : string;
  st_check_time : Z;
  st_raw_text : string;
  st_data : canon
}.

Record changed_row : Type := mkchanged {
  ch_id : Z;
  ch_state : Z;
  ch_info : string;
  ch_val_from : scalar;
  ch_val_to : scalar
}.

#[global] Instance domain_row_eq_dec : EqDecision domain_row.
Proof. solve_decision. Defined.
#[global] Instance canon_eq_dec : EqDecision canon.
Proof. solve_decision. Defined.
#[global] Instance state_row_eq_dec : EqDecision state_row.
Proof. solve_decision. Defined.
#[global] Instance changed_row_eq_dec : EqDecision changed_row.
Proof. solve_decision. Defined.

(** The statements that write, [commit], and [time.sleep], in the order in
    which they are executed. *)
Inductive event : Type :=
| InsertDomain (domain : string)
| UpdateChecked (domain : string)
| InsertState (id : Z) (domain : string)
| UpdateLastState (domain : string) (state : option Z)
| InsertChanged (state : Z) (info : string)
| DeleteChanged (states : list Z)
| DeleteState (ids : list Z)
| DeleteDomain (domain : string)
| Commit
| Sleep (secs : Z).

#[global] Instance event_eq_dec : EqDecision event.
Proof. solve_decision. Defined.

(** The database, the wall clock (whole seconds), the number of whois
    queries sent so far, and the journal of executed statements. *)
Record world : Type := mkworld {
  domain_tbl : gmap string domain_row;
  state_tbl : list state_row;
  changed_tbl : list changed_row;
  state_auto : Z;
  changed_auto : Z;
  clock : Z;
  whois_calls : nat;
  journal : list event
}.

Definition log (e : event) (w : world) : world :=
  mkworld (domain_tbl w) (state_tbl w) (changed_tbl w) (state_auto w)
          (changed_auto w) (clock w) (whois_calls w) (journal w ++ [e])%list.

Definition set_domains (t : gmap string domain_row) (w : world) : world :=
  mkworld t (state_tbl w) (changed_tbl w) (state_auto w)
          (changed_auto w) (clock w) (whois_calls w) (journal w).

Definition set_states (t : list state_row) (auto : Z) (w : world) : world :=
  mkworld (domain_tbl w) t (changed_tbl w) auto
          (changed_auto w) (clock w) (whois_calls w) (journal w).

Definition set_changed (t : list changed_row) (auto : Z) (w : world) : world :=
  mkworld (domain_tbl w) (state_tbl w) t (state_auto w)
          auto (clock w) (whois_calls w) (journal w).

Definition set_clock (t : Z) (w : world) : world :=
  mkworld (domain_tbl w) (state_tbl w) (changed_tbl w) (state_auto w)
          (changed_auto w) t (whois_calls w) (journal w).

Definition count_call (w : world) : world :=
  mkworld (domain_tbl w) (state_tbl w) (changed_tbl w) (state_auto w)
          (changed_auto w) (clock w) (S (whois_calls w)) (journal w).

(** Computations on the world that may raise. *)
Definition M (T : Type) : Type := world -> result (T * world).

Definition ret {T} (x : T) : M T := fun w => Ok (x, w).
Definition raise {T} (e : exn) : M T := fun _ => Raise e.
Definition bindM {T U} (m : M T) (f : T -> M U) : M U :=
  fun w => match m w with
           | Ok (x, w') => f x w'
           | Raise e => Raise e
           end.
Definition lift {T} (r : result T) : M T :=
  fun w => match r with
           | Ok x => Ok (x, w)
           | Raise e => Raise e
           end.

Notation "'do!' x ':=' m 'in' k" := (bindM m (fun x => k))
  (at level 10, x pattern, m at level 100, k at level 200).
Notation "m ';;;' k" := (bindM m (fun _ => k))
  (at level 100, k at level 200, right associativity).

(** **** Statements *)

Definition state_ids (w : world) : list Z := map st_id (state_tbl w).

Definition commit : M unit := fun w => Ok (tt, log Commit w).

(** [select * from domain where domain=%s], [fetchone()] *)
Definition select_domain (domain : string) : M (option domain_row) :=
  fun w => Ok (domain_tbl w !! domain, w).

(** [select * from state where id=%s], [fetchone()] *)
Definition select_state (id : Z) : M (option state_row) :=
  fun w => Ok (find (fun st => bool_decide (st_id st = id)) (state_tbl w), w).

(** [insert into domain (domain, active_checks, do_dns) values (%s, 1, %s)] *)
Definition insert_domain (domain : string) (do_dns_db : bool) : M unit :=
  fun w =>
    match domain_tbl w !! domain with
    | Some _ => Raise IntegrityError
    | None =>
        Ok (tt, log (InsertDomain domain)
                  (set_domains (<[domain := mkdomain None true do_dns_db None None]>
                                  (domain_tbl w)) w))
    end.

(** [update domain set cur_raw_text=%s, last_checked=now(), do_dns=%s
    where domain=%s] *)
Definition update_checked (check_data : string) (do_dns_db : bool)
    (domain : string) : M unit :=
  fun w =>
    let upd r := mkdomain (last_state r) (active_checks r) do_dns_db
                          (Some (clock w)) (Some check_data) in
    Ok (tt, log (UpdateChecked domain)
              (set_domains (alter upd domain (domain_tbl w)) w)).

(** [update domain set last_state=%s where domain=%s] *)
Definition update_last_state (new_state : option Z) (domain : string) : M unit :=
  fun w =>
    let upd r := mkdomain new_state (active_checks r) (do_dns r)
                          (last_checked r) (cur_raw_text r) in
    let referenced :=
      match new_state, domain_tbl w !! domain with
      | Some id, Some _ => bool_decide (id ∈ state_ids w)
      | _, _ => true
      end in
    if referenced then
      Ok (tt, log (UpdateLastState domain new_state)
                (set_domains (alter upd domain (domain_tbl w)) w))
    else Raise IntegrityError.

(** [insert into state (...) values (%s, now(), %s, ...)], then
    [cur.lastrowid] *)
Definition insert_state (domain check_data : string) (data : canon) : M Z :=
  fun w =>
    let id := state_auto w in
    let fk := bool_decide (is_Some (domain_tbl w !! domain)) in
    let fresh :=
      forallb (fun st => negb (bool_decide (st_domain st = domain) &&
                               bool_decide (st_check_time st = clock w)))
              (state_tbl w) in
    if fk && fresh then
      Ok (id, log (InsertState id domain)
                (set_states (state_tbl w ++ [mkstate id domain (clock w) check_data data])%list
                            (id + 1) w))
    else Raise IntegrityError.

(** [insert into changed (state, info, val_from, val_to) values (...)] *)
Definition insert_changed (state : Z) (info : string)
    (val_from val_to : scalar) : M unit :=
  fun w =>
    let id := changed_auto w in
    let fk := bool_decide (state ∈ state_ids w) in
    let fresh :=
      forallb (fun ch => negb (bool_decide (ch_state ch = state) &&
                               bool_decide (ch_info ch = info)))
              (changed_tbl w) in
    if fk && fresh then
      Ok (tt, log (InsertChanged state info)
                (set_changed (changed_tbl w ++ [mkchanged id state info val_from val_to])%list
                             (id + 1) w))
    else Raise IntegrityError.

(** [delete from changed where state in (...)] *)
Definition delete_changed (states : list Z) : M unit :=
  fun w =>
    Ok (tt, log (DeleteChanged states)
              (set_changed (filter (fun ch => ch_state ch ∉ states) (changed_tbl w))
                           (changed_auto w) w)).

(** Is the [state] row [id] referenced by a [changed] row or by a
    [domain] row? *)
Definition state_referenced (w : world) (id : Z) : bool :=
  existsb (fun ch => bool_decide (ch_state ch = id)) (changed_tbl w) ||
  bool_decide (map_Exists (fun _ r => last_state r = Some id) (domain_tbl w)).

(** [delete from state where id in (...)] *)
Definition delete_state (ids : list Z) : M unit :=
  fun w =>
    let doomed := filter (fun st => st_id st ∈ ids) (state_tbl w) in
    if existsb (fun st => state_referenced w (st_id st)) doomed then Raise IntegrityError
    else
      Ok (tt, log (DeleteState ids)
                (set_states (filter (fun st => st_id st ∉ ids) (state_tbl w))
                            (state_auto w) w)).

(** [delete from domain where domain=%s] *)
Definition delete_domain (domain : string) : M unit :=
  fun w =>
    if existsb (fun st => bool_decide (st_domain st = domain)) (state_tbl w)
       && bool_decide (is_Some (domain_tbl w !! domain))
    then Raise IntegrityError
    else
      Ok (tt, log (DeleteDomain domain)
                (set_domains (delete domain (domain_tbl w)) w)).

(** [time.sleep(secs)] *)
Definition sleep (secs : Z) : M unit :=
  fun w =>
    if secs <? 0 then Raise ValueError
    else Ok (tt, log (Sleep secs) (set_clock (clock w + secs) w)).

(** *** Storing a state *)

(** [prev_state[key]] on a row of [state] *)
Definition columns (c : canon) : list (string * scalar) :=
  [ ("registrar", c_registrar c); ("whois_server", c_whois_server c);
    ("referral_url", c_referral_url c); ("updated_date", c_updated_date c);
    ("creation_date", c_creation_date c); ("expiration_date", c_expiration_date c);
    ("name_servers", c_name_servers c); ("status", c_status c);
    ("emails", c_emails c); ("dnssec", c_dnssec c);
    ("name", c_name c); ("org", c_org c);
    ("address", c_address c); ("city", c_city c);
    ("state", c_state c); ("zipcode", c_zipcode c);
    ("ip", c_ip c); ("mx", c_mx c) ].

Fixpoint lookup_column (key : string) (l : list (string * scalar)) : option scalar :=
  match l with
  | [] => None
  | (k, v) :: l' => if String.eqb key k then Some v else lookup_column key l'
  end.

Definition row_item (prev_state : option state_row) (key : string) : result scalar :=
  match prev_state with
  | None => Raise TypeError
  | Some st =>
      match lookup_column key (columns (st_data st)) with
      | Some v => Ok v
      | None => Raise (KeyError key)
      end
  end.

(** A query parameter: a list is no column value. *)
Definition bind_param (v : pyval) : result scalar :=
  match v with
  | PScalar x => Ok x
  | PList _ => Raise DatabaseError
  end.

(** The data parameters of the [insert into state], in the order in which
    the tuple names them. *)
Definition state_params (parsed_data : gmap string pyval) : result canon :=
  let! registrar := getitem parsed_data "registrar" in
  let! whois_server := getitem parsed_data "whois_server" in
  let! referral_url := getitem parsed_data "referral_url" in
  let! updated_date := getitem parsed_data "updated_date" in
  let! creation_date := getitem parsed_data "creation_date" in
  let! expiration_date := getitem parsed_data "expiration_date" in
  let! name_servers := getitem parsed_data "name_servers" in
  let! status := getitem parsed_data "status" in
  let! emails := getitem parsed_data "emails" in
  let! dnssec := getitem parsed_data "dnssec" in
  let! name := getitem parsed_data "name" in
  let! org := getitem parsed_data "org" in
  let! address := getitem parsed_data "address" in
  let! city := getitem parsed_data "city" in
  let! state := getitem parsed_data "state" in
  let! zipcode := getitem parsed_data "zipcode" in
  let! ip := getitem parsed_data "ip" in
  let! mx := getitem parsed_data "mx" in
  let! registrar := bind_param registrar in
  let! whois_server := bind_param whois_server in
  let! referral_url := bind_param referral_url in
  let! updated_date := bind_param updated_date in
  let! creation_date := bind_param creation_date in
  let! expiration_date := bind_param expiration_date in
  let! name_servers := bind_param name_servers in
  let! status := bind_param status in
  let! emails := bind_param emails in
  let! dnssec := bind_param dnssec in
  let! name := bind_param name in
  let! org := bind_param org in
  let! address := bind_param address in
  let! city := bind_param city in
  let! state := bind_param state in
  let! zipcode := bind_param zipcode in
  let! ip := bind_param ip in
  let! mx := bind_param mx in
  Ok (mkcanon registrar whois_server referral_url
              updated_date creation_date expiration_date
              name_servers status emails dnssec name org
              address city state zipcode ip mx).

(** An entry of [differences]: label, old value, new value. *)
Definition difference : Type := string * scalar * pyval.

(** The loop over [datapoints.items()], from the given [store_state] and
    [differences]. *)
Fixpoint find_differences (prev_state : option state_row)
    (parsed_data : gmap string pyval) (items : list (string * string))
    (store_state : bool) (differences : list difference)
    : result (bool * list difference) :=
  match items with
  | [] => Ok (store_state, differences)
  | (key, eng) :: items' =>
      let! old := row_item prev_state key in
      let! new := getitem parsed_data key in
      if py_ne (PScalar old) new then
        find_differences prev_state parsed_data items' true
                         (differences ++ [(eng, old, new)])%list
      else
        find_differences prev_state parsed_data items' store_state differences
  end.

(** The loop that stores [differences]. *)
Fixpoint store_differences (new_state_id : Z) (differences : list difference) : M unit :=
  match differences with
  | [] => ret tt
  | (info, val_from, val_to) :: rest =>
      do! val_to := lift (bind_param val_to) in
      insert_changed new_state_id info val_from val_to ;;;
      store_differences new_state_id rest
  end.

Definition _store_state (domain check_data : string)
    (parsed_data : gmap string pyval) (do_dns : bool) : M bool :=
  do! row := select_domain domain in
  do! found :=
    match row with
    | Some (mkdomain (Some last) _ _ _ _) =>
        do! prev_state := select_state last in
        lift (find_differences prev_state parsed_data datapoints false [])
    | _ => ret (true, [])
    end in
  let store_state : bool := fst found in
  let differences : list difference := snd found in
  update_checked check_data do_dns domain ;;;
  (if store_state then
     do! data := lift (state_params parsed_data) in
     do! new_state_id := insert_state domain check_data data in
     update_last_state (Some new_state_id) domain ;;;
     store_differences new_state_id differences
   else ret tt) ;;;
  commit ;;;
  ret store_state.

(** *** Checking a domain *)

Inductive DNSBehavior : Type := DOMAIN_DEFAULT | FORCE_YES | FORCE_NO.

Record app : Type := mkapp {
  dns_behavior : DNSBehavior;
  delay_between_domains : Z;
  max_retries : Z;
  verbose : bool
}.

Section Collaborators.

(** [whois.NICClient().whois_lookup]: the text answered for a domain, which
    may differ from one query to the next (the second argument counts the
    queries sent before). *)
Variable whois_lookup : string -> nat -> string.

(** [whois.WhoisEntry.load] *)
Variable load : string -> string -> result (gmap string pyval).

(** [dns.resolver.query] *)
Variable query : string -> rdtype -> answer.

Variable self : app.

(** [client.whois_lookup(None, domain.encode('idna'), 0)]; the encoding of
    the name is part of the transport. *)
Definition client_lookup (domain : string) : M string :=
  fun w => Ok (whois_lookup domain (whois_calls w), count_call w).

Definition comm_error (check_data : string) : bool :=
  contains "Socket not responding" check_data.

(** The [while attempts < self.max_retries] loop; it runs at most
    [max_retries] rounds, which is the fuel [check_domain] gives it. *)
Fixpoint retry (fuel : nat) (domain : string) (attempts : Z)
    (check_data : option string) : M (option string) :=
  match fuel with
  | O => ret check_data
  | S fuel' =>
      if attempts <? max_retries self then
        let attempts := attempts + 1 in
        do! text := client_lookup domain in
        if (attempts <? max_retries self) && comm_error text then
          sleep (delay_between_domains self) ;;;
          retry fuel' domain attempts (Some text)
        else ret (Some text)
      else ret check_data
  end.

Definition check_domain (domain : string) (check_data : option string) : M bool :=
  do! row := select_domain domain in
  do! do_dns :=
    match row with
    | None =>
        let do_dns :=
          match dns_behavior self with
          | FORCE_NO => false
          | _ => true
          end in
        insert_domain domain do_dns ;;;
        commit ;;;
        ret do_dns
    | Some r =>
        ret match dns_behavior self with
            | FORCE_YES => true
            | FORCE_NO => false
            | DOMAIN_DEFAULT => do_dns r
            end
    end in
  do! check_data :=
    match check_data with
    | None => retry (Z.to_nat (max_retries self)) domain 0 None
    | Some _ => ret check_data
    end in
  match check_data with
  | None => raise TypeError
  | Some check_data =>
      if comm_error check_data then ret true
      else
        do! parsed_data := lift (load domain check_data) in
        do! parsed_data := lift (_clean_parsed_data parsed_data) in
        do! parsed_data :=
          (if do_dns then lift (_inject_dns_lookups query domain parsed_data)
           else ret (_inject_dns_placeholder parsed_data)) in
        _store_state domain check_data parsed_data do_dns
  end.

End Collaborators.

(** *** Purging a domain *)

Definition _have_domain (domain : string) : M bool :=
  do! row := select_domain domain in
  ret (bool_decide (is_Some row)).

Definition by_check_time (a b : Z * Z) : Prop := snd a <= snd b.

#[global] Instance by_check_time_dec : RelDecision by_check_time.
Proof. intros a b. unfold by_check_time. apply _. Defined.

(** [select id, check_time from state where domain=%s order by check_time asc] *)
Definition _get_state_ids (domain : string) : M (list (Z * Z)) :=
  fun w =>
    let rows := filter (fun st => st_domain st = domain) (state_tbl w) in
    Ok (merge_sort by_check_time (map (fun st => (st_id st, st_check_time st)) rows), w).

Definition purge_domain (domain : string) : M unit :=
  do! known := _have_domain domain in
  if negb known then raise (SystemExit 1)
  else
    do! states := _get_state_ids domain in
    let state_in_list := map fst states in
    (if bool_decide (states <> []) then delete_changed state_in_list else ret tt) ;;;
    update_last_state None domain ;;;
    (if bool_decide (states <> []) then delete_state state_in_list else ret tt) ;;;
    delete_domain domain ;;;
    commit.

(** *** Activating and deactivating a domain *)

(** [update domain set active_checks=%s where domain=%s] (the journal has
    no entry of its own for this statement; the commit that follows is
    recorded). *)
Definition update_active (val_to_set : bool) (domain : string) : M unit :=
  fun w =>
    let upd r := mkdomain (last_state r) val_to_set (do_dns r)
                          (last_checked r) (cur_raw_text r) in
    Ok (tt, set_domains (alter upd domain (domain_tbl w)) w).

Definition set_domain_status (domain : string) (active_checks : bool) : M unit :=
  do! known := _have_domain domain in
  if negb known then raise (SystemExit 1)
  else
    update_active active_checks domain ;;;
    commit.

(** *** Checking all domains *)

(** [select domain from domain where active_checks=1], collected in a set
    and sorted. *)
Definition select_active : M (list string) :=
  fun w =>
    Ok (sorted (map fst (map_to_list
                           (filter (fun kr => active_checks (snd kr) = true) (domain_tbl w)))),
        w).

Section Batch.

Variable whois_lookup : string -> nat -> string.
Variable load : string -> string -> result (gmap string pyval).
Variable query : string -> rdtype -> answer.
Variable self : app.

(** The loop over the sorted domains, from the given [first] and
    [have_changes]. *)
Fixpoint check_each (domains : list string) (first have_changes : bool) : M bool :=
  match domains with
  | [] => ret have_changes
  | domain :: rest =>
      (if negb first then sleep (delay_between_domains self) else ret tt) ;;;
      do! changed := check_domain whois_lookup load query self domain None in
      check_each rest false (if changed then true else have_changes)
  end.

Definition check_all_domains : M bool :=
  do! domains := select_active in
  check_each domains true false.

End Batch.

End App.

Import App.
Local Open Scope list_scope.

(** * Reference notions

    The notions in which the properties below are stated. *)

(** ** Time *)

(** Days from 1970-01-01 to a date of the proleptic Gregorian calendar. *)
Definition days_from_civil (y m d : Z) : Z :=
  let y' := if m <=? 2 then y - 1 else y in
  let era := y' / 400 in
  let yoe := y' - era * 400 in
  let mp := if m <=? 2 then m + 9 else m - 3 in
  let doy := (153 * mp + 2) / 5 + d - 1 in
  let doe := yoe * 365 + yoe / 4 - yoe / 100 + doy in
  era * 146097 + doe - 719468.

(** The instant a datetime denotes, in seconds since the epoch: its civil
    time minus its UTC offset (a naive value is read as UTC). *)
Definition instant (d : datetime) : Z :=
  days_from_civil (year d) (month d) (day d) * 86400
  + hour d * 3600 + minute d * 60 + second d
  - default 0 (tzinfo d).

(** [a <= b] in the lexicographic order. *)
Definition lex_le (a b : list Z) : Prop := lex_compare a b <> Gt.

(** ** Patterns *)

(** The names of the groups of a pattern. *)
Fixpoint names (r : re) : list string :=
  match r with
  | Seq r1 r2 => names r1 ++ names r2
  | Opt r' => names r'
  | Grp (Some n) r' => n :: names r'
  | Grp None r' => names r'
  | _ => []
  end.

(** What follows the [status] group in [status_url_re]. *)
Definition after_status : re :=
  (Opt (Grp None (Lit " " \\ Opt (Lit "(")
                  \\ Grp (Some "url") (lits "http" (Rep nonspace true true))
                  \\ Opt (Lit ")")))
   \\ Eol)%re.

(** The continuation of [re_match]: the match is complete. *)
Definition finish : cont := fun cs _ _ => Some cs.

(** ** Canonical records and their diff *)

(** The parsed record [parsed_data] is the canonical record [c]: each of
    the eighteen keys holds the scalar of the matching column. *)
Definition canonical (parsed_data : gmap string pyval) (c : canon) : Prop :=
  Forall (fun kv => parsed_data !! fst kv = Some (PScalar (snd kv))) (columns c).

#[global] Instance canonical_dec parsed_data c : Decision (canonical parsed_data c).
Proof. unfold canonical. apply _. Defined.

(** The tracked fields as the specification lists them: label and column,
    in the declared order. *)
Definition tracked : list (string * (canon -> scalar)) :=
  [ ("Registrar", c_registrar); ("WHOIS Server", c_whois_server);
    ("Referral URL", c_referral_url); ("Updated Date", c_updated_date);
    ("Creation Date", c_creation_date); ("Expiration Date", c_expiration_date);
    ("Nameservers", c_name_servers); ("Status", c_status);
    ("Emails", c_emails); ("DNSSEC", c_dnssec);
    ("Registrant Name", c_name); ("Registrant Organization", c_org);
    ("Registrant Address", c_address); ("Registrant City", c_city);
    ("Registrant State", c_state); ("Registrant Zipcode", c_zipcode);
    ("IP Address", c_ip); ("MX Addresses", c_mx) ].

(** The expected diff of two canonical records: one entry (label, old,
    new) per tracked field whose values differ, in the declared order. *)
Definition field_changes (old new : canon) : list (string * scalar * scalar) :=
  filter (fun e => snd (fst e) <> snd e)
         (map (fun lf => (fst lf, snd lf old, snd lf new)) tracked).

(** The rows of [changed] for a diff, numbered from [next]. *)
Fixpoint changed_rows (next state : Z) (ds : list (string * scalar * scalar)) : list changed_row :=
  match ds with
  | [] => []
  | (info, old, new) :: ds' =>
      mkchanged next state info old new :: changed_rows (next + 1) state ds'
  end.

(** ** Stores *)

(** No state of [domain] carries the current time (the unique index on
    [(domain, check_time)] admits a new row). *)
Definition time_free (domain : string) (w : world) : Prop :=
  Forall (fun st => st_domain st = domain -> st_check_time st <> clock w) (state_tbl w).

(** No [changed] row refers to the next state id (they refer to rows of
    [state], whose ids are below the auto-increment counter). *)
Definition id_free (w : world) : Prop :=
  Forall (fun ch => ch_state ch <> state_auto w) (changed_tbl w).

(** A Domain's [last_state] identifies States of that domain only. *)
Definition pointers_own (w : world) : Prop :=
  forall d r id st,
    domain_tbl w !! d = Some r -> last_state r = Some id ->
    st ∈ state_tbl w -> st_id st = id -> st_domain st = d.

(** The keys of the schema as an invariant of the store: ids are handed
    out in increasing order, and references go to rows handed out before. *)
Definition consistent (w : world) : Prop :=
  Forall (fun st => st_id st < state_auto w) (state_tbl w)
  /\ (forall d r id, domain_tbl w !! d = Some r -> last_state r = Some id ->
                     id < state_auto w)
  /\ Forall (fun ch => ch_state ch < state_auto w) (changed_tbl w)
  /\ pointers_own w.

(** The domain row after a check. *)
Definition checked_row (r : domain_row) (last : option Z) (do_dns : bool)
    (now : Z) (check_data : string) : domain_row :=
  mkdomain last (active_checks r) do_dns (Some now) (Some check_data).

(** The Domain row that [check_domain] inserts for an unknown domain. *)
Definition new_domain_row (self : app) : domain_row :=
  mkdomain None true
           match dns_behavior self with FORCE_NO => false | _ => true end
           None None.

(** The world after a check of [domain] that found no change. *)
Definition after_unchanged (domain check_data : string) (do_dns : bool)
    (r : domain_row) (w : world) : world :=
  mkworld (<[domain := checked_row r (last_state r) do_dns (clock w) check_data]> (domain_tbl w))
          (state_tbl w) (changed_tbl w) (state_auto w) (changed_auto w)
          (clock w) (whois_calls w)
          (journal w ++ [UpdateChecked domain; Commit]).

(** The world after a check of [domain] that recorded the state [new]
    with the diff [ds]. *)
Definition after_recorded (domain check_data : string) (new : canon) (do_dns : bool)
    (r : domain_row) (ds : list (string * scalar * scalar)) (w : world) : world :=
  let id := state_auto w in
  mkworld (<[domain := checked_row r (Some id) do_dns (clock w) check_data]> (domain_tbl w))
          (state_tbl w ++ [mkstate id domain (clock w) check_data new])
          (changed_tbl w ++ changed_rows (changed_auto w) id ds)
          (id + 1) (changed_auto w + Z.of_nat (length ds))
          (clock w) (whois_calls w)
          (journal w ++ [UpdateChecked domain; InsertState id domain;
                         UpdateLastState domain (Some id)]
                     ++ map (fun e => InsertChanged id (fst (fst e))) ds
                     ++ [Commit]).

(** The world after [n] whois queries that were all retried but the last:
    [n - 1] pauses of [delay] seconds. *)
Definition after_retries (n : nat) (delay : Z) (w : world) : world :=
  mkworld (domain_tbl w) (state_tbl w) (changed_tbl w) (state_auto w) (changed_auto w)
          (clock w + Z.of_nat (n - 1) * delay) (whois_calls w + n)%nat
          (journal w ++ repeat (Sleep delay) (n - 1)).

(** The world after the first check of a domain that was not in the
    store: its Domain row is inserted and committed, one whois query is
    sent, and the state [c] is recorded. *)
Definition after_first_check (self : app) (domain text : string) (c : canon)
    (w : world) : world :=
  after_recorded domain text c (do_dns (new_domain_row self)) (new_domain_row self) []
    (count_call (log Commit (log (InsertDomain domain)
       (set_domains (<[domain := new_domain_row self]> (domain_tbl w)) w)))).

(** The statements of a purge of [domain] whose states are [ids]. *)
Definition purge_events (domain : string) (ids : list Z) : list event :=
  (if decide (ids = []) then [] else [DeleteChanged ids])
  ++ [UpdateLastState domain None]
  ++ (if decide (ids = []) then [] else [DeleteState ids])
  ++ [DeleteDomain domain; Commit].

(** The world after a purge of [domain] whose states are [ids]. *)
Definition after_purge (domain : string) (ids : list Z) (w : world) : world :=
  mkworld (delete domain (domain_tbl w))
          (filter (fun st => st_id st ∉ ids) (state_tbl w))
          (filter (fun ch => ch_state ch ∉ ids) (changed_tbl w))
          (state_auto w) (changed_auto w) (clock w) (whois_calls w)
          (journal w ++ purge_events domain ids).

(** ** Resolver answers *)

(** A character of an address in presentation format: a hexadecimal digit,
    a dot or a colon. *)
Definition ip_char (c : ascii) : bool :=
  let n := code c in
  (is_digit c || ((97 <=? n) && (n <=? 102)) || ((65 <=? n) && (n <=? 70))
   || (n =? 46) || (n =? 58))%N.

(** An address in presentation format. *)
Definition ip_text (s : string) : bool := forallb ip_char (list_ascii_of_string s).

(** An answer to an A or AAAA query: address records (or no answer). *)
Definition address_answer (a : answer) : bool :=
  match a with
  | Answer rrset =>
      forallb (fun r => match r with Address s => ip_text s | Exchange _ _ => false end) rrset
  | NoAnswer => true
  | Failed => false
  end.

(** An answer to an MX query: exchange records (or no answer). *)
Definition mx_answer (a : answer) : bool :=
  match a with
  | Answer rrset =>
      forallb (fun r => match r with Exchange _ _ => true | Address _ => false end) rrset
  | NoAnswer => true
  | Failed => false
  end.

(** ** Strings, dates and keys of the normaliser *)

(** A non-empty string of decimal digits. *)
Definition digits (s : string) : bool :=
  negb (String.eqb s "") && forallb is_digit (list_ascii_of_string s).


(** A string without a blank and without a line feed. *)
Definition plain (s : string) : bool :=
  forallb (fun c => negb (Ascii.eqb c " ") && dot c) (list_ascii_of_string s).

(** A non-empty string of characters that [\S] matches. *)
Definition unspaced (s : string) : bool :=
  negb (String.eqb s "") && forallb nonspace (list_ascii_of_string s).

(** The keys that [_clean_parsed_data] assigns. *)
Definition cleaned_keys : list string :=
  ["updated_date"; "creation_date"; "expiration_date"; "name_servers"; "status"; "emails"].

(** A naive datetime without microseconds: what a [datetime] column holds. *)
Definition whole_second (v : option pyval) : Prop :=
  exists d, v = Some (PDate d) /\ microsecond d = 0 /\ tzinfo d = None.

(** The first character of a string is a decimal digit. *)
Definition starts_with_digit (s : string) : bool :=
  match s with
  | String c _ => is_digit c
  | EmptyString => false
  end.

(** A date that the normaliser cannot use: the key is missing, or holds
    [None], an empty list, or a string that does not start with a digit. *)
Definition unusable_date (v : option pyval) : Prop :=
  v = None \/ v = Some PNone \/ v = Some (PList [])
  \/ exists s, v = Some (PStr s) /\ starts_with_digit s = false.

(** The first tracked key that a parsed record lacks. *)
Definition first_missing (parsed_data : gmap string pyval) : option string :=
  find (fun key => bool_decide (parsed_data !! key = None)) (map fst datapoints).

(** ** Stores, continued *)

(** The ids of the States of a domain. *)
Definition domain_state_ids (domain : string) (w : world) : list Z :=
  map st_id (filter (fun st => st_domain st = domain) (state_tbl w)).

(** A store as the program keeps it: consistent, with distinct State ids. *)
Definition sound (w : world) : Prop := consistent w /\ NoDup (state_ids w).

(** Whether a check makes DNS lookups: forced by the settings, or as the
    row of the domain says (a new row says yes). *)
Definition lookups_wanted (self : app) (row : option domain_row) : bool :=
  match dns_behavior self with
  | FORCE_YES => true
  | FORCE_NO => false
  | DOMAIN_DEFAULT =>
      match row with
      | Some r => do_dns r
      | None => true
      end
  end.

(** ** Resolver answers as sets *)

(** The records of an answer: [NoAnswer] has none, a failure is no answer. *)
Definition records (a : answer) : option (list rdata) :=
  match a with
  | Answer rrset => Some rrset
  | NoAnswer => Some []
  | Failed => None
  end.

(** Two answers with the same records, in any order and any number of
    repetitions. *)
Definition same_records (a b : answer) : Prop :=
  match records a, records b with
  | Some l1, Some l2 => forall r, r ∈ l1 <-> r ∈ l2
  | None, None => True
  | _, _ => False
  end.

(** Two results of a loop that collects into a set: the same exception,
    or lists with the same elements. *)
Definition same_found (r1 r2 : result (list string)) : Prop :=
  match r1, r2 with
  | Ok l1, Ok l2 => forall x, x ∈ l1 <-> x ∈ l2
  | Raise e1, Raise e2 => e1 = e2
  | _, _ => False
  end.

(** * Examples

    Concrete records, stores and collaborators on which the properties are
    exercised. *)

(** A parsed record with every key the program reads, for the examples. *)
Definition sample (updated emails : pyval) : gmap string pyval :=
  list_to_map
    [ ("registrar", PStr "Example Registrar, Inc."); ("whois_server", PStr "whois.example.net");
      ("referral_url", PNone); ("updated_date", updated);
      ("creation_date", PStr "2011-01-02T03:04:05");
      ("expiration_date", PStr "2031-01-02T03:04:05");
      ("name_servers", PList [SStr "ns2.example."; SStr "ns1.EXAMPLE."]);
      ("status", PStr "ok https://icann.org/epp#ok"); ("emails", emails);
      ("dnssec", PStr "unsigned"); ("name", PNone); ("org", PNone);
      ("address", PNone); ("city", PNone); ("state", PNone); ("zipcode", PNone) ].

(** The value of [key] after normalisation ([None] when normalisation
    raises). *)
Definition normalised (key : string) (parsed_data : gmap string pyval) : option pyval :=
  match _clean_parsed_data parsed_data with
  | Ok out => out !! key
  | Raise _ => None
  end.

(** The parsed record that holds a canonical record. *)
Definition parsed_of (c : canon) : gmap string pyval :=
  list_to_map (map (fun kv => (fst kv, PScalar (snd kv))) (columns c)).

(** A canonical record of a check without DNS lookups. *)
Definition record0 : canon :=
  mkcanon (SStr "Example Registrar, Inc.") (SStr "whois.example.net") SNone
          (SDate (mkdt 2021 1 2 3 4 5 0 None)) (SDate (mkdt 2011 1 2 3 4 5 0 None))
          (SDate (mkdt 2031 1 2 3 4 5 0 None))
          (SStr "ns1.example., ns2.example.") (SStr "ok") (SStr "a@x") (SStr "unsigned")
          SNone SNone SNone SNone SNone SNone
          (SStr disabled) (SStr disabled).

(** A later record: other registrar, other update date, with DNS data. *)
Definition record1 : canon :=
  mkcanon (SStr "Other Registrar") (SStr "whois.example.net") SNone
          (SDate (mkdt 2022 6 7 8 9 10 0 None)) (SDate (mkdt 2011 1 2 3 4 5 0 None))
          (SDate (mkdt 2031 1 2 3 4 5 0 None))
          (SStr "ns1.example., ns2.example.") (SStr "ok") (SStr "a@x") (SStr "unsigned")
          SNone SNone SNone SNone SNone SNone
          (SStr "192.0.2.1") (SStr "").

(** [record0] with the addresses that [resolver0] gives. *)
Definition record2 : canon :=
  mkcanon (SStr "Example Registrar, Inc.") (SStr "whois.example.net") SNone
          (SDate (mkdt 2021 1 2 3 4 5 0 None)) (SDate (mkdt 2011 1 2 3 4 5 0 None))
          (SDate (mkdt 2031 1 2 3 4 5 0 None))
          (SStr "ns1.example., ns2.example.") (SStr "ok") (SStr "a@x") (SStr "unsigned")
          SNone SNone SNone SNone SNone SNone
          (SStr "192.0.2.1") (SStr "").

(** The canonical record of [cleaned0] with the addresses of [resolver0]. *)
Definition record3 : canon :=
  mkcanon (SStr "Example Registrar, Inc.") (SStr "whois.example.net") SNone
          (SDate (mkdt 2021 1 2 3 4 5 0 None)) (SDate (mkdt 2011 1 2 3 4 5 0 None))
          (SDate (mkdt 2031 1 2 3 4 5 0 None))
          (SStr "ns1.example., ns2.example.") (SStr "ok") (SStr "a@x, b@x") (SStr "unsigned")
          SNone SNone SNone SNone SNone SNone
          (SStr "192.0.2.1") (SStr "").

(** A store without rows. *)
Definition store_empty : world := mkworld ∅ [] [] 1 1 1000 0%nat [].

(** A store that knows [example.com] but has no State of it yet. *)
Definition store_new : world :=
  mkworld {[ "example.com" := mkdomain None true true None None ]}
          [] [] 1 1 1000 0%nat [].

(** A store with one State of [example.com], checked at time 1000; the
    clock now shows 2000. *)
Definition store_one : world :=
  mkworld {[ "example.com" := mkdomain (Some 1) true false (Some 1000) (Some "raw text") ]}
          [mkstate 1 "example.com" 1000 "raw text" record0]
          [] 2 1 2000 0%nat [].

(** A store with two States of [example.com] and the diff of the second. *)
Definition store_two : world :=
  mkworld {[ "example.com" := mkdomain (Some 2) true true (Some 2000) (Some "new raw text") ]}
          [ mkstate 1 "example.com" 1000 "raw text" record0;
            mkstate 2 "example.com" 2000 "new raw text" record1 ]
          (changed_rows 1 2 (field_changes record0 record1))
          3 5 3000 0%nat [].

(** The default settings: DNS as the domain says, 30 seconds, 3 attempts. *)
Definition app0 : app := mkapp DOMAIN_DEFAULT 30 3 true.

(** A whois service that never answers. *)
Definition always_down (domain : string) (n : nat) : string := "Socket not responding".

(** A whois service that answers. *)
Definition whois_up (domain : string) (n : nat) : string := "Domain Name: EXAMPLE.COM".

(** A parser that is never reached. *)
Definition no_parse (domain text : string) : result (gmap string pyval) :=
  Raise (SystemExit 1).

(** What the text of [whois_up] is parsed to, and its normal form. *)
Definition raw0 : gmap string pyval :=
  sample (PStr "2021-01-02T03:04:05") (PList [SStr "b@x"; SStr "a@x"]).

Definition load0 (domain text : string) : result (gmap string pyval) := Ok raw0.

Definition cleaned0 : gmap string pyval :=
  <["emails" := PStr "a@x, b@x"]>
    (<["status" := PStr "ok"]>
       (<["name_servers" := PStr "ns1.example., ns2.example."]>
          (<["expiration_date" := PDate (mkdt 2031 1 2 3 4 5 0 None)]>
             (<["creation_date" := PDate (mkdt 2011 1 2 3 4 5 0 None)]>
                (<["updated_date" := PDate (mkdt 2021 1 2 3 4 5 0 None)]> raw0))))).

(** A resolver that knows one address and no mail exchange. *)
Definition resolver0 (domain : string) (t : rdtype) : answer :=
  match t with
  | A => Answer [Address "192.0.2.1"]
  | AAAA => NoAnswer
  | MX => NoAnswer
  end.

(** A whois service whose first answer is the communication error. *)
Definition flaky (domain : string) (n : nat) : string :=
  if (n <? 1)%nat then "Socket not responding" else "Domain Name: EXAMPLE.COM".

(** Settings that allow no attempt. *)
Definition app_no_attempt : app := mkapp DOMAIN_DEFAULT 30 0 false.

(** Settings that force DNS lookups off. *)
Definition app_no_dns : app := mkapp FORCE_NO 30 3 false.

(** The empty store after a first check of [example.com]. *)
Definition store_first : world :=
  after_first_check app0 "example.com" "Domain Name: EXAMPLE.COM" record3 store_empty.

(** [store_two] with a second domain, [example.org], that has one State. *)
Definition store_pair : world :=
  mkworld (<["example.org" := mkdomain (Some 3) true false (Some 2500) (Some "org text")]>
             (domain_tbl store_two))
          (state_tbl store_two ++ [mkstate 3 "example.org" 2500 "org text" record0])
          (changed_tbl store_two)
          4 5 3000 0%nat [].

(** [store_pair] after the purge of [example.com]. *)
Definition store_purged : world := after_purge "example.com" [1; 2] store_pair.

(** A store with a domain that is not checked and a domain that is. *)
Definition store_mixed : world :=
  mkworld (<["example.org" := mkdomain None true true None None]>
             {[ "example.com" := mkdomain (Some 1) false false (Some 1000) (Some "raw text") ]})
          [mkstate 1 "example.com" 1000 "raw text" record0]
          [] 2 1 2000 0%nat [].

(** [store_mixed] after a batch. *)
Definition store_checked : world :=
  after_recorded "example.org" "Domain Name: EXAMPLE.COM" record3 true
    (mkdomain None true true None None) [] (count_call store_mixed).

(** [record3] without DNS data. *)
Definition record4 : canon :=
  mkcanon (SStr "Example Registrar, Inc.") (SStr "whois.example.net") SNone
          (SDate (mkdt 2021 1 2 3 4 5 0 None)) (SDate (mkdt 2011 1 2 3 4 5 0 None))
          (SDate (mkdt 2031 1 2 3 4 5 0 None))
          (SStr "ns1.example., ns2.example.") (SStr "ok") (SStr "a@x, b@x") (SStr "unsigned")
          SNone SNone SNone SNone SNone SNone
          (SStr disabled) (SStr disabled).

(** [store_new] after a check with DNS lookups forced off. *)
Definition store_no_dns : world :=
  after_recorded "example.com" "Domain Name: EXAMPLE.COM" record4 false
    (mkdomain None true true None None) [] store_new.

(** Two resolvers that give the same records in different orders. *)
Definition resolver1 (domain : string) (t : rdtype) : answer :=
  match t with
  | A => Answer [Address "192.0.2.2"; Address "192.0.2.1"]
  | AAAA => NoAnswer
  | MX => Answer [Exchange 10 "mail.example."]
  end.

Definition resolver2 (domain : string) (t : rdtype) : answer :=
  match t with
  | A => Answer [Address "192.0.2.1"; Address "192.0.2.2"; Address "192.0.2.1"]
  | AAAA => Answer []
  | MX => Answer [Exchange 10 "mail.example."; Exchange 10 "mail.example."]
  end.

(** A resolver for a name that does not exist. *)
Definition resolver_down (domain : string) (t : rdtype) : answer := Failed.

(** * Properties *)

(** ** Normaliser: emails *)

Section Emails.

Lemma for_each_str_entry (l : list string) :
  for_each str_entry (map SStr l) = Ok l.
Proof.
  induction l as [|x l IH]; simpl; [reflexivity|].
  rewrite IH. reflexivity.
Qed.

Lemma sorted_is_sorted (l : list string) : Sorted String.le (sorted l).
Proof. apply (Sorted_merge_sort String.le). Qed.

Lemma sorted_permutation (l : list string) : sorted l ≡ₚ l.
Proof. apply merge_sort_Permutation. Qed.

Lemma sorted_of_permutation (l1 l2 : list string) :
  l1 ≡ₚ l2 -> sorted l1 = sorted l2.
Proof.
  intros Hp. apply (Sorted_unique String.le); try apply sorted_is_sorted.
  rewrite !sorted_permutation. exact Hp.
Qed.

Lemma clean_emails_list (l : list string) :
  clean_emails (PList (map SStr l)) = Ok (PStr (join ", " (sorted l))).
Proof. unfold clean_emails. rewrite for_each_str_entry. reflexivity. Qed.

End Emails.

(** C1 (as amended). A list of emails is normalised to the ascending,
    [", "]-joined list of its entries, duplicates kept: the sorted list is a
    permutation of the input. Two lists that are permutations of each other
    normalise to the same string, and a scalar value is left unchanged. *)
Theorem emails_sorted_joined (l1 l2 : list string) (Hperm : l1 ≡ₚ l2) :
  clean_emails (PList (map SStr l1)) = Ok (PStr (join ", " (sorted l1)))
  /\ Sorted String.le (sorted l1)
  /\ sorted l1 ≡ₚ l1
  /\ clean_emails (PList (map SStr l2)) = clean_emails (PList (map SStr l1))
  /\ forall x, clean_emails (PScalar x) = Ok (PScalar x).
Proof.
  split; [apply clean_emails_list|].
  split; [apply sorted_is_sorted|].
  split; [apply sorted_permutation|].
  split; [|reflexivity].
  rewrite !clean_emails_list, (sorted_of_permutation l1 l2 Hperm). reflexivity.
Qed.

Lemma emails_sorted_joined_witness :
  clean_emails (PList (map SStr ["b@x"; "a@x"; "b@x"])) = Ok (PStr "a@x, b@x, b@x")
  /\ clean_emails (PList (map SStr ["b@x"; "b@x"; "a@x"]))
     = clean_emails (PList (map SStr ["b@x"; "a@x"; "b@x"])).
Proof.
  assert (Hp : ["b@x"; "a@x"; "b@x"] ≡ₚ ["b@x"; "b@x"; "a@x"])
    by (apply perm_skip, perm_swap).
  destruct (emails_sorted_joined _ _ Hp) as (H1 & _ & _ & H4 & _).
  split; [exact H1 | exact H4].
Defined.

(** C1 (as stated) fails: a repeated address stays repeated, so two lists
    with the same set of addresses normalise to different strings, and the
    result is not the deduplicated form. *)
Lemma emails_duplicates_kept :
  let twice := [SStr "a@x"; SStr "a@x"] in
  let once := [SStr "a@x"] in
  (forall e, e ∈ twice <-> e ∈ once)
  /\ normalised "emails" (sample (PStr "2021-01-02T03:04:05") (PList twice))
     = Some (PStr "a@x, a@x")
  /\ normalised "emails" (sample (PStr "2021-01-02T03:04:05") (PList once))
     = Some (PStr "a@x")
  /\ join ", " (sorted_set ["a@x"; "a@x"]) = "a@x"
  /\ "a@x, a@x" <> "a@x".
Proof.
  cbv zeta. split; [|split; [|split; [|split]]].
  - intros e. rewrite !elem_of_cons. tauto.
  - vm_compute. reflexivity.
  - vm_compute. reflexivity.
  - vm_compute. reflexivity.
  - discriminate.
Qed.

(** ** Normaliser: dates *)

Section Dates.

Lemma dt_valid_fields (d : datetime) :
  dt_valid d = true ->
  fields_ok (year d) (month d) (day d) (hour d) (minute d) (second d) = true.
Proof.
  unfold dt_valid. intros H.
  apply andb_prop in H as [H _]. apply andb_prop in H as [H _]. exact H.
Qed.

(** Every datetime object is accepted, whatever its offset. *)
Lemma clean_date_datetime (d : datetime) :
  dt_valid d = true ->
  clean_date (SDate d)
  = Ok (mkdt (year d) (month d) (day d) (hour d) (minute d) (second d) 0 None).
Proof.
  intros Hv. unfold clean_date. destruct d as [y mo dd h mi s us [off|]]; simpl.
  - pose proof (dt_valid_fields _ Hv) as Hf. simpl in Hf.
    unfold datetime_new. rewrite Hf. reflexivity.
  - reflexivity.
Qed.

(** A list of datetime objects is always a list of valid date values. *)
Lemma clean_date_datetimes (l : list datetime) :
  Forall (fun d => dt_valid d = true) l ->
  for_each clean_date (map SDate l)
  = Ok (map (fun d => mkdt (year d) (month d) (day d) (hour d) (minute d) (second d) 0 None) l).
Proof.
  induction 1 as [|d l Hd _ IH]; [reflexivity|].
  cbn [map for_each]. rewrite (clean_date_datetime d Hd), IH. reflexivity.
Qed.

(** The order of the comparisons. *)
Lemma lex_compare_refl (a : list Z) : lex_compare a a = Eq.
Proof. induction a as [|x a IH]; simpl; [reflexivity|]. rewrite Z.compare_refl. exact IH. Qed.

Lemma lex_compare_eq (a b : list Z) : lex_compare a b = Eq -> a = b.
Proof.
  revert b. induction a as [|x a IH]; intros [|y b]; simpl; try congruence.
  destruct (Z.compare_spec x y); try congruence.
  intros H'. subst. f_equal. apply IH, H'.
Qed.

Lemma lex_compare_antisym (a b : list Z) :
  lex_compare a b = CompOpp (lex_compare b a).
Proof.
  revert b. induction a as [|x a IH]; intros [|y b]; simpl; try reflexivity.
  rewrite (Z.compare_antisym y x).
  destruct (y ?= x); simpl; auto.
Qed.

Lemma lex_compare_lt_trans (a b c : list Z) :
  lex_compare a b <> Gt -> lex_compare b c = Lt -> lex_compare a c = Lt.
Proof.
  revert b c. induction a as [|x a IH]; intros [|y b] [|z c]; simpl;
    try congruence.
  destruct (Z.compare_spec x y), (Z.compare_spec y z), (Z.compare_spec x z);
    try congruence; try lia; intros Hab Hbc.
  eapply IH; eassumption.
Qed.

Lemma lex_le_trans (a b c : list Z) : lex_le a b -> lex_le b c -> lex_le a c.
Proof.
  unfold lex_le. intros Hab Hbc.
  destruct (lex_compare b c) eqn:E; try congruence.
  - apply lex_compare_eq in E. subst. exact Hab.
  - rewrite (lex_compare_lt_trans a b c Hab E). discriminate.
Qed.

Lemma dt_leb_le (a b : datetime) :
  dt_leb a b = true <-> lex_le (dt_key a) (dt_key b).
Proof.
  unfold dt_leb, dt_ltb, dt_compare, lex_le.
  rewrite (lex_compare_antisym (dt_key a)).
  destruct (lex_compare (dt_key b) (dt_key a)); simpl; split; congruence.
Qed.

Lemma dt_leb_refl (a : datetime) : dt_leb a a = true.
Proof. apply dt_leb_le. unfold lex_le. rewrite lex_compare_refl. discriminate. Qed.

Lemma dt_leb_trans (a b c : datetime) :
  dt_leb a b = true -> dt_leb b c = true -> dt_leb a c = true.
Proof. rewrite !dt_leb_le. apply lex_le_trans. Qed.

Lemma dt_ltb_leb (a b : datetime) : dt_ltb a b = true -> dt_leb a b = true.
Proof.
  intros H. apply dt_leb_le. unfold lex_le. unfold dt_ltb, dt_compare in H.
  destruct (lex_compare (dt_key a) (dt_key b)); congruence.
Qed.

Lemma dt_not_ltb_leb (a b : datetime) : dt_ltb a b = false -> dt_leb b a = true.
Proof. intros H. unfold dt_leb. rewrite H. reflexivity. Qed.

(** The running value of [max] is an element and an upper bound. *)
Lemma fold_max_spec (l : list datetime) (x : datetime) :
  let m := fold_left (fun m y => if dt_gtb y m then y else m) l x in
  m ∈ x :: l /\ forall d, d ∈ x :: l -> dt_leb d m = true.
Proof.
  revert x. induction l as [|y l IH]; intros x; simpl.
  - split; [left|]. intros d Hd. apply list_elem_of_singleton in Hd as ->. apply dt_leb_refl.
  - set (x' := if dt_gtb y x then y else x).
    assert (Hx : dt_leb x x' = true /\ dt_leb y x' = true /\ (x' = x \/ x' = y)).
    { subst x'. unfold dt_gtb. destruct (dt_ltb x y) eqn:E.
      - auto using dt_ltb_leb, dt_leb_refl.
      - auto using dt_not_ltb_leb, dt_leb_refl. }
    destruct Hx as (Hxx' & Hyx' & Hsel).
    destruct (IH x') as [Hin Hub]. split.
    + apply elem_of_cons in Hin as [->|Hin].
      * destruct Hsel as [->| ->]; [left | right; left].
      * right; right; exact Hin.
    + intros d Hd. pose proof (Hub x' ltac:(left)) as Hx'm.
      apply elem_of_cons in Hd as [->|Hd]; [eapply dt_leb_trans; eassumption|].
      apply elem_of_cons in Hd as [->|Hd]; [eapply dt_leb_trans; eassumption|].
      apply Hub. right. exact Hd.
Qed.

(** The running value of [min] is an element and a lower bound. *)
Lemma fold_min_spec (l : list datetime) (x : datetime) :
  let m := fold_left (fun m y => if dt_ltb y m then y else m) l x in
  m ∈ x :: l /\ forall d, d ∈ x :: l -> dt_leb m d = true.
Proof.
  revert x. induction l as [|y l IH]; intros x; simpl.
  - split; [left|]. intros d Hd. apply list_elem_of_singleton in Hd as ->. apply dt_leb_refl.
  - set (x' := if dt_ltb y x then y else x).
    assert (Hx : dt_leb x' x = true /\ dt_leb x' y = true /\ (x' = x \/ x' = y)).
    { subst x'. destruct (dt_ltb y x) eqn:E.
      - auto using dt_ltb_leb, dt_leb_refl.
      - auto using dt_not_ltb_leb, dt_leb_refl. }
    destruct Hx as (Hxx' & Hyx' & Hsel).
    destruct (IH x') as [Hin Hlb]. split.
    + apply elem_of_cons in Hin as [->|Hin].
      * destruct Hsel as [->| ->]; [left | right; left].
      * right; right; exact Hin.
    + intros d Hd. pose proof (Hlb x' ltac:(left)) as Hmx'.
      apply elem_of_cons in Hd as [->|Hd]; [eapply dt_leb_trans; eassumption|].
      apply elem_of_cons in Hd as [->|Hd]; [eapply dt_leb_trans; eassumption|].
      apply Hlb. right. exact Hd.
Qed.

Lemma py_max_spec (ds : list datetime) :
  ds <> [] ->
  exists m, py_max ds = Ok m /\ m ∈ ds /\ forall d, d ∈ ds -> dt_leb d m = true.
Proof.
  destruct ds as [|x l]; [congruence|]. intros _.
  eexists. split; [reflexivity|]. apply fold_max_spec.
Qed.

Lemma py_min_spec (ds : list datetime) :
  ds <> [] ->
  exists m, py_min ds = Ok m /\ m ∈ ds /\ forall d, d ∈ ds -> dt_leb m d = true.
Proof.
  destruct ds as [|x l]; [congruence|]. intros _.
  eexists. split; [reflexivity|]. apply fold_min_spec.
Qed.

Lemma for_each_nonempty {X Y} (f : X -> result Y) (l : list X) (ys : list Y) :
  for_each f l = Ok ys -> l <> [] -> ys <> [].
Proof.
  destruct l as [|x l]; [congruence|]. simpl.
  destruct (f x); simpl; [|discriminate].
  destruct (for_each f l); simpl; [|discriminate].
  intros [= <-] _. discriminate.
Qed.

End Dates.

(** C2 (as amended). A datetime value of a date field, aware or naive, is
    normalised to the naive timestamp made of its own fields year..second:
    the microseconds and the offset are dropped and the civil time is not
    shifted. The result, read as UTC, therefore lies later than the instant
    the value denotes by exactly the value's UTC offset (and denotes the
    same instant when the offset is zero or absent). *)
Theorem dates_keep_their_civil_fields (d : datetime) (Hvalid : dt_valid d = true) :
  let c := mkdt (year d) (month d) (day d) (hour d) (minute d) (second d) 0 None in
  clean_date (SDate d) = Ok c
  /\ instant c = instant d + default 0 (tzinfo d).
Proof.
  split; [apply clean_date_datetime, Hvalid|].
  unfold instant. simpl. lia.
Qed.

Lemma dates_keep_their_civil_fields_witness :
  clean_date (SDate (mkdt 2020 1 1 12 0 0 250000 (Some 7200)))
  = Ok (mkdt 2020 1 1 12 0 0 0 None)
  /\ instant (mkdt 2020 1 1 12 0 0 0 None)
     = instant (mkdt 2020 1 1 12 0 0 250000 (Some 7200)) + 7200.
Proof.
  apply (dates_keep_their_civil_fields (mkdt 2020 1 1 12 0 0 250000 (Some 7200))).
  reflexivity.
Defined.

(** C2 (as stated) fails: noon at +02:00 and ten o'clock at +00:00 are the
    same instant, yet they normalise to different timestamps, and the first
    is not normalised to its UTC civil time. *)
Lemma aware_dates_not_converted_to_utc :
  let noon_plus2 := mkdt 2020 1 1 12 0 0 0 (Some 7200) in
  let ten_utc := mkdt 2020 1 1 10 0 0 0 (Some 0) in
  dt_valid noon_plus2 = true /\ dt_valid ten_utc = true
  /\ instant noon_plus2 = instant ten_utc
  /\ clean_date (SDate noon_plus2) = Ok (mkdt 2020 1 1 12 0 0 0 None)
  /\ clean_date (SDate ten_utc) = Ok (mkdt 2020 1 1 10 0 0 0 None)
  /\ clean_date (SDate noon_plus2) <> clean_date (SDate ten_utc)
  /\ instant (mkdt 2020 1 1 12 0 0 0 None) <> instant noon_plus2.
Proof.
  cbv zeta. repeat split; try reflexivity; vm_compute; discriminate.
Qed.

(** C7. When every value of a date field is a valid date value (each is
    normalised to a timestamp), a non-empty list is reduced to one of its
    normalised values: for [updated_date] the greatest, for [creation_date]
    and [expiration_date] the smallest. A scalar is handled as the list of
    that one value and reduces to its own normalised timestamp. *)
Theorem date_lists_reduced (l : list scalar) (ds : list datetime)
    (Hnonempty : l <> []) (Hvalid : for_each clean_date l = Ok ds) :
  date_keys = [("updated_date", py_max); ("creation_date", py_min);
               ("expiration_date", py_min)]
  /\ (exists m, clean_dates py_max (PList l) = Ok m
                /\ m ∈ ds /\ forall d, d ∈ ds -> dt_leb d m = true)
  /\ (exists m, clean_dates py_min (PList l) = Ok m
                /\ m ∈ ds /\ forall d, d ∈ ds -> dt_leb m d = true)
  /\ (forall x d, clean_date x = Ok d ->
        clean_dates py_max (PScalar x) = Ok d
        /\ clean_dates py_min (PScalar x) = Ok d).
Proof.
  pose proof (for_each_nonempty _ _ _ Hvalid Hnonempty) as Hds.
  split; [reflexivity|]. split; [|split].
  - unfold clean_dates. simpl. rewrite Hvalid. simpl. apply py_max_spec, Hds.
  - unfold clean_dates. simpl. rewrite Hvalid. simpl. apply py_min_spec, Hds.
  - intros x d Hx. unfold clean_dates. simpl. rewrite Hx. simpl. split; reflexivity.
Qed.

Lemma date_lists_reduced_witness :
  exists m,
    clean_dates py_max (PList [SDate (mkdt 2020 1 2 3 4 5 0 None);
                               SStr "2021-01-02T03:04:05"]) = Ok m
    /\ m ∈ [mkdt 2020 1 2 3 4 5 0 None; mkdt 2021 1 2 3 4 5 0 None]
    /\ forall d, d ∈ [mkdt 2020 1 2 3 4 5 0 None; mkdt 2021 1 2 3 4 5 0 None] ->
                 dt_leb d m = true.
Proof.
  refine (proj1 (proj2 (date_lists_reduced
            [SDate (mkdt 2020 1 2 3 4 5 0 None); SStr "2021-01-02T03:04:05"]
            [mkdt 2020 1 2 3 4 5 0 None; mkdt 2021 1 2 3 4 5 0 None] _ _))).
  - discriminate.
  - vm_compute. reflexivity.
Defined.

(** ** Normaliser: the status pattern *)

Section StatusPattern.

(** A quantified class hands over to its continuation. *)
Lemma rep_lazy_from p k pos s m :
  rep_lazy p k pos s = Some m -> exists pos' s', k pos' s' = Some m.
Proof.
  revert pos. induction s as [|c s IH]; intros pos; simpl.
  - destruct (k pos EmptyString) eqn:E; [|discriminate]. intros [= <-]. eauto.
  - destruct (k pos (String c s)) eqn:E; [intros [= <-]; eauto|].
    destruct (p c); [apply IH | discriminate].
Qed.

Lemma rep_greedy_from p k pos s m :
  rep_greedy p k pos s = Some m -> exists pos' s', k pos' s' = Some m.
Proof.
  revert pos. induction s as [|c s IH]; intros pos; simpl; [eauto|].
  destruct (p c); [|eauto].
  destruct (rep_greedy p k (S pos) s) eqn:E; [|eauto].
  intros [= <-]. eapply IH, E.
Qed.

Lemma rep_from p plus lazy k pos s m :
  rep p plus lazy k pos s = Some m -> exists pos' s', k pos' s' = Some m.
Proof.
  unfold rep. destruct plus, lazy, s as [|c s]; try discriminate;
    try destruct (p c); try discriminate;
    eauto using rep_lazy_from, rep_greedy_from.
Qed.

(** A match is what the continuation returns, on the captures so far
    extended by groups of the pattern. *)
Lemma rmatch_from r :
  forall k cs pos s m,
    rmatch r k cs pos s = Some m ->
    exists new pos' s',
      k (new ++ cs) pos' s' = Some m /\ Forall (fun e => fst e ∈ names r) new.
Proof.
  induction r as [| |c|r1 IH1 r2 IH2|r IH|p plus lazy|[n|] r IH];
    intros k cs pos s m; simpl.
  - destruct (Nat.eqb pos 0); [|discriminate]. intros H. exists []. eauto.
  - destruct (at_eol s); [|discriminate]. intros H. exists []. eauto.
  - destruct s as [|c' s]; [discriminate|].
    destruct (Ascii.eqb c c'); [|discriminate]. intros H. exists []. eauto.
  - intros H. apply IH1 in H as (n1 & p1 & s1 & H & Hn1).
    apply IH2 in H as (n2 & p2 & s2 & H & Hn2).
    exists (n2 ++ n1), p2, s2. rewrite <- app_assoc. split; [exact H|].
    apply Forall_app. split; eapply Forall_impl; try eassumption;
      intros e He; apply elem_of_app; auto.
  - destruct (rmatch r k cs pos s) eqn:E.
    + intros [= <-]. apply IH in E. exact E.
    + intros H. exists []. eauto.
  - intros H. apply rep_from in H as (p' & s' & H). exists []. eauto.
  - intros H. apply IH in H as (n1 & p1 & s1 & H & Hn1).
    exists ((n, (pos, p1)) :: n1), p1, s1. split; [exact H|].
    constructor; [left|]. eapply Forall_impl; [eassumption|].
    intros e He. right. exact He.
  - apply IH.
Qed.

Lemma assoc_skip (n : string) (new cs : caps) :
  Forall (fun e => fst e <> n) new -> assoc n (new ++ cs) = assoc n cs.
Proof.
  induction 1 as [|[n' sp] new Hne _ IH]; simpl; [reflexivity|].
  simpl in Hne. destruct (String.eqb_spec n n'); [congruence|]. exact IH.
Qed.

Lemma status_url_re_unfold (s : string) :
  rmatch status_url_re finish [] 0%nat s
  = rep_lazy dot (fun pos' s' => rmatch after_status finish [("status", (0, pos'))%nat] pos' s')
             0%nat s.
Proof. reflexivity. Qed.

(** The lazy [.*?] can always run to the end of a string without a line
    feed, where the rest of the pattern matches the empty string. *)
Lemma lazy_dot_reaches_end (k : nat -> string -> option caps) (s : string) :
  (forall pos, is_Some (k pos EmptyString)) ->
  LF ∉ list_ascii_of_string s ->
  forall pos, is_Some (rep_lazy dot k pos s).
Proof.
  intros Hend. induction s as [|c s IH]; intros Hnl pos; simpl.
  - destruct (Hend pos) as [m ->]. eauto.
  - destruct (k pos (String c s)); [eauto|].
    simpl in Hnl. apply not_elem_of_cons in Hnl as [Hc Hnl].
    unfold dot. destruct (Ascii.eqb_spec c LF); [congruence|]. simpl.
    apply IH, Hnl.
Qed.

End StatusPattern.

(** C10. On a status without a line feed the pattern [status_url_re]
    matches and its [status] group takes part in the match as a prefix of
    the status: the branch that keeps the raw status is not taken, and
    normalising the status returns that prefix. *)
Theorem status_pattern_always_matches (s : string)
    (Hline : LF ∉ list_ascii_of_string s) :
  exists m n,
    re_match status_url_re s = Some m
    /\ group m "status" = Some (substring 0 n s)
    /\ clean_status (SStr s) = Ok (substring 0 n s).
Proof.
  assert (Hsome : is_Some (rmatch status_url_re finish [] 0%nat s)).
  { rewrite status_url_re_unfold. apply lazy_dot_reaches_end; [|exact Hline].
    intros pos. vm_compute. eauto. }
  destruct Hsome as [cs Hcs].
  assert (Hst : exists n, assoc "status" cs = Some (0%nat, n)).
  { rewrite status_url_re_unfold in Hcs.
    apply rep_lazy_from in Hcs as (pos' & s' & Hcs).
    apply rmatch_from in Hcs as (new & p2 & s2 & Hfin & Hnames).
    injection Hfin as <-. exists pos'.
    rewrite assoc_skip; [simpl; reflexivity|].
    eapply Forall_impl; [exact Hnames|]. intros [n' sp] Hn' Heq.
    simpl in Heq. subst n'. simpl in Hn'.
    apply list_elem_of_singleton in Hn'. discriminate. }
  destruct Hst as [n Hn].
  assert (Hm : re_match status_url_re s = Some (mkmatch s cs)).
  { unfold re_match. fold finish. rewrite Hcs. reflexivity. }
  assert (Hg : group (mkmatch s cs) "status" = Some (substring 0 n s)).
  { unfold group. simpl. rewrite Hn. rewrite Nat.sub_0_r. reflexivity. }
  exists (mkmatch s cs), n. split; [exact Hm|]. split; [exact Hg|].
  unfold clean_status. rewrite Hm, Hg. reflexivity.
Qed.

Lemma status_pattern_always_matches_witness :
  exists m n,
    re_match status_url_re "ok (https://icann.org/epp#ok)" = Some m
    /\ group m "status" = Some (substring 0 n "ok (https://icann.org/epp#ok)")
    /\ clean_status (SStr "ok (https://icann.org/epp#ok)")
       = Ok (substring 0 n "ok (https://icann.org/epp#ok)").
Proof.
  apply (status_pattern_always_matches "ok (https://icann.org/epp#ok)").
  vm_compute. intros H. repeat (apply elem_of_cons in H as [H|H]; [discriminate|]).
  apply elem_of_nil in H. exact H.
Defined.

(** With a line feed inside, the pattern may fail and the raw status is
    kept. *)
Example status_with_line_feed :
  re_match status_url_re (String "a" (String LF "b")) = None
  /\ clean_status (SStr (String "a" (String LF "b"))) = Ok (String "a" (String LF "b")).
Proof. split; reflexivity. Qed.

(** ** Diff engine and history store *)

Section Diff.

Ltac forall_inv H :=
  repeat match type of H with
         | Forall _ (_ :: _) =>
             let H1 := fresh "Hk" in
             apply Forall_cons in H as [H1 H]; simpl in H1
         end.

Lemma canonical_state_params (pd : gmap string pyval) (c : canon) :
  canonical pd c -> state_params pd = Ok c.
Proof.
  intros H. unfold canonical, columns in H. forall_inv H.
  unfold state_params, getitem.
  repeat match goal with
         | Hk : pd !! ?k = Some _ |- context [pd !! ?k] => rewrite Hk; clear Hk
         end.
  simpl. destruct c. reflexivity.
Qed.

(** The loop over the datapoints, for any list of items whose old and new
    values are known. *)
Lemma find_differences_gen prev pd items (triples : list (string * scalar * scalar)) :
  Forall2 (fun ke t => snd ke = fst (fst t)
                       /\ row_item prev (fst ke) = Ok (snd (fst t))
                       /\ getitem pd (fst ke) = Ok (PScalar (snd t)))
          items triples ->
  forall b acc,
    find_differences prev pd items b acc
    = Ok (b || bool_decide (filter (fun e => snd (fst e) <> snd e) triples <> []),
          acc ++ map (fun e => (fst (fst e), snd (fst e), PScalar (snd e)))
                     (filter (fun e => snd (fst e) <> snd e) triples)).
Proof.
  induction 1 as [|[key eng] [[label old] new] items triples (Hl & Ho & Hn) _ IH];
    intros b acc; simpl in *.
  - rewrite orb_false_r, app_nil_r. reflexivity.
  - subst label. rewrite Ho, Hn. simpl. unfold py_ne.
    rewrite filter_cons. simpl.
    destruct (decide (old <> new)) as [Hne|Heq].
    + rewrite bool_decide_true by congruence.
      rewrite IH. simpl. rewrite orb_true_r, <- app_assoc. reflexivity.
    + rewrite bool_decide_false by (intros Hc; apply Heq; congruence).
      apply IH.
Qed.

Lemma find_differences_spec prev pd new :
  canonical pd new ->
  find_differences (Some prev) pd datapoints false []
  = Ok (bool_decide (field_changes (st_data prev) new <> []),
        map (fun e => (fst (fst e), snd (fst e), PScalar (snd e)))
            (field_changes (st_data prev) new)).
Proof.
  intros H. unfold canonical, columns in H. forall_inv H.
  unfold field_changes.
  rewrite (find_differences_gen (Some prev) pd datapoints
             (map (fun lf => (fst lf, snd lf (st_data prev), snd lf new)) tracked)).
  - reflexivity.
  - unfold datapoints, tracked. simpl.
    repeat (constructor; [simpl; unfold getitem; split; [reflexivity|split; [reflexivity|]];
                          match goal with
                          | Hk : pd !! ?k = Some _ |- context [pd !! ?k] => rewrite Hk
                          end; reflexivity|]).
    constructor.
Qed.

(** The eighteen tracked fields are the whole canonical record. *)
Lemma field_changes_nil (old new : canon) :
  field_changes old new = [] <-> old = new.
Proof.
  split.
  - unfold field_changes. intros H.
    assert (Hall : Forall (fun e : string * scalar * scalar => snd (fst e) = snd e)
                     (map (fun lf => (fst lf, snd lf old, snd lf new)) tracked)).
    { apply Forall_forall. intros e He.
      destruct (decide (snd (fst e) = snd e)) as [|Hne]; [assumption|].
      exfalso. assert (Hin : e ∈ filter (fun e : string * scalar * scalar => snd (fst e) <> snd e)
                                (map (fun lf => (fst lf, snd lf old, snd lf new)) tracked)).
      { apply list_elem_of_filter. split; assumption. }
      rewrite H in Hin. apply elem_of_nil in Hin. exact Hin. }
    unfold tracked in Hall. simpl in Hall. forall_inv Hall.
    destruct old, new. simpl in *. subst. reflexivity.
  - intros ->. unfold field_changes.
    induction tracked as [|lf t IH]; simpl; [reflexivity|].
    rewrite filter_cons. simpl.
    destruct (decide (snd lf new <> snd lf new)); [congruence|]. exact IH.
Qed.

Lemma field_changes_labels_nodup (old new : canon) :
  NoDup (map (fun e => fst (fst e)) (field_changes old new)).
Proof.
  unfold field_changes.
  assert (Hnd : NoDup (map (fun e : string * scalar * scalar => fst (fst e))
                         (map (fun lf => (fst lf, snd lf old, snd lf new)) tracked))).
  { rewrite map_map. simpl. refine (bool_decide_unpack _ _). vm_compute. exact I. }
  revert Hnd.
  generalize (map (fun lf => (fst lf, snd lf old, snd lf new)) tracked).
  induction l as [|e l IH]; simpl; intros Hnd; [constructor|].
  apply NoDup_cons in Hnd as [Hnotin Hnd].
  rewrite filter_cons. destruct (decide _); simpl; [|apply IH, Hnd].
  apply NoDup_cons. split; [|apply IH, Hnd].
  intros Hin. apply Hnotin.
  apply list_elem_of_fmap in Hin as (e' & He' & Hin).
  apply list_elem_of_filter in Hin as [_ Hin].
  apply list_elem_of_fmap. eauto.
Qed.

End Diff.

Section Store.

Lemma alter_known {V} (f : V -> V) (k : string) (m : gmap string V) (x : V) :
  m !! k = Some x -> alter f k m = <[k := f x]> m.
Proof.
  intros H. apply map_eq. intros j. rewrite lookup_alter, lookup_insert.
  case_decide; [subst; rewrite H; reflexivity | reflexivity].
Qed.

(** The loop that stores the differences appends one numbered row per
    entry, in order. *)
Lemma store_differences_spec (id : Z) (ds : list (string * scalar * scalar)) :
  forall w,
    id ∈ state_ids w ->
    NoDup (map (fun e => fst (fst e)) ds) ->
    Forall (fun ch => ch_state ch = id ->
                      ch_info ch ∉ map (fun e : string * scalar * scalar => fst (fst e)) ds)
           (changed_tbl w) ->
    store_differences id (map (fun e => (fst (fst e), snd (fst e), PScalar (snd e))) ds) w
    = Ok (tt, mkworld (domain_tbl w) (state_tbl w)
                (changed_tbl w ++ changed_rows (changed_auto w) id ds)
                (state_auto w) (changed_auto w + Z.of_nat (length ds))
                (clock w) (whois_calls w)
                (journal w ++ map (fun e => InsertChanged id (fst (fst e))) ds)).
Proof.
  induction ds as [|[[info old] new] ds IH]; intros w Hid Hnd Hfree; simpl.
  - unfold ret. rewrite !app_nil_r, Z.add_0_r. destruct w; reflexivity.
  - simpl in Hnd. apply NoDup_cons in Hnd as [Hinfo Hnd].
    unfold bindM at 1. unfold lift. simpl.
    unfold bindM at 1. unfold insert_changed at 1.
    rewrite (bool_decide_true _ Hid).
    assert (Hfresh : forallb (fun ch => negb (bool_decide (ch_state ch = id) &&
                                             bool_decide (ch_info ch = info)))
                             (changed_tbl w) = true).
    { apply forallb_forall. intros ch Hch.
      rewrite Forall_forall in Hfree. apply list_elem_of_In in Hch.
      specialize (Hfree ch Hch).
      destruct (decide (ch_state ch = id)) as [E|E].
      - rewrite (bool_decide_false (ch_info ch = info)); [rewrite andb_false_r; reflexivity|].
        intros E'. apply (Hfree E). rewrite E'. simpl. left.
      - rewrite (bool_decide_false _ E). reflexivity. }
    rewrite Hfresh. simpl.
    rewrite IH; clear IH.
    + simpl. f_equal. f_equal. f_equal.
      * rewrite <- app_assoc. reflexivity.
      * lia.
      * rewrite <- app_assoc. reflexivity.
    + exact Hid.
    + exact Hnd.
    + simpl. apply Forall_app. split.
      * eapply Forall_impl; [exact Hfree|]. intros ch Hch E Hin.
        apply (Hch E). simpl. right. exact Hin.
      * constructor; [|constructor]. simpl. intros _. exact Hinfo.
Qed.

Lemma time_free_fresh (domain : string) (w : world) :
  time_free domain w ->
  forallb (fun st => negb (bool_decide (st_domain st = domain) &&
                           bool_decide (st_check_time st = clock w)))
          (state_tbl w) = true.
Proof.
  intros H. apply forallb_forall. intros st Hst.
  unfold time_free in H. rewrite Forall_forall in H.
  apply list_elem_of_In in Hst. specialize (H st Hst).
  destruct (decide (st_domain st = domain)) as [E|E].
  - rewrite (bool_decide_false (st_check_time st = clock w)) by auto.
    rewrite andb_false_r. reflexivity.
  - rewrite (bool_decide_false _ E). reflexivity.
Qed.

(** Recording a state: the part of [_store_state] after the decision
    to store. *)
Lemma record_state (domain check_data : string) (pd : gmap string pyval)
    (new : canon) (do_dns : bool) (r : domain_row)
    (ds : list (string * scalar * scalar)) (w : world) :
  domain_tbl w !! domain = Some r ->
  canonical pd new ->
  time_free domain w ->
  id_free w ->
  NoDup (map (fun e => fst (fst e)) ds) ->
  (update_checked check_data do_dns domain ;;;
   (do! data := lift (state_params pd) in
    do! new_state_id := insert_state domain check_data data in
    update_last_state (Some new_state_id) domain ;;;
    store_differences new_state_id
      (map (fun e => (fst (fst e), snd (fst e), PScalar (snd e))) ds)) ;;;
   commit ;;;
   ret true) w
  = Ok (true, after_recorded domain check_data new do_dns r ds w).
Proof.
  intros Hrow Hcanon Htime Hid Hnd.
  unfold bindM at 1. unfold update_checked at 1.
  unfold bindM at 1. unfold bindM at 1. unfold lift at 1.
  rewrite (canonical_state_params _ _ Hcanon).
  unfold bindM at 1. unfold insert_state at 1. simpl.
  rewrite (alter_known _ _ _ _ Hrow), lookup_insert_eq.
  rewrite bool_decide_true by eauto.
  rewrite (time_free_fresh _ _ Htime). simpl.
  unfold bindM at 1. unfold update_last_state at 1. simpl.
  rewrite lookup_insert_eq.
  unfold state_ids at 1. simpl.
  rewrite bool_decide_true
    by (rewrite map_app; apply elem_of_app; right; simpl; left).
  rewrite alter_known with (x := checked_row r (last_state r) do_dns (clock w) check_data)
    by apply lookup_insert_eq.
  rewrite insert_insert_eq. simpl.
  rewrite store_differences_spec.
  - unfold bindM, after_recorded, checked_row, commit, ret, log. simpl.
    rewrite <- !app_assoc. reflexivity.
  - unfold state_ids. simpl. rewrite map_app. apply elem_of_app. right. simpl. left.
  - exact Hnd.
  - simpl. eapply Forall_impl; [exact Hid|]. intros ch Hne E. congruence.
Qed.

(** [_store_state] when the domain has a previous state. *)
Lemma _store_state_previous (domain check_data : string) (pd : gmap string pyval)
    (new : canon) (do_dns : bool) (r : domain_row) (last : Z) (prev : state_row)
    (w : world) :
  domain_tbl w !! domain = Some r ->
  last_state r = Some last ->
  find (fun st => bool_decide (st_id st = last)) (state_tbl w) = Some prev ->
  canonical pd new ->
  (st_data prev <> new -> time_free domain w /\ id_free w) ->
  _store_state domain check_data pd do_dns w
  = Ok (if decide (st_data prev = new)
        then (false, after_unchanged domain check_data do_dns r w)
        else (true, after_recorded domain check_data new do_dns r
                      (field_changes (st_data prev) new) w)).
Proof.
  intros Hrow Hlast Hfind Hcanon Hkeys.
  unfold _store_state.
  unfold bindM at 1. unfold select_domain at 1. rewrite Hrow.
  destruct r as [ls ac dd lc raw]. simpl in Hlast. subst ls.
  unfold bindM at 1. unfold bindM at 1. unfold select_state at 1. rewrite Hfind.
  unfold lift at 1. rewrite (find_differences_spec prev pd new Hcanon).
  cbv zeta. simpl fst. simpl snd.
  destruct (decide (st_data prev = new)) as [E|E].
  - rewrite bool_decide_false
      by (intros Hc; apply Hc; apply field_changes_nil; exact E).
    unfold bindM, update_checked, ret, commit, log. simpl.
    rewrite (alter_known _ _ _ _ Hrow).
    unfold after_unchanged, checked_row. simpl.
    rewrite <- app_assoc. reflexivity.
  - rewrite bool_decide_true
      by (intros Hc; apply E; apply field_changes_nil; exact Hc).
    destruct (Hkeys E) as [Htime Hid].
    apply record_state; auto using field_changes_labels_nodup.
Qed.

(** [_store_state] when the domain has no previous state. *)
Lemma _store_state_initial (domain check_data : string) (pd : gmap string pyval)
    (new : canon) (do_dns : bool) (r : domain_row) (w : world) :
  domain_tbl w !! domain = Some r ->
  last_state r = None ->
  canonical pd new ->
  time_free domain w ->
  _store_state domain check_data pd do_dns w
  = Ok (true, after_recorded domain check_data new do_dns r [] w).
Proof.
  intros Hrow Hlast Hcanon Htime.
  unfold _store_state.
  unfold bindM at 1. unfold select_domain at 1. rewrite Hrow.
  destruct r as [ls ac dd lc raw]. simpl in Hlast. subst ls.
  unfold bindM at 1. unfold ret at 1. cbv zeta. simpl fst. simpl snd.
  unfold bindM at 1. unfold update_checked at 1.
  unfold bindM at 1. unfold bindM at 1. unfold lift at 1.
  rewrite (canonical_state_params _ _ Hcanon).
  unfold bindM at 1. unfold insert_state at 1. simpl.
  rewrite (alter_known _ _ _ _ Hrow), lookup_insert_eq.
  rewrite bool_decide_true by eauto.
  rewrite (time_free_fresh _ _ Htime). simpl.
  unfold bindM at 1. unfold update_last_state at 1. simpl.
  rewrite lookup_insert_eq.
  unfold state_ids at 1. simpl.
  rewrite bool_decide_true
    by (rewrite map_app; apply elem_of_app; right; simpl; left).
  rewrite alter_known with (x := checked_row (mkdomain None ac dd lc raw) None do_dns (clock w) check_data)
    by apply lookup_insert_eq.
  rewrite insert_insert_eq. simpl.
  unfold bindM, ret, commit, log, after_recorded, checked_row. simpl.
  rewrite !app_nil_r, Z.add_0_r, <- !app_assoc. reflexivity.
Qed.

End Store.

Lemma canonical_parsed_of (c : canon) : canonical (parsed_of c) c.
Proof. unfold canonical, columns. repeat constructor. Qed.

(** C4. A check of a domain whose last recorded State equals the canonical
    record field by field returns false, adds no State and no ChangedField
    row and leaves [last_state] as it was, and still sets [cur_raw_text],
    [last_checked] and [do_dns] of the Domain row; it executes the update
    of the Domain row and the commit only. *)
Theorem unchanged_check_updates_domain_only
    (domain check_data : string) (pd : gmap string pyval) (do_dns : bool)
    (r : domain_row) (last : Z) (prev : state_row) (w : world)
    (Hrow : domain_tbl w !! domain = Some r)
    (Hlast : last_state r = Some last)
    (Hprev : select_state last w = Ok (Some prev, w))
    (Hsame : canonical pd (st_data prev)) :
  exists w',
    _store_state domain check_data pd do_dns w = Ok (false, w')
    /\ state_tbl w' = state_tbl w
    /\ changed_tbl w' = changed_tbl w
    /\ domain_tbl w'
       = <[domain := mkdomain (Some last) (active_checks r) do_dns
                              (Some (clock w)) (Some check_data)]> (domain_tbl w)
    /\ journal w' = journal w ++ [UpdateChecked domain; Commit].
Proof.
  injection Hprev as Hfind.
  exists (after_unchanged domain check_data do_dns r w).
  rewrite (_store_state_previous domain check_data pd (st_data prev) do_dns r last prev w)
    by (auto; congruence).
  destruct (decide (st_data prev = st_data prev)); [|congruence].
  unfold after_unchanged, checked_row. simpl. rewrite Hlast. auto.
Qed.

(** C5. A check of a domain for which no State is recorded stores the
    canonical record, whatever it holds: it returns true, appends one State
    row with the next id, the current time, the raw text and the record,
    points [last_state] at it, and adds no ChangedField row. *)
Theorem first_observation_is_recorded
    (domain check_data : string) (pd : gmap string pyval) (c : canon)
    (do_dns : bool) (r : domain_row) (w : world)
    (Hrow : domain_tbl w !! domain = Some r)
    (Hlast : last_state r = None)
    (Hnone : Forall (fun st => st_domain st <> domain) (state_tbl w))
    (Hcanon : canonical pd c) :
  exists w',
    _store_state domain check_data pd do_dns w = Ok (true, w')
    /\ state_tbl w'
       = state_tbl w ++ [mkstate (state_auto w) domain (clock w) check_data c]
    /\ changed_tbl w' = changed_tbl w
    /\ domain_tbl w'
       = <[domain := mkdomain (Some (state_auto w)) (active_checks r) do_dns
                              (Some (clock w)) (Some check_data)]> (domain_tbl w).
Proof.
  exists (after_recorded domain check_data c do_dns r [] w).
  rewrite (_store_state_initial domain check_data pd c do_dns r w); auto.
  - unfold after_recorded, checked_row. simpl. rewrite app_nil_r. auto.
  - unfold time_free. eapply Forall_impl; [exact Hnone|]. intros st Hne E. congruence.
Qed.

(** C6. With a previous State, the diff runs over the eighteen tracked
    fields in their declared order and compares the old and the new value
    of each for equality. The check reports a change exactly when some
    tracked field differs (that is, when the records differ), and the
    ChangedField rows it appends are, in that same order, the label, the old
    value and the new value of each differing field. *)
Theorem diff_follows_declared_fields
    (domain check_data : string) (pd : gmap string pyval) (new : canon)
    (do_dns : bool) (r : domain_row) (last : Z) (prev : state_row) (w : world)
    (Hrow : domain_tbl w !! domain = Some r)
    (Hlast : last_state r = Some last)
    (Hprev : select_state last w = Ok (Some prev, w))
    (Hcanon : canonical pd new)
    (Htime : time_free domain w)
    (Hid : id_free w) :
  map fst datapoints
  = ["registrar"; "whois_server"; "referral_url"; "updated_date"; "creation_date";
     "expiration_date"; "name_servers"; "status"; "emails"; "dnssec"; "name"; "org";
     "address"; "city"; "state"; "zipcode"; "ip"; "mx"]
  /\ map snd datapoints = map fst tracked
  /\ map fst datapoints = map fst (columns new)
  /\ map (fun lf => snd lf new) tracked = map snd (columns new)
  /\ find_differences (Some prev) pd datapoints false []
     = Ok (bool_decide (Exists (fun lf => snd lf (st_data prev) <> snd lf new) tracked),
           map (fun e => (fst (fst e), snd (fst e), PScalar (snd e)))
               (field_changes (st_data prev) new))
  /\ (Exists (fun lf => snd lf (st_data prev) <> snd lf new) tracked
      <-> st_data prev <> new)
  /\ exists w',
       _store_state domain check_data pd do_dns w
       = Ok (bool_decide (Exists (fun lf => snd lf (st_data prev) <> snd lf new) tracked), w')
       /\ changed_tbl w'
          = changed_tbl w ++ changed_rows (changed_auto w) (state_auto w)
                                          (field_changes (st_data prev) new).
Proof.
  injection Hprev as Hfind.
  assert (Hex : Exists (fun lf => snd lf (st_data prev) <> snd lf new) tracked
                <-> st_data prev <> new).
  { rewrite <- field_changes_nil. unfold field_changes.
    generalize tracked. intros t. induction t as [|lf t IH]; simpl.
    - rewrite Exists_nil. tauto.
    - rewrite Exists_cons, filter_cons. simpl.
      destruct (decide (snd lf (st_data prev) <> snd lf new)); [|tauto].
      split; [discriminate | auto]. }
  assert (Hb : bool_decide (field_changes (st_data prev) new <> [])
               = bool_decide (Exists (fun lf => snd lf (st_data prev) <> snd lf new) tracked)).
  { apply bool_decide_ext. rewrite Hex, field_changes_nil. tauto. }
  split; [reflexivity|]. split; [reflexivity|]. split; [reflexivity|].
  split; [reflexivity|].
  split; [rewrite <- Hb; apply find_differences_spec, Hcanon|].
  split; [exact Hex|].
  rewrite (_store_state_previous domain check_data pd new do_dns r last prev w)
    by auto.
  destruct (decide (st_data prev = new)) as [E|E].
  - exists (after_unchanged domain check_data do_dns r w). split.
    + rewrite bool_decide_false by (rewrite Hex; tauto). reflexivity.
    + apply field_changes_nil in E. rewrite E. simpl. rewrite app_nil_r. reflexivity.
  - eexists. split.
    + rewrite bool_decide_true by (rewrite Hex; exact E). reflexivity.
    + reflexivity.
Qed.

Lemma unchanged_check_updates_domain_only_witness :
  exists w',
    _store_state "example.com" "raw text, again" (parsed_of record0) false store_one
    = Ok (false, w')
    /\ state_tbl w' = state_tbl store_one
    /\ changed_tbl w' = changed_tbl store_one.
Proof.
  destruct (unchanged_check_updates_domain_only
              "example.com" "raw text, again" (parsed_of record0) false
              (mkdomain (Some 1) true false (Some 1000) (Some "raw text")) 1
              (mkstate 1 "example.com" 1000 "raw text" record0) store_one)
    as (w' & H1 & H2 & H3 & _).
  - reflexivity.
  - reflexivity.
  - reflexivity.
  - apply canonical_parsed_of.
  - exists w'. auto.
Defined.

Lemma first_observation_is_recorded_witness :
  exists w',
    _store_state "example.com" "raw text" (parsed_of record0) false store_new
    = Ok (true, w')
    /\ state_tbl w' = [mkstate 1 "example.com" 1000 "raw text" record0]
    /\ changed_tbl w' = [].
Proof.
  destruct (first_observation_is_recorded
              "example.com" "raw text" (parsed_of record0) record0 false
              (mkdomain None true true None None) store_new)
    as (w' & H1 & H2 & H3 & _).
  - reflexivity.
  - reflexivity.
  - constructor.
  - apply canonical_parsed_of.
  - exists w'. auto.
Defined.

Lemma diff_follows_declared_fields_witness :
  exists w',
    _store_state "example.com" "new raw text" (parsed_of record1) true store_one
    = Ok (true, w')
    /\ changed_tbl w'
       = [ mkchanged 1 2 "Registrar" (SStr "Example Registrar, Inc.") (SStr "Other Registrar");
           mkchanged 2 2 "Updated Date" (SDate (mkdt 2021 1 2 3 4 5 0 None))
                                         (SDate (mkdt 2022 6 7 8 9 10 0 None));
           mkchanged 3 2 "IP Address" (SStr disabled) (SStr "192.0.2.1");
           mkchanged 4 2 "MX Addresses" (SStr disabled) (SStr "") ].
Proof.
  destruct (diff_follows_declared_fields
              "example.com" "new raw text" (parsed_of record1) record1 true
              (mkdomain (Some 1) true false (Some 1000) (Some "raw text")) 1
              (mkstate 1 "example.com" 1000 "raw text" record0) store_one)
    as (_ & _ & _ & _ & _ & _ & w' & H1 & H2).
  - reflexivity.
  - reflexivity.
  - reflexivity.
  - apply canonical_parsed_of.
  - repeat constructor. simpl. intros _. discriminate.
  - constructor.
  - exists w'. split; [exact H1 | exact H2].
Defined.

(** ** DNS placeholder *)

Section Dns.

Lemma list_ascii_append (a b : string) :
  list_ascii_of_string (a +:+ b) = list_ascii_of_string a ++ list_ascii_of_string b.
Proof. induction a as [|c a IH]; simpl; [reflexivity|]. rewrite IH. reflexivity. Qed.

(** A character of a joined string comes from the separator or from an
    element. *)
Lemma join_chars (sep : string) (l : list string) (c : ascii) :
  c ∈ list_ascii_of_string (join sep l) ->
  c ∈ list_ascii_of_string sep \/ exists x, x ∈ l /\ c ∈ list_ascii_of_string x.
Proof.
  induction l as [|x l IH]; simpl.
  - intros H. apply elem_of_nil in H. contradiction.
  - destruct l as [|y l].
    + intros H. right. exists x. split; [left | exact H].
    + rewrite !list_ascii_append, !elem_of_app. intros [H|[H|H]].
      * right. exists x. split; [left | exact H].
      * left. exact H.
      * destruct (IH H) as [H'|(z & Hz & Hc)]; [left; exact H'|].
        right. exists z. split; [right; exact Hz | exact Hc].
Qed.

(** The characters of the first element are in the joined string. *)
Lemma join_head_chars (sep : string) (x : string) (l : list string) (c : ascii) :
  c ∈ list_ascii_of_string x -> c ∈ list_ascii_of_string (join sep (x :: l)).
Proof.
  intros H. simpl. destruct l as [|y l]; [exact H|].
  rewrite list_ascii_append, elem_of_app. left. exact H.
Qed.

Lemma sorted_set_elem (l : list string) (x : string) : x ∈ sorted_set l <-> x ∈ l.
Proof.
  unfold sorted_set, sorted. rewrite merge_sort_Permutation. apply elem_of_remove_dups.
Qed.

Lemma lookup_into_addresses (a : answer) (acc : list string) :
  address_answer a = true ->
  Forall (fun s => ip_text s = true) acc ->
  exists ips, lookup_into address_of a acc = Ok ips
              /\ Forall (fun s => ip_text s = true) ips.
Proof.
  destruct a as [rrset| |]; simpl; intros Ha Hacc; [|eauto|discriminate].
  assert (H : exists found, for_each address_of rrset = Ok found
                            /\ Forall (fun s => ip_text s = true) found).
  { induction rrset as [|r rrset IH]; simpl; [eauto|].
    simpl in Ha. apply andb_prop in Ha as [Hr Ha].
    destruct r as [s|]; [|discriminate]. simpl.
    destruct (IH Ha) as (found & -> & Hf). simpl. eauto. }
  destruct H as (found & -> & Hf). simpl. eexists. split; [reflexivity|].
  apply Forall_app. auto.
Qed.

Lemma lookup_into_exchanges (a : answer) :
  mx_answer a = true ->
  exists mx, lookup_into mx_of a [] = Ok mx
             /\ Forall (fun s => "/"%char ∈ list_ascii_of_string s) mx.
Proof.
  destruct a as [rrset| |]; simpl; intros Ha; [|eauto|discriminate].
  assert (H : exists found, for_each mx_of rrset = Ok found
                            /\ Forall (fun s => "/"%char ∈ list_ascii_of_string s) found).
  { induction rrset as [|r rrset IH]; simpl; [eauto|].
    simpl in Ha. destruct r as [|pref exch]; [discriminate|]. simpl.
    destruct (IH Ha) as (found & -> & Hf). simpl. eexists. split; [reflexivity|].
    constructor; [|exact Hf].
    rewrite !list_ascii_append, !elem_of_app. right. left. simpl. left. }
  destruct H as (found & -> & Hf). simpl. eauto.
Qed.

(** No joined list of addresses is the placeholder. *)
Lemma addresses_not_disabled (ips : list string) :
  Forall (fun s => ip_text s = true) ips ->
  join ", " (sorted_set ips) <> disabled.
Proof.
  intros Hips Heq.
  assert (Hparen : "("%char ∈ list_ascii_of_string (join ", " (sorted_set ips))).
  { rewrite Heq. simpl. left. }
  apply join_chars in Hparen as [H|(x & Hx & Hc)].
  - simpl in H. repeat (apply elem_of_cons in H as [H|H]; [discriminate|]).
    apply elem_of_nil in H. exact H.
  - apply (proj1 (sorted_set_elem _ _)) in Hx. rewrite Forall_forall in Hips.
    specialize (Hips x Hx). unfold ip_text in Hips.
    rewrite forallb_forall in Hips. apply list_elem_of_In in Hc.
    specialize (Hips _ Hc). discriminate.
Qed.

(** No joined list of exchanges is the placeholder. *)
Lemma exchanges_not_disabled (mx : list string) :
  Forall (fun s => "/"%char ∈ list_ascii_of_string s) mx ->
  join ", " (sorted_set mx) <> disabled.
Proof.
  intros Hmx Heq.
  destruct (sorted_set mx) as [|x l] eqn:E; [discriminate|].
  assert (Hx : x ∈ mx) by (apply (proj1 (sorted_set_elem mx x)); rewrite E; left).
  rewrite Forall_forall in Hmx. specialize (Hmx x Hx).
  apply (join_head_chars ", " x l) in Hmx. rewrite Heq in Hmx.
  simpl in Hmx. repeat (apply elem_of_cons in Hmx as [Hmx|Hmx]; [discriminate|]).
  apply elem_of_nil in Hmx. exact Hmx.
Qed.

Lemma _inject_dns_lookups_spec (query : string -> rdtype -> answer)
    (domain : string) (pd : gmap string pyval) :
  address_answer (query domain A) = true ->
  address_answer (query domain AAAA) = true ->
  mx_answer (query domain MX) = true ->
  exists ip mx,
    _inject_dns_lookups query domain pd
    = Ok (<["mx" := PStr mx]> (<["ip" := PStr ip]> pd))
    /\ ip <> disabled /\ mx <> disabled.
Proof.
  intros HA HAAAA HMX. unfold _inject_dns_lookups.
  destruct (lookup_into_addresses _ [] HA (Forall_nil_2 _)) as (ips1 & -> & H1). simpl.
  destruct (lookup_into_addresses _ ips1 HAAAA H1) as (ips & -> & H2). simpl.
  destruct (lookup_into_exchanges _ HMX) as (mx & -> & H3). simpl.
  eexists _, _. split; [reflexivity|].
  split; [apply addresses_not_disabled, H2 | apply exchanges_not_disabled, H3].
Qed.

Lemma changed_rows_elem (next state : Z) (ds : list (string * scalar * scalar))
    (info : string) (old new : scalar) :
  (info, old, new) ∈ ds ->
  exists n, mkchanged n state info old new ∈ changed_rows next state ds.
Proof.
  revert next. induction ds as [|[[i o] n'] ds IH]; intros next H.
  - apply elem_of_nil in H. contradiction.
  - apply elem_of_cons in H as [[= <- <- <-]|H]; simpl.
    + exists next. left.
    + destruct (IH (next + 1) H) as [n Hn]. exists n. right. exact Hn.
Qed.

End Dns.

(** C9. When DNS lookups are skipped, [ip] and [mx] are both set to the
    placeholder ["(lookups disabled)"]. What the lookups produce from
    answers of a resolver (addresses in presentation format, exchanges with
    their preference, or no answer at all) is never the placeholder. Hence
    a check with lookups, of a domain whose last State holds the
    placeholder, reports a change and records a ChangedField row for the IP
    addresses and one for the MX addresses. *)
Theorem disabled_placeholder_registers_change
    (query : string -> rdtype -> answer)
    (domain check_data : string) (pd : gmap string pyval)
    (r : domain_row) (last : Z) (prev : state_row) (w : world)
    (HA : address_answer (query domain A) = true)
    (HAAAA : address_answer (query domain AAAA) = true)
    (HMX : mx_answer (query domain MX) = true)
    (Hrow : domain_tbl w !! domain = Some r)
    (Hlast : last_state r = Some last)
    (Hprev : select_state last w = Ok (Some prev, w))
    (Hip : c_ip (st_data prev) = SStr disabled)
    (Hmx : c_mx (st_data prev) = SStr disabled)
    (Htime : time_free domain w)
    (Hid : id_free w) :
  _inject_dns_placeholder pd !! "ip" = Some (PStr "(lookups disabled)")
  /\ _inject_dns_placeholder pd !! "mx" = Some (PStr "(lookups disabled)")
  /\ disabled = "(lookups disabled)"
  /\ exists pd',
       _inject_dns_lookups query domain pd = Ok pd'
       /\ forall new, canonical pd' new ->
            c_ip new <> SStr disabled
            /\ c_mx new <> SStr disabled
            /\ exists w' n1 n2,
                 _store_state domain check_data pd' true w = Ok (true, w')
                 /\ mkchanged n1 (state_auto w) "IP Address" (SStr disabled) (c_ip new)
                    ∈ changed_tbl w'
                 /\ mkchanged n2 (state_auto w) "MX Addresses" (SStr disabled) (c_mx new)
                    ∈ changed_tbl w'.
Proof.
  injection Hprev as Hfind.
  split; [unfold _inject_dns_placeholder;
          rewrite lookup_insert_ne, lookup_insert_eq by discriminate; reflexivity|].
  split; [unfold _inject_dns_placeholder; rewrite lookup_insert_eq; reflexivity|].
  split; [reflexivity|].
  destruct (_inject_dns_lookups_spec query domain pd HA HAAAA HMX)
    as (ip & mx & Hinj & Hipne & Hmxne).
  eexists. split; [exact Hinj|]. intros new Hcanon.
  assert (Hnew : c_ip new = SStr ip /\ c_mx new = SStr mx).
  { unfold canonical in Hcanon. rewrite Forall_forall in Hcanon. split.
    - assert (Hin : ("ip", c_ip new) ∈ columns new) by (unfold columns; do 16 right; left).
      specialize (Hcanon _ Hin). simpl in Hcanon.
      rewrite lookup_insert_ne, lookup_insert_eq in Hcanon by discriminate.
      unfold PStr in Hcanon. congruence.
    - assert (Hin : ("mx", c_mx new) ∈ columns new) by (unfold columns; do 17 right; left).
      specialize (Hcanon _ Hin). simpl in Hcanon.
      rewrite lookup_insert_eq in Hcanon. unfold PStr in Hcanon. congruence. }
  destruct Hnew as [Hipn Hmxn].
  assert (Hipd : c_ip new <> SStr disabled) by (rewrite Hipn; congruence).
  assert (Hmxd : c_mx new <> SStr disabled) by (rewrite Hmxn; congruence).
  split; [exact Hipd|]. split; [exact Hmxd|].
  assert (Hdiff : st_data prev <> new) by (intros <-; congruence).
  rewrite (_store_state_previous domain check_data _ new true r last prev w) by auto.
  destruct (decide (st_data prev = new)); [contradiction|].
  assert (Hc1 : ("IP Address", SStr disabled, c_ip new) ∈ field_changes (st_data prev) new).
  { unfold field_changes. apply list_elem_of_filter. split; [simpl; congruence|].
    apply list_elem_of_fmap. exists ("IP Address", c_ip). simpl. rewrite Hip.
    split; [reflexivity|]. unfold tracked. do 16 right. left. }
  assert (Hc2 : ("MX Addresses", SStr disabled, c_mx new) ∈ field_changes (st_data prev) new).
  { unfold field_changes. apply list_elem_of_filter. split; [simpl; congruence|].
    apply list_elem_of_fmap. exists ("MX Addresses", c_mx). simpl. rewrite Hmx.
    split; [reflexivity|]. unfold tracked. do 17 right. left. }
  destruct (changed_rows_elem (changed_auto w) (state_auto w) _ _ _ _ Hc1) as [n1 Hn1].
  destruct (changed_rows_elem (changed_auto w) (state_auto w) _ _ _ _ Hc2) as [n2 Hn2].
  eexists _, n1, n2. split; [reflexivity|].
  unfold after_recorded. simpl. rewrite !elem_of_app. auto.
Qed.

Example resolver0_lookups (pd : gmap string pyval) :
  _inject_dns_lookups resolver0 "example.com" pd
  = Ok (<["mx" := PStr ""]> (<["ip" := PStr "192.0.2.1"]> pd)).
Proof. reflexivity. Qed.

Lemma disabled_placeholder_registers_change_witness :
  exists pd' w' n1 n2,
    _inject_dns_lookups resolver0 "example.com" (parsed_of record0) = Ok pd'
    /\ _store_state "example.com" "raw text" pd' true store_one = Ok (true, w')
    /\ mkchanged n1 2 "IP Address" (SStr disabled) (SStr "192.0.2.1") ∈ changed_tbl w'
    /\ mkchanged n2 2 "MX Addresses" (SStr disabled) (SStr "") ∈ changed_tbl w'.
Proof.
  destruct (disabled_placeholder_registers_change resolver0
              "example.com" "raw text" (parsed_of record0)
              (mkdomain (Some 1) true false (Some 1000) (Some "raw text")) 1
              (mkstate 1 "example.com" 1000 "raw text" record0) store_one)
    as (_ & _ & _ & pd' & Hinj & Hstore); try reflexivity.
  - repeat constructor. simpl. intros _. discriminate.
  - constructor.
  - destruct (Hstore record2) as (_ & _ & w' & n1 & n2 & H).
    + rewrite resolver0_lookups in Hinj.
      rewrite <- (f_equal (fun res => match res with Ok x => x | Raise _ => pd' end) Hinj).
      refine (bool_decide_unpack _ _). vm_compute. exact I.
    + exists pd', w', n1, n2. split; [exact Hinj | exact H].
Defined.

(** ** Fetching with retries *)

Section Fetch.

Variable whois_lookup : string -> nat -> string.
Variable self : app.

Lemma retry_S (fuel : nat) (domain : string) (attempts : Z) (check_data : option string) :
  retry whois_lookup self (S fuel) domain attempts check_data
  = if attempts <? max_retries self
    then do! text := client_lookup whois_lookup domain in
         if (attempts + 1 <? max_retries self) && comm_error text
         then sleep (delay_between_domains self) ;;;
              retry whois_lookup self fuel domain (attempts + 1) (Some text)
         else ret (Some text)
    else ret check_data.
Proof. reflexivity. Qed.

Lemma retry_all_fail (domain : string) :
  0 <= delay_between_domains self ->
  forall (f : nat) (attempts : Z) (check_data : option string) (w : world),
    attempts + Z.of_nat (S f) = max_retries self ->
    (forall k, (k < S f)%nat ->
               comm_error (whois_lookup domain (whois_calls w + k)) = true) ->
    retry whois_lookup self (S f) domain attempts check_data w
    = Ok (Some (whois_lookup domain (whois_calls w + f)),
          after_retries (S f) (delay_between_domains self) w).
Proof.
  intros Hdelay. induction f as [|f IH]; intros attempts check_data w Hmax Hfail.
  - rewrite retry_S. destruct (Z.ltb_spec attempts (max_retries self)); [|lia].
    unfold bindM, client_lookup.
    destruct (Z.ltb_spec (attempts + 1) (max_retries self)); [lia|]. simpl.
    unfold ret, after_retries, count_call. simpl.
    rewrite Nat.add_0_r, Z.add_0_r, app_nil_r, Nat.add_1_r. reflexivity.
  - rewrite retry_S.
    destruct (Z.ltb_spec attempts (max_retries self)); [|lia].
    unfold bindM at 1. unfold client_lookup at 1. cbv beta match.
    destruct (Z.ltb_spec (attempts + 1) (max_retries self)); [|lia].
    pose proof (Hfail 0%nat ltac:(lia)) as Hfirst. rewrite Nat.add_0_r in Hfirst.
    rewrite Hfirst. simpl andb. cbv match.
    unfold bindM at 1. unfold sleep at 1.
    destruct (Z.ltb_spec (delay_between_domains self) 0); [lia|].
    change (true && true) with true. cbv beta match. rewrite IH.
    + simpl. unfold after_retries. simpl.
      rewrite Nat.sub_0_r, <- app_assoc. simpl.
      replace (S (whois_calls w + f)) with (whois_calls w + S f)%nat by lia.
      replace (S (whois_calls w + S f)) with (whois_calls w + S (S f))%nat by lia.
      replace (clock w + delay_between_domains self + Z.of_nat f * delay_between_domains self)
        with (clock w + Z.of_nat (S f) * delay_between_domains self) by lia.
      reflexivity.
    + lia.
    + intros k Hk. simpl. replace (S (whois_calls w + k)) with (whois_calls w + S k)%nat by lia.
      apply Hfail. lia.
Qed.

End Fetch.

(** C3 (as amended). When at least one attempt is allowed and every
    attempt reports the communication error, the check of the domain
    returns true after [max_retries] queries and [max_retries - 1] pauses.
    It writes no State and no ChangedField row and leaves every existing
    Domain row as it was. A domain that was not in the store has been added
    before the fetch, with no last state, no [last_checked] and no
    [cur_raw_text]; that insertion is committed. *)
Theorem communication_failure_aborts_check
    (whois_lookup : string -> nat -> string)
    (load : string -> string -> result (gmap string pyval))
    (query : string -> rdtype -> answer)
    (self : app) (domain : string) (w : world)
    (Hretries : 1 <= max_retries self)
    (Hdelay : 0 <= delay_between_domains self)
    (Hfail : forall k, (k < Z.to_nat (max_retries self))%nat ->
                       comm_error (whois_lookup domain (whois_calls w + k)%nat) = true) :
  exists w',
    check_domain whois_lookup load query self domain None w = Ok (true, w')
    /\ state_tbl w' = state_tbl w
    /\ changed_tbl w' = changed_tbl w
    /\ domain_tbl w'
       = match domain_tbl w !! domain with
         | Some _ => domain_tbl w
         | None => <[domain := new_domain_row self]> (domain_tbl w)
         end
    /\ whois_calls w' = (whois_calls w + Z.to_nat (max_retries self))%nat
    /\ journal w'
       = journal w
         ++ match domain_tbl w !! domain with
            | Some _ => []
            | None => [InsertDomain domain; Commit]
            end
         ++ repeat (Sleep (delay_between_domains self)) (Z.to_nat (max_retries self) - 1).
Proof.
  unfold check_domain.
  remember (Z.to_nat (max_retries self)) as n eqn:Hn in *.
  destruct n as [|f]; [lia|].
  unfold bindM at 1. unfold select_domain at 1.
  destruct (domain_tbl w !! domain) as [r|] eqn:Hrow.
  - unfold bindM at 1. unfold ret at 1. unfold bindM at 1.
    rewrite (retry_all_fail whois_lookup self domain Hdelay f 0 None w) by (auto; lia).
    rewrite (Hfail f) by lia.
    eexists. split; [reflexivity|]. unfold after_retries. simpl. auto.
  - unfold bindM at 1. unfold bindM at 1. unfold insert_domain at 1. rewrite Hrow.
    unfold bindM at 1. unfold commit at 1. unfold ret at 1. unfold bindM at 1.
    rewrite (retry_all_fail whois_lookup self domain Hdelay f 0 None) by (auto; lia).
    match goal with
    | |- context [whois_calls (log Commit ?x)] =>
        change (whois_calls (log Commit x)) with (whois_calls w)
    end.
    rewrite (Hfail f) by lia.
    eexists. split; [reflexivity|]. unfold after_retries, new_domain_row. simpl.
    rewrite <- !app_assoc. auto.
Qed.

Lemma communication_failure_aborts_check_witness :
  exists w',
    check_domain always_down no_parse resolver0 app0 "example.com" None store_one
    = Ok (true, w')
    /\ state_tbl w' = state_tbl store_one
    /\ changed_tbl w' = changed_tbl store_one
    /\ domain_tbl w' = domain_tbl store_one.
Proof.
  destruct (communication_failure_aborts_check
              always_down no_parse resolver0 app0 "example.com" store_one)
    as (w' & H1 & H2 & H3 & H4 & _).
  - simpl. lia.
  - simpl. lia.
  - intros k _. reflexivity.
  - exists w'. auto.
Defined.

(** C3 (as stated) fails for a domain that is not in the store yet: the
    aborted check has inserted and committed its Domain row. *)
Lemma failed_check_adds_unknown_domain :
  match check_domain always_down no_parse resolver0 app0 "new.example" None store_empty with
  | Ok (changed, w') =>
      changed = true
      /\ domain_tbl store_empty !! "new.example" = None
      /\ domain_tbl w' !! "new.example" = Some (mkdomain None true true None None)
      /\ journal store_empty = []
      /\ journal w' = [InsertDomain "new.example"; Commit; Sleep 30; Sleep 30]
  | Raise _ => False
  end.
Proof. vm_compute. repeat split. Qed.

(** ** Purging *)

Section Purge.

Lemma filter_all {X} (P : X -> Prop) `{forall x, Decision (P x)} (l : list X) :
  Forall P l -> filter P l = l.
Proof.
  induction 1 as [|x l Hx _ IH]; [reflexivity|].
  rewrite filter_cons. destruct (decide (P x)); [|contradiction]. rewrite IH. reflexivity.
Qed.

(** The ids that [_get_state_ids] returns are those of the states of the
    domain. *)
Lemma _get_state_ids_spec (domain : string) (w : world) :
  exists states,
    _get_state_ids domain w = Ok (states, w)
    /\ map fst states ≡ₚ map st_id (filter (fun st => st_domain st = domain) (state_tbl w)).
Proof.
  eexists. split; [reflexivity|].
  rewrite merge_sort_Permutation, map_map. reflexivity.
Qed.

Lemma purge_domain_spec (domain : string) (r : domain_row) (w : world)
    (states : list (Z * Z)) :
  domain_tbl w !! domain = Some r ->
  pointers_own w ->
  _get_state_ids domain w = Ok (states, w) ->
  map fst states ≡ₚ map st_id (filter (fun st => st_domain st = domain) (state_tbl w)) ->
  purge_domain domain w = Ok (tt, after_purge domain (map fst states) w).
Proof.
  intros Hrow Hown Hget Hperm.
  set (ids := map fst states) in *.
  assert (Hin : forall st, st ∈ state_tbl w -> st_domain st = domain -> st_id st ∈ ids).
  { intros st Hst Hd. rewrite Hperm. apply list_elem_of_fmap. exists st. split; [reflexivity|].
    apply list_elem_of_filter. auto. }
  assert (Hout : forall id, id ∈ ids ->
                   exists st, st ∈ state_tbl w /\ st_id st = id /\ st_domain st = domain).
  { intros id Hid. rewrite Hperm in Hid. apply list_elem_of_fmap in Hid as (st & -> & Hst).
    apply list_elem_of_filter in Hst as [Hd Hst]. eauto. }
  unfold purge_domain.
  unfold bindM at 1. unfold _have_domain at 1. unfold bindM at 1.
  unfold select_domain at 1. rewrite Hrow. unfold ret at 1.
  rewrite bool_decide_true by eauto. change (negb true) with false. cbv match.
  unfold bindM at 1. rewrite Hget. fold ids.
  destruct (decide (states = [])) as [Hstates|Hstates].
  - (* no state: the two deletes are skipped *)
    rewrite bool_decide_false by tauto.
    assert (Hids : ids = []) by (subst ids; rewrite Hstates; reflexivity).
    rewrite Hids in *.
    assert (Hex : existsb (fun st => bool_decide (st_domain st = domain)) (state_tbl w) = false).
    { apply not_true_is_false. intros Hex. apply existsb_exists in Hex as (st & Hst & Hd).
      apply bool_decide_eq_true in Hd. apply list_elem_of_In in Hst.
      specialize (Hin st Hst Hd). apply elem_of_nil in Hin. exact Hin. }
    unfold bindM, ret, update_last_state, delete_domain, commit. simpl.
    rewrite Hex. simpl.
    unfold after_purge, purge_events, log. simpl.
    rewrite delete_alter. case_decide; [|congruence].
    rewrite !filter_all by (apply Forall_forall; intros; apply not_elem_of_nil).
    rewrite <- ?app_assoc. reflexivity.
  - rewrite bool_decide_true by tauto.
    assert (Hne : ids <> []).
    { subst ids. destruct states; [congruence | discriminate]. }
    unfold bindM at 1. unfold delete_changed at 1.
    unfold bindM at 1. unfold update_last_state at 1. cbv match.
    unfold bindM at 1. unfold delete_state at 1.
    match goal with |- context [state_referenced ?x] => set (w2 := x) end.
    assert (Hst2 : state_tbl w2 = state_tbl w) by reflexivity.
    assert (Hch2 : changed_tbl w2 = filter (fun ch => ch_state ch ∉ ids) (changed_tbl w))
      by reflexivity.
    assert (Hdm2 : domain_tbl w2
                   = alter (fun r0 => mkdomain None (active_checks r0) (do_dns r0)
                                               (last_checked r0) (cur_raw_text r0))
                           domain (domain_tbl w)) by reflexivity.
    assert (Hfk : existsb (fun st => state_referenced w2 (st_id st))
                          (filter (fun st => st_id st ∈ ids) (state_tbl w2)) = false).
    { apply not_true_is_false. intros H. apply existsb_exists in H as (st & Hst & Href).
      apply list_elem_of_In, list_elem_of_filter in Hst as [Hid Hst].
      unfold state_referenced in Href. apply orb_prop in Href as [Href|Href].
      - apply existsb_exists in Href as (ch & Hch & Heq).
        apply bool_decide_eq_true in Heq. rewrite Hch2 in Hch.
        apply list_elem_of_In, list_elem_of_filter in Hch as [Hnot _].
        apply Hnot. rewrite Heq. exact Hid.
      - apply bool_decide_eq_true in Href.
        apply map_Exists_lookup in Href as (d' & r' & Hlook & Hlast).
        rewrite Hdm2, lookup_alter in Hlook. case_decide as Hd.
        + destruct (domain_tbl w !! domain); simpl in Hlook; [|discriminate].
          injection Hlook as <-. discriminate.
        + destruct (Hout _ Hid) as (st' & Hst' & Hid' & Hdom').
          apply Hd. rewrite <- Hdom'.
          exact (Hown d' r' (st_id st) st' Hlook Hlast Hst' Hid'). }
    rewrite Hfk. cbv match.
    unfold bindM at 1. unfold delete_domain at 1.
    match goal with |- context [log (DeleteState ids) ?x] => set (w3 := log (DeleteState ids) x) end.
    assert (Hst3 : state_tbl w3 = filter (fun st => st_id st ∉ ids) (state_tbl w)) by reflexivity.
    assert (Hex : existsb (fun st => bool_decide (st_domain st = domain)) (state_tbl w3) = false).
    { apply not_true_is_false. intros H. apply existsb_exists in H as (st & Hst & Hd).
      apply bool_decide_eq_true in Hd. rewrite Hst3 in Hst.
      apply list_elem_of_In, list_elem_of_filter in Hst as [Hnot Hst].
      apply Hnot. apply Hin; assumption. }
    rewrite Hex. simpl andb. cbv match.
    unfold commit, after_purge, purge_events, log. subst w3 w2. simpl.
    rewrite delete_alter. case_decide; [|congruence].
    destruct (decide (ids = [])); [contradiction|].
    rewrite <- ?app_assoc. reflexivity.
Qed.

End Purge.

(** ** First check of an unknown domain *)

Section FirstCheck.

Variable whois_lookup : string -> nat -> string.
Variable load : string -> string -> result (gmap string pyval).
Variable query : string -> rdtype -> answer.
Variable self : app.

Lemma retry_first_answer (domain : string) (w : world) :
  1 <= max_retries self ->
  comm_error (whois_lookup domain (whois_calls w)) = false ->
  retry whois_lookup self (Z.to_nat (max_retries self)) domain 0 None w
  = Ok (Some (whois_lookup domain (whois_calls w)), count_call w).
Proof.
  intros Hmax Hok. destruct (Z.to_nat (max_retries self)) as [|f] eqn:Hf; [lia|].
  rewrite retry_S. destruct (Z.ltb_spec 0 (max_retries self)); [|lia].
  unfold bindM, client_lookup. rewrite Hok, andb_false_r. reflexivity.
Qed.

Lemma check_unknown_domain (domain text : string)
    (raw cleaned pd : gmap string pyval) (c : canon) (w : world) :
  domain_tbl w !! domain = None ->
  Forall (fun st => st_domain st <> domain) (state_tbl w) ->
  1 <= max_retries self ->
  text = whois_lookup domain (whois_calls w) ->
  comm_error text = false ->
  load domain text = Ok raw ->
  _clean_parsed_data raw = Ok cleaned ->
  (if do_dns (new_domain_row self) then _inject_dns_lookups query domain cleaned
   else Ok (_inject_dns_placeholder cleaned)) = Ok pd ->
  canonical pd c ->
  check_domain whois_lookup load query self domain None w
  = Ok (true, after_first_check self domain text c w).
Proof.
  intros Hrow Hnone Hmax Htext Hok Hload Hclean Hdns Hcanon.
  unfold check_domain. unfold bindM at 1. unfold select_domain at 1. rewrite Hrow.
  unfold bindM at 1. unfold bindM at 1. unfold insert_domain at 1. rewrite Hrow.
  unfold bindM at 1. unfold commit at 1. unfold ret at 1. unfold bindM at 1.
  rewrite retry_first_answer; [|exact Hmax|].
  2:{ match goal with
      | |- context [whois_calls (log Commit ?x)] =>
          change (whois_calls (log Commit x)) with (whois_calls w)
      end. rewrite <- Htext. exact Hok. }
  match goal with
  | |- context [whois_calls (log Commit ?x)] =>
      change (whois_calls (log Commit x)) with (whois_calls w)
  end.
  rewrite <- Htext, Hok.
  unfold bindM at 1. unfold lift at 1. rewrite Hload.
  unfold bindM at 1. unfold lift at 1. rewrite Hclean.
  unfold bindM at 1.
  fold (new_domain_row self).
  change (match dns_behavior self with FORCE_NO => false | _ => true end)
    with (do_dns (new_domain_row self)) in *.
  assert (Hinj : (if do_dns (new_domain_row self)
                  then lift (_inject_dns_lookups query domain cleaned)
                  else ret (_inject_dns_placeholder cleaned))
                 = lift (Ok pd)).
  { destruct (do_dns (new_domain_row self)); [rewrite Hdns; reflexivity|].
    injection Hdns as <-. reflexivity. }
  rewrite Hinj. unfold lift at 1.
  apply _store_state_initial.
  - simpl. apply lookup_insert_eq.
  - reflexivity.
  - exact Hcanon.
  - unfold time_free. simpl. eapply Forall_impl; [exact Hnone|]. intros st Hne E. congruence.
Qed.

End FirstCheck.

(** C8. Purging a domain of the store runs, in this order: the deletion of
    the ChangedField rows of every State of the domain, the reset of the
    Domain's [last_state], the deletion of those States, the deletion of the
    Domain row, and one commit (the two deletions by State id are left out
    when the domain has no State). Afterwards the store holds no Domain row
    for the domain, no State of it and no ChangedField row of one of its
    States; and the next check of the domain is a first observation: it
    returns true and adds one State and no ChangedField row. *)
Theorem purge_removes_domain_entirely
    (domain : string) (r : domain_row) (w : world)
    (Hrow : domain_tbl w !! domain = Some r)
    (Hown : pointers_own w) :
  exists states w',
    _get_state_ids domain w = Ok (states, w)
    /\ (forall st, st ∈ state_tbl w -> st_domain st = domain -> st_id st ∈ map fst states)
    /\ purge_domain domain w = Ok (tt, w')
    /\ journal w'
       = journal w
         ++ (if decide (states = [])
             then [UpdateLastState domain None; DeleteDomain domain; Commit]
             else [DeleteChanged (map fst states); UpdateLastState domain None;
                   DeleteState (map fst states); DeleteDomain domain; Commit])
    /\ domain_tbl w' !! domain = None
    /\ Forall (fun st => st_domain st <> domain) (state_tbl w')
    /\ Forall (fun ch => ch_state ch ∉ map fst states) (changed_tbl w')
    /\ forall (whois_lookup : string -> nat -> string)
              (load : string -> string -> result (gmap string pyval))
              (query : string -> rdtype -> answer) (self : app)
              (text : string) (raw cleaned pd : gmap string pyval) (c : canon),
         1 <= max_retries self ->
         text = whois_lookup domain (whois_calls w') ->
         comm_error text = false ->
         load domain text = Ok raw ->
         _clean_parsed_data raw = Ok cleaned ->
         (if do_dns (new_domain_row self) then _inject_dns_lookups query domain cleaned
          else Ok (_inject_dns_placeholder cleaned)) = Ok pd ->
         canonical pd c ->
         exists w'',
           check_domain whois_lookup load query self domain None w' = Ok (true, w'')
           /\ state_tbl w''
              = state_tbl w' ++ [mkstate (state_auto w') domain (clock w') text c]
           /\ changed_tbl w'' = changed_tbl w'
           /\ domain_tbl w'' !! domain
              = Some (mkdomain (Some (state_auto w')) true (do_dns (new_domain_row self))
                               (Some (clock w')) (Some text)).
Proof.
  destruct (_get_state_ids_spec domain w) as (states & Hget & Hperm).
  exists states, (after_purge domain (map fst states) w).
  assert (Hin : forall st, st ∈ state_tbl w -> st_domain st = domain ->
                           st_id st ∈ map fst states).
  { intros st Hst Hd. rewrite Hperm. apply list_elem_of_fmap. exists st.
    split; [reflexivity|]. apply list_elem_of_filter. auto. }
  assert (Hgone : Forall (fun st => st_domain st <> domain)
                         (state_tbl (after_purge domain (map fst states) w))).
  { simpl. apply Forall_forall. intros st Hst Hd.
    apply list_elem_of_filter in Hst as [Hnot Hst]. apply Hnot, Hin; assumption. }
  split; [exact Hget|]. split; [exact Hin|].
  split; [apply (purge_domain_spec domain r); assumption|].
  split.
  { unfold after_purge, purge_events. simpl.
    destruct (decide (states = [])) as [->|Hne]; simpl; [reflexivity|].
    destruct (decide (map fst states = [])) as [E|_]; [|reflexivity].
    destruct states; [congruence | discriminate]. }
  split; [simpl; apply lookup_delete_eq|].
  split; [exact Hgone|].
  split.
  { simpl. apply Forall_forall. intros ch Hch.
    apply list_elem_of_filter in Hch as [Hnot _]. exact Hnot. }
  intros whois_lookup load query self text raw cleaned pd c
         Hmax Htext Hok Hload Hclean Hdns Hcanon.
  eexists. split.
  - apply (check_unknown_domain whois_lookup load query self domain text raw cleaned pd c);
      try assumption.
    simpl. apply lookup_delete_eq.
  - unfold after_first_check, after_recorded, checked_row, new_domain_row. simpl.
    rewrite app_nil_r, lookup_insert_eq. auto.
Qed.

Example store_two_pointers_own : pointers_own store_two.
Proof.
  intros d r id st Hd _ Hst _. simpl in Hd.
  apply lookup_singleton_Some in Hd as [<- _].
  simpl in Hst. repeat (apply elem_of_cons in Hst as [->|Hst]; [reflexivity|]).
  apply elem_of_nil in Hst. contradiction.
Qed.

Example raw0_cleaned : _clean_parsed_data raw0 = Ok cleaned0.
Proof. vm_cast_no_check (eq_refl (Ok cleaned0)). Qed.

Lemma purge_removes_domain_entirely_witness :
  exists w' w'',
    purge_domain "example.com" store_two = Ok (tt, w')
    /\ journal w' = [DeleteChanged [1; 2]; UpdateLastState "example.com" None;
                     DeleteState [1; 2]; DeleteDomain "example.com"; Commit]
    /\ domain_tbl w' !! "example.com" = None
    /\ check_domain whois_up load0 resolver0 app0 "example.com" None w' = Ok (true, w'')
    /\ state_tbl w''
       = state_tbl w' ++ [mkstate (state_auto w') "example.com" (clock w')
                                  "Domain Name: EXAMPLE.COM" record3]
    /\ changed_tbl w'' = changed_tbl w'.
Proof.
  destruct (purge_removes_domain_entirely "example.com"
              (mkdomain (Some 2) true true (Some 2000) (Some "new raw text")) store_two)
    as (states & w' & Hget & _ & Hpurge & Hj & Hdom & _ & _ & Hnext).
  - reflexivity.
  - exact store_two_pointers_own.
  - injection Hget as <-.
    destruct (Hnext whois_up load0 resolver0 app0 "Domain Name: EXAMPLE.COM" raw0 cleaned0
                    (<["mx" := PStr ""]> (<["ip" := PStr "192.0.2.1"]> cleaned0)) record3)
      as (w'' & Hcheck & Hst & Hch & _).
    + simpl. lia.
    + reflexivity.
    + vm_compute. reflexivity.
    + reflexivity.
    + exact raw0_cleaned.
    + apply resolver0_lookups.
    + refine (bool_decide_unpack _ _). vm_compute. exact I.
    + exists w', w''. split; [exact Hpurge|]. split; [exact Hj|]. split; [exact Hdom|].
      split; [exact Hcheck|]. split; [exact Hst | exact Hch].
Defined.

(** ** Reachable stores

    The hypotheses [pointers_own] and [id_free] of the properties above hold
    in every store that the program produces from an empty one. *)

Section Invariant.

Lemma bindM_Ok {T U} (m : M T) (f : T -> M U) (w : world) (res : U * world) :
  bindM m f w = Ok res -> exists x w1, m w = Ok (x, w1) /\ f x w1 = Ok res.
Proof.
  unfold bindM. destruct (m w) as [[x w1]|e]; [eauto | discriminate].
Qed.

Lemma consistent_tables (w w' : world) :
  domain_tbl w' = domain_tbl w -> state_tbl w' = state_tbl w ->
  changed_tbl w' = changed_tbl w -> state_auto w' = state_auto w ->
  consistent w -> consistent w'.
Proof.
  unfold consistent, pointers_own. intros -> -> -> ->. tauto.
Qed.

Lemma consistent_empty : consistent store_empty.
Proof.
  unfold consistent, pointers_own. simpl. repeat split; try constructor.
  - intros d r id H. rewrite lookup_empty in H. discriminate.
  - intros d r id st H. rewrite lookup_empty in H. discriminate.
Qed.

Lemma consistent_pointers (w : world) : consistent w -> pointers_own w /\ id_free w.
Proof.
  intros (_ & _ & Hch & Hown). split; [exact Hown|].
  unfold id_free. eapply Forall_impl; [exact Hch|]. intros ch. simpl. lia.
Qed.

Lemma insert_domain_consistent d b w u w' :
  insert_domain d b w = Ok (u, w') -> consistent w -> consistent w'.
Proof.
  unfold insert_domain. destruct (domain_tbl w !! d) eqn:E; [discriminate|].
  intros [= _ <-] (H1 & H2 & H3 & H4). unfold consistent, pointers_own. simpl.
  repeat split; auto.
  - intros d' r id Hl. rewrite lookup_insert in Hl. case_decide.
    + injection Hl as <-. discriminate.
    + eauto.
  - intros d' r id st Hl. rewrite lookup_insert in Hl. case_decide.
    + injection Hl as <-. discriminate.
    + eauto.
Qed.

Lemma update_checked_consistent cd b d w u w' :
  update_checked cd b d w = Ok (u, w') -> consistent w -> consistent w'.
Proof.
  unfold update_checked. intros [= _ <-] (H1 & H2 & H3 & H4).
  unfold consistent, pointers_own. simpl. repeat split; auto.
  - intros d' r id Hl. rewrite lookup_alter in Hl. case_decide.
    + destruct (domain_tbl w !! d) as [r0|] eqn:E; [|discriminate].
      injection Hl as <-. simpl. subst. eauto.
    + eauto.
  - intros d' r id st Hl. rewrite lookup_alter in Hl. case_decide.
    + destruct (domain_tbl w !! d) as [r0|] eqn:E; [|discriminate].
      injection Hl as <-. simpl. subst. eauto.
    + eauto.
Qed.

(** Recording a state: the insertion followed by the move of the
    pointer. *)
Lemma record_consistent d cd data w id w1 u w2 :
  insert_state d cd data w = Ok (id, w1) ->
  update_last_state (Some id) d w1 = Ok (u, w2) ->
  consistent w -> consistent w2.
Proof.
  unfold insert_state, update_last_state.
  destruct (_ && _); [|discriminate]. intros [= <- <-]. simpl.
  destruct (match domain_tbl w !! d with Some _ => _ | None => true end); [|discriminate].
  intros [= _ <-] (H1 & H2 & H3 & H4).
  unfold consistent, pointers_own. simpl.
  assert (Hlt : forall x, x < state_auto w -> x < state_auto w + 1) by (intros; lia).
  split; [|split; [|split]].
  - apply Forall_app. split; [eapply Forall_impl; eauto|].
    constructor; [simpl; lia | constructor].
  - intros d' r id Hl. rewrite lookup_alter in Hl. case_decide.
    + destruct (domain_tbl w !! d) as [r0|] eqn:E; [|discriminate].
      injection Hl as <-. simpl. intros [= <-]. lia.
    + intros. apply Hlt. eauto.
  - eapply Forall_impl; eauto.
  - intros d' r id st Hl Hlast Hst Hid.
    apply elem_of_app in Hst as [Hst|Hst].
    + rewrite lookup_alter in Hl. case_decide.
      * destruct (domain_tbl w !! d) as [r0|] eqn:E; [|discriminate].
        injection Hl as <-. simpl in Hlast. injection Hlast as <-.
        rewrite Forall_forall in H1. specialize (H1 st Hst). lia.
      * eauto.
    + apply list_elem_of_singleton in Hst as ->. simpl in *. subst id.
      rewrite lookup_alter in Hl. case_decide; [congruence|].
      specialize (H2 _ _ _ Hl Hlast). lia.
Qed.

Lemma insert_changed_consistent s i a b w u w' :
  insert_changed s i a b w = Ok (u, w') -> consistent w -> consistent w'.
Proof.
  unfold insert_changed. destruct (bool_decide (s ∈ state_ids w)) eqn:E; [|discriminate].
  destruct (forallb _ _); [|discriminate]. simpl.
  intros [= _ <-] (H1 & H2 & H3 & H4).
  unfold consistent, pointers_own. simpl. repeat split; auto.
  apply Forall_app. split; [exact H3|]. constructor; [|constructor]. simpl.
  apply bool_decide_eq_true in E. unfold state_ids in E.
  apply list_elem_of_fmap in E as (st & -> & Hst).
  rewrite Forall_forall in H1. auto.
Qed.

Lemma store_differences_consistent id ds :
  forall w u w', store_differences id ds w = Ok (u, w') -> consistent w -> consistent w'.
Proof.
  induction ds as [|[[info old] new] ds IH]; intros w u w'; simpl.
  - intros [= _ <-]. auto.
  - intros H Hc. apply bindM_Ok in H as (v & w1 & Hv & H).
    unfold lift in Hv. destruct (bind_param new); [|discriminate]. injection Hv as <- <-.
    apply bindM_Ok in H as ([] & w2 & Hins & H).
    eauto using insert_changed_consistent.
Qed.

(** Every check that returns leaves the store consistent. *)
Lemma _store_state_consistent domain cd pd b w res w' :
  _store_state domain cd pd b w = Ok (res, w') -> consistent w -> consistent w'.
Proof.
  unfold _store_state. intros H Hc.
  apply bindM_Ok in H as (row & w1 & Hrow & H). injection Hrow as <- <-.
  apply bindM_Ok in H as (found & w1 & Hfound & H).
  assert (Hw1 : w1 = w).
  { destruct (domain_tbl w !! domain) as [[[last|] ? ? ? ?]|].
    - apply bindM_Ok in Hfound as (prev & w0 & Hp & Hf). injection Hp as <- <-.
      unfold lift in Hf. destruct (find_differences _ _ _ _ _); [|discriminate].
      injection Hf as _ <-. reflexivity.
    - injection Hfound as _ <-. reflexivity.
    - injection Hfound as _ <-. reflexivity. }
  subst w1. clear Hfound.
  apply bindM_Ok in H as ([] & w1 & Hupd & H).
  apply update_checked_consistent in Hupd; [|exact Hc].
  apply bindM_Ok in H as ([] & w2 & Hrec & H).
  assert (Hc2 : consistent w2).
  { destruct (fst found).
    - apply bindM_Ok in Hrec as (data & w0 & Hd & Hrec).
      unfold lift in Hd. destruct (state_params pd); [|discriminate]. injection Hd as <- <-.
      apply bindM_Ok in Hrec as (id & w3 & Hins & Hrec).
      apply bindM_Ok in Hrec as ([] & w4 & Hptr & Hrec).
      eapply store_differences_consistent; [exact Hrec|].
      eapply record_consistent; eassumption.
    - injection Hrec as <-. exact Hupd. }
  apply bindM_Ok in H as ([] & w3 & Hcommit & H).
  injection Hcommit as <-. injection H as _ <-.
  revert Hc2. apply consistent_tables; reflexivity.
Qed.

Lemma retry_tables whois_lookup self fuel domain :
  forall attempts cd w res w',
    retry whois_lookup self fuel domain attempts cd w = Ok (res, w') ->
    domain_tbl w' = domain_tbl w /\ state_tbl w' = state_tbl w
    /\ changed_tbl w' = changed_tbl w /\ state_auto w' = state_auto w.
Proof.
  induction fuel as [|fuel IH]; intros attempts cd w res w'; simpl.
  - intros [= _ <-]. auto.
  - destruct (attempts <? max_retries self); [|intros [= _ <-]; auto].
    intros H. apply bindM_Ok in H as (text & w1 & Ht & H). injection Ht as <- <-.
    destruct (_ && _).
    + apply bindM_Ok in H as ([] & w2 & Hs & H). unfold sleep in Hs.
      destruct (_ <? 0); [discriminate|]. injection Hs as <-.
      apply IH in H. exact H.
    + injection H as _ <-. auto.
Qed.

Lemma check_domain_consistent whois_lookup load query self domain cd w res w' :
  check_domain whois_lookup load query self domain cd w = Ok (res, w') ->
  consistent w -> consistent w'.
Proof.
  unfold check_domain. intros H Hc.
  apply bindM_Ok in H as (row & w1 & Hrow & H). injection Hrow as <- <-.
  apply bindM_Ok in H as (dns & w1 & Hdns & H).
  assert (Hc1 : consistent w1).
  { destruct (domain_tbl w !! domain).
    - injection Hdns as _ <-. exact Hc.
    - apply bindM_Ok in Hdns as ([] & w2 & Hins & Hdns).
      apply insert_domain_consistent in Hins; [|exact Hc].
      apply bindM_Ok in Hdns as ([] & w3 & Hcm & Hdns).
      injection Hcm as <-. injection Hdns as _ <-.
      revert Hins. apply consistent_tables; reflexivity. }
  clear Hdns.
  apply bindM_Ok in H as (text & w2 & Hfetch & H).
  assert (Hc2 : consistent w2).
  { destruct cd.
    - injection Hfetch as _ <-. exact Hc1.
    - apply retry_tables in Hfetch as (? & ? & ? & ?).
      revert Hc1. apply consistent_tables; assumption. }
  destruct text as [text|]; [|discriminate].
  destruct (comm_error text); [injection H as _ <-; exact Hc2|].
  apply bindM_Ok in H as (p1 & w3 & H1 & H).
  unfold lift in H1. destruct (load domain text) as [q1|]; [|discriminate].
  injection H1 as <- <-.
  apply bindM_Ok in H as (p2 & w3 & H2 & H).
  unfold lift in H2. destruct (_clean_parsed_data q1) as [q2|]; [|discriminate].
  injection H2 as <- <-.
  apply bindM_Ok in H as (p3 & w3 & H3 & H).
  assert (w3 = w2) as ->.
  { destruct dns.
    - unfold lift in H3. destruct (_inject_dns_lookups _ _ _); [|discriminate].
      injection H3 as _ <-. reflexivity.
    - injection H3 as _ <-. reflexivity. }
  eapply _store_state_consistent; eassumption.
Qed.

Lemma delete_changed_consistent ids w u w' :
  delete_changed ids w = Ok (u, w') -> consistent w -> consistent w'.
Proof.
  unfold delete_changed. intros [= _ <-] (H1 & H2 & H3 & H4).
  unfold consistent, pointers_own. simpl. repeat split; auto.
  rewrite Forall_forall in *. intros ch Hch.
  apply list_elem_of_filter in Hch as [_ Hch]. auto.
Qed.

Lemma reset_last_state_consistent d w u w' :
  update_last_state None d w = Ok (u, w') -> consistent w -> consistent w'.
Proof.
  unfold update_last_state. intros [= _ <-] (H1 & H2 & H3 & H4).
  unfold consistent, pointers_own. simpl. repeat split; auto.
  - intros d' r id Hl. rewrite lookup_alter in Hl. case_decide.
    + destruct (domain_tbl w !! d); [|discriminate]. injection Hl as <-. discriminate.
    + eauto.
  - intros d' r id st Hl. rewrite lookup_alter in Hl. case_decide.
    + destruct (domain_tbl w !! d); [|discriminate]. injection Hl as <-. discriminate.
    + eauto.
Qed.

Lemma delete_state_consistent ids w u w' :
  delete_state ids w = Ok (u, w') -> consistent w -> consistent w'.
Proof.
  unfold delete_state. destruct (existsb _ _); [discriminate|].
  intros [= _ <-] (H1 & H2 & H3 & H4).
  unfold consistent, pointers_own. simpl. repeat split; auto.
  - rewrite Forall_forall in *. intros st Hst.
    apply list_elem_of_filter in Hst as [_ Hst]. auto.
  - intros d r id st Hl Hlast Hst.
    apply list_elem_of_filter in Hst as [_ Hst]. eauto.
Qed.

Lemma delete_domain_consistent d w u w' :
  delete_domain d w = Ok (u, w') -> consistent w -> consistent w'.
Proof.
  unfold delete_domain. destruct (_ && _); [discriminate|].
  intros [= _ <-] (H1 & H2 & H3 & H4).
  unfold consistent, pointers_own. simpl. repeat split; auto.
  - intros d' r id Hl. apply lookup_delete_Some in Hl as [_ Hl]. eauto.
  - intros d' r id st Hl. apply lookup_delete_Some in Hl as [_ Hl]. eauto.
Qed.

Lemma purge_domain_consistent domain w u w' :
  purge_domain domain w = Ok (u, w') -> consistent w -> consistent w'.
Proof.
  unfold purge_domain. intros H Hc.
  apply bindM_Ok in H as (known & w0 & Hk & H).
  apply bindM_Ok in Hk as (row & w00 & Hrow & Hk).
  injection Hrow as <- <-. injection Hk as <- <-.
  destruct (negb _); [discriminate|].
  apply bindM_Ok in H as (states & w0 & Hget & H). injection Hget as <- <-.
  apply bindM_Ok in H as ([] & w1 & H1 & H).
  assert (Hc1 : consistent w1).
  { destruct (bool_decide _); [eauto using delete_changed_consistent|].
    injection H1 as <-. exact Hc. }
  apply bindM_Ok in H as ([] & w2 & H2 & H).
  apply reset_last_state_consistent in H2; [|exact Hc1].
  apply bindM_Ok in H as ([] & w3 & H3 & H).
  assert (Hc3 : consistent w3).
  { destruct (bool_decide _); [eauto using delete_state_consistent|].
    injection H3 as <-. exact H2. }
  apply bindM_Ok in H as ([] & w4 & H4 & H).
  apply delete_domain_consistent in H4; [|exact Hc3].
  injection H as _ <-. revert H4. apply consistent_tables; reflexivity.
Qed.

End Invariant.

(** * Further properties

    Properties of the code beyond the sentences of the specification. *)

(** ** Further properties of the normaliser *)

Section NameServers.

Lemma for_each_lower_entry (l : list string) :
  for_each lower_entry (map SStr l) = Ok (map lower l).
Proof.
  induction l as [|x l IH]; simpl; [reflexivity|]. rewrite IH. reflexivity.
Qed.

(** [sorted(set(l))] depends on the set of elements only. *)
Lemma sorted_set_ext (l1 l2 : list string) :
  (forall x, x ∈ l1 <-> x ∈ l2) -> sorted_set l1 = sorted_set l2.
Proof.
  intros H. unfold sorted_set. apply sorted_of_permutation.
  apply NoDup_Permutation; try apply NoDup_remove_dups.
  intros x. rewrite !elem_of_remove_dups. apply H.
Qed.

Lemma sorted_set_nodup (l : list string) : NoDup (sorted_set l).
Proof.
  unfold sorted_set. rewrite sorted_permutation. apply NoDup_remove_dups.
Qed.

Lemma chars_lower (s : string) : map lower (chars s) = chars (lower s).
Proof. induction s as [|c s IH]; simpl; [reflexivity|]. rewrite IH. reflexivity. Qed.

Lemma chars_length (s : string) : Forall (fun t => String.length t = 1%nat) (chars s).
Proof. induction s as [|c s IH]; simpl; constructor; auto. Qed.

End NameServers.

(** X1. A list of name servers is normalised to the lower-cased names,
    each once, in ascending order, joined with [", "]; two lists with the
    same set of lower-cased names normalise to the same string. *)
Theorem name_servers_canonical (l1 l2 : list string)
    (Hsame : forall x, x ∈ map lower l1 <-> x ∈ map lower l2) :
  clean_name_servers (PList (map SStr l1)) = Ok (join ", " (sorted_set (map lower l1)))
  /\ Sorted String.le (sorted_set (map lower l1))
  /\ NoDup (sorted_set (map lower l1))
  /\ (forall x, x ∈ sorted_set (map lower l1) <-> x ∈ map lower l1)
  /\ clean_name_servers (PList (map SStr l2)) = clean_name_servers (PList (map SStr l1)).
Proof.
  assert (Hc : forall l, clean_name_servers (PList (map SStr l))
                         = Ok (join ", " (sorted_set (map lower l)))).
  { intros l. unfold clean_name_servers. simpl. rewrite for_each_lower_entry. reflexivity. }
  split; [apply Hc|]. split; [apply sorted_is_sorted|]. split; [apply sorted_set_nodup|].
  split; [intros x; apply sorted_set_elem|].
  rewrite !Hc, (sorted_set_ext _ _ Hsame). reflexivity.
Qed.

Lemma name_servers_canonical_witness :
  clean_name_servers (PList (map SStr ["ns2.example."; "ns1.EXAMPLE."; "NS2.example."]))
  = Ok "ns1.example., ns2.example."
  /\ clean_name_servers (PList (map SStr ["ns1.example."; "ns2.example."]))
     = clean_name_servers (PList (map SStr ["ns2.example."; "ns1.EXAMPLE."; "NS2.example."])).
Proof.
  destruct (name_servers_canonical
              ["ns2.example."; "ns1.EXAMPLE."; "NS2.example."]
              ["ns1.example."; "ns2.example."]) as (H1 & _ & _ & _ & H5).
  - intros x.
    change (map lower ["ns2.example."; "ns1.EXAMPLE."; "NS2.example."])
      with ["ns2.example."; "ns1.example."; "ns2.example."].
    change (map lower ["ns1.example."; "ns2.example."])
      with ["ns1.example."; "ns2.example."].
    rewrite !elem_of_cons. tauto.
  - split; [exact H1 | exact H5].
Defined.

(** X2. A single name server handed over as a string is iterated character
    by character: the result lists the distinct lower-cased characters of
    the name, so two names made of the same characters normalise to the
    same string. *)
Theorem single_name_server_split_into_characters (s1 s2 : string)
    (Hsame : forall c, c ∈ chars (lower s1) <-> c ∈ chars (lower s2)) :
  clean_name_servers (PStr s1) = Ok (join ", " (sorted_set (chars (lower s1))))
  /\ Forall (fun t => String.length t = 1%nat) (sorted_set (chars (lower s1)))
  /\ clean_name_servers (PStr s2) = clean_name_servers (PStr s1).
Proof.
  assert (Hc : forall s, clean_name_servers (PStr s)
                         = Ok (join ", " (sorted_set (chars (lower s))))).
  { intros s. unfold clean_name_servers. simpl.
    rewrite for_each_lower_entry, chars_lower. reflexivity. }
  split; [apply Hc|]. split.
  - apply Forall_forall. intros t Ht. apply (proj1 (sorted_set_elem _ _)) in Ht.
    pose proof (chars_length (lower s1)) as Hl. rewrite Forall_forall in Hl. auto.
  - rewrite !Hc, (sorted_set_ext _ _ Hsame). reflexivity.
Qed.

Lemma single_name_server_split_into_characters_witness :
  clean_name_servers (PStr "ns.ab") = Ok "., a, b, n, s"
  /\ clean_name_servers (PStr "ns.ba") = clean_name_servers (PStr "ns.ab").
Proof.
  destruct (single_name_server_split_into_characters "ns.ab" "ns.ba") as (H1 & _ & H3).
  - intros c.
    change (chars (lower "ns.ab")) with ["n"; "s"; "."; "a"; "b"].
    change (chars (lower "ns.ba")) with ["n"; "s"; "."; "b"; "a"].
    rewrite !elem_of_cons. tauto.
  - split; [exact H1 | exact H3].
Defined.

Section StatusSuffix.

Lemma substring_prefix (a b : string) : substring 0 (String.length a) (a +:+ b) = a.
Proof.
  induction a as [|c a IH]; simpl.
  - destruct b; reflexivity.
  - rewrite IH. reflexivity.
Qed.

Lemma substring_whole (a : string) : substring 0 (String.length a) a = a.
Proof. induction a as [|c a IH]; simpl; [reflexivity|]. rewrite IH. reflexivity. Qed.

(** Before a character that is neither a blank nor a line feed, the rest
    of the pattern does not match. *)
Lemma after_status_fails (pos : nat) (c : ascii) (s : string) :
  Ascii.eqb c " " = false -> dot c = true ->
  rmatch after_status finish [("status", (0, pos))%nat] pos (String c s) = None.
Proof.
  intros Hb Hd. unfold after_status. cbn -[Ascii.eqb].
  rewrite Ascii.eqb_sym, Hb.
  unfold dot in Hd. apply negb_true_iff in Hd. destruct s; [|reflexivity].
  change (Ascii.eqb c "010" = false) in Hd. rewrite Hd. reflexivity.
Qed.

(** The lazy [.*?] runs over a plain prefix. *)
Lemma lazy_dot_skips_plain (s tail : string) :
  plain s = true ->
  forall pos,
    rep_lazy dot (fun pos' s' => rmatch after_status finish [("status", (0, pos'))%nat] pos' s')
             pos (s +:+ tail)
    = rep_lazy dot (fun pos' s' => rmatch after_status finish [("status", (0, pos'))%nat] pos' s')
               (pos + String.length s) tail.
Proof.
  induction s as [|c s IH]; intros Hp pos.
  - simpl. rewrite Nat.add_0_r. reflexivity.
  - unfold plain in Hp. simpl in Hp.
    apply andb_prop in Hp as [Hc Hp]. apply andb_prop in Hc as [Hb Hd].
    apply negb_true_iff in Hb.
    change (String c s +:+ tail) with (String c (s +:+ tail)).
    cbn [rep_lazy]. rewrite (after_status_fails pos c _ Hb Hd), Hd.
    rewrite (IH Hp). simpl. rewrite Nat.add_succ_r. reflexivity.
Qed.

(** The status group of any match of the rest of the pattern. *)
Lemma after_status_group (pos : nat) (s : string) (m : caps) :
  rmatch after_status finish [("status", (0, pos))%nat] pos s = Some m ->
  assoc "status" m = Some (0, pos)%nat.
Proof.
  intros H. apply rmatch_from in H as (new & p2 & s2 & Hfin & Hnames).
  injection Hfin as <-.
  rewrite assoc_skip; [reflexivity|].
  eapply Forall_impl; [exact Hnames|]. intros [n' sp] Hn' Heq.
  simpl in Heq. subst n'. simpl in Hn'.
  apply list_elem_of_singleton in Hn'. discriminate.
Qed.

Lemma rep_lazy_now p (k : nat -> string -> option caps) pos s m :
  k pos s = Some m -> rep_lazy p k pos s = Some m.
Proof. intros H. destruct s; simpl; rewrite H; reflexivity. Qed.

(** What the pattern strips from a status that consists of a plain part
    [st] and a [tail] on which the rest of the pattern matches. *)
Lemma clean_status_split (st tail : string) :
  plain st = true ->
  is_Some (rmatch after_status finish [("status", (0, String.length st))%nat]
                  (String.length st) tail) ->
  clean_status (SStr (st +:+ tail)) = Ok st.
Proof.
  intros Hp [m Hm].
  assert (Hre : rmatch status_url_re finish [] 0%nat (st +:+ tail) = Some m).
  { rewrite status_url_re_unfold, (lazy_dot_skips_plain st tail Hp 0).
    apply rep_lazy_now. exact Hm. }
  unfold clean_status, re_match. fold finish. rewrite Hre.
  unfold group. simpl. rewrite (after_status_group _ _ _ Hm).
  rewrite Nat.sub_0_r, substring_prefix. reflexivity.
Qed.

(** The lazy [\S+?] of the URL can run to the end of an unspaced string. *)
Lemma lazy_nonspace_reaches_end (k : nat -> string -> option caps) (s : string) :
  (forall pos, is_Some (k pos EmptyString)) ->
  forallb nonspace (list_ascii_of_string s) = true ->
  forall pos, is_Some (rep_lazy nonspace k pos s).
Proof.
  intros Hend. induction s as [|c s IH]; intros Hns pos; simpl.
  - destruct (Hend pos) as [m ->]. eauto.
  - destruct (k pos (String c s)); [eauto|].
    simpl in Hns. apply andb_prop in Hns as [Hc Hns]. rewrite Hc. apply IH, Hns.
Qed.

Lemma unspaced_cons (s : string) :
  unspaced s = true ->
  exists c s', s = String c s' /\ nonspace c = true
               /\ forallb nonspace (list_ascii_of_string s') = true.
Proof.
  unfold unspaced. destruct s as [|c s']; [discriminate|]. simpl.
  intros H. apply andb_prop in H as [Hc Hs]. eauto.
Qed.

Lemma forallb_nonspace_append (a b : string) :
  forallb nonspace (list_ascii_of_string a) = true ->
  forallb nonspace (list_ascii_of_string b) = true ->
  forallb nonspace (list_ascii_of_string (a +:+ b)) = true.
Proof.
  intros Ha Hb. rewrite list_ascii_append, forallb_app, Ha, Hb. reflexivity.
Qed.

(** A plain string is matched as a whole by the status group. *)
Lemma clean_status_plain (s : string) : plain s = true -> clean_status (SStr s) = Ok s.
Proof.
  intros Hplain.
  assert (H : clean_status (SStr (s +:+ "")) = Ok s).
  { apply clean_status_split; [exact Hplain|]. vm_compute. eauto. }
  assert (E : s +:+ "" = s).
  { clear. induction s as [|c s IH]; [reflexivity|].
    change (String c (s +:+ "") = String c s). f_equal. exact IH. }
  rewrite E in H. exact H.
Qed.

End StatusSuffix.

(** X3. A status without a blank and without a line feed carries no URL
    and is kept whole. *)
Theorem status_without_blank_kept (s : string) (Hplain : plain s = true) :
  clean_status (SStr s) = Ok s.
Proof. exact (clean_status_plain s Hplain). Qed.

Lemma status_without_blank_kept_witness :
  clean_status (SStr "clientTransferProhibited") = Ok "clientTransferProhibited".
Proof. apply status_without_blank_kept. reflexivity. Defined.

(** X4. From a status made of a part without blanks, one blank and a URL
    (["http"] followed by at least one non-blank character), bare or in
    parentheses, the blank and the URL are stripped; a list that holds the
    status both with and without its URL normalises to the status once. *)
Theorem status_url_stripped (st rest : string)
    (Hplain : plain st = true) (Hrest : unspaced rest = true) :
  clean_status (SStr (st +:+ " http" +:+ rest)) = Ok st
  /\ clean_status (SStr (st +:+ " (http" +:+ rest +:+ ")")) = Ok st
  /\ clean_statuses (PList [SStr (st +:+ " http" +:+ rest); SStr st;
                            SStr (st +:+ " (http" +:+ rest +:+ ")")])
     = Ok st.
Proof.
  destruct (unspaced_cons rest Hrest) as (c & rest' & -> & Hc & Hns).
  assert (H1 : clean_status (SStr (st +:+ " http" +:+ String c rest')) = Ok st).
  { change (" http" +:+ String c rest')
      with (String " " (String "h" (String "t" (String "t" (String "p" (String c rest')))))).
    apply clean_status_split; [exact Hplain|].
    unfold after_status. cbn -[nonspace]. rewrite Hc.
    match goal with
    | |- is_Some (match rep_lazy nonspace ?k ?p ?s with _ => _ end) =>
        destruct (lazy_nonspace_reaches_end k s (fun pos => ltac:(vm_compute; eauto)) Hns p)
          as [m ->]
    end. eauto. }
  assert (H2 : clean_status (SStr (st +:+ " (http" +:+ String c rest' +:+ ")")) = Ok st).
  { change (" (http" +:+ String c rest' +:+ ")")
      with (String " " (String "(" (String "h" (String "t" (String "t" (String "p"
             (String c (rest' +:+ ")")))))))).
    apply clean_status_split; [exact Hplain|].
    unfold after_status. cbn -[nonspace]. rewrite Hc.
    match goal with
    | |- is_Some (match match rep_lazy nonspace ?k ?p ?s with _ => _ end with _ => _ end) =>
        destruct (lazy_nonspace_reaches_end k s (fun pos => ltac:(vm_compute; eauto))
                    (forallb_nonspace_append rest' ")" Hns eq_refl) p)
          as [m ->]
    end. eauto. }
  split; [exact H1|]. split; [exact H2|].
  unfold clean_statuses. simpl as_list. cbn [for_each].
  rewrite H1, H2, (clean_status_plain st Hplain). simpl.
  rewrite (sorted_set_ext [st; st; st] [st])
    by (intros x; rewrite !elem_of_cons; tauto).
  reflexivity.
Qed.

Lemma status_url_stripped_witness :
  clean_status (SStr "clientTransferProhibited https://icann.org/epp#clientTransferProhibited")
  = Ok "clientTransferProhibited"
  /\ clean_status (SStr "clientTransferProhibited (https://icann.org/epp#clientTransferProhibited)")
     = Ok "clientTransferProhibited".
Proof.
  destruct (status_url_stripped "clientTransferProhibited"
              "s://icann.org/epp#clientTransferProhibited") as (H1 & H2 & _).
  - reflexivity.
  - reflexivity.
  - split; [exact H1 | exact H2].
Defined.

Section DateStrings.










End DateStrings.



(** ** The normaliser as a whole *)

Section NormaliserFrame.

Lemma bind_Ok {X Y} (r : result X) (f : X -> result Y) (y : Y) :
  Py.bind r f = Ok y -> exists x, r = Ok x /\ f x = Ok y.
Proof. destruct r; simpl; [eauto|discriminate]. Qed.

Lemma datetime_new_naive (y m d h mi s : Z) (dt : datetime) :
  datetime_new y m d h mi s = Ok dt -> microsecond dt = 0 /\ tzinfo dt = None.
Proof.
  unfold datetime_new. destruct (fields_ok _ _ _ _ _ _); [|discriminate].
  intros [= <-]. split; reflexivity.
Qed.

Lemma clean_date_naive (x : scalar) (d : datetime) :
  clean_date x = Ok d -> microsecond d = 0 /\ tzinfo d = None.
Proof.
  destruct x as [|s|d0]; simpl; [discriminate| |].
  - destruct (re_match date_t_re s); [|discriminate].
    intros H. repeat (apply bind_Ok in H as (? & _ & H)).
    eapply datetime_new_naive, H.
  - destruct (tzinfo d0) eqn:Htz.
    + apply datetime_new_naive.
    + intros [= <-]. split; [reflexivity|exact Htz].
Qed.

Lemma for_each_Forall {X Y} (f : X -> result Y) (P : Y -> Prop) (l : list X) :
  (forall x y, f x = Ok y -> P y) ->
  forall ys, for_each f l = Ok ys -> Forall P ys.
Proof.
  intros Hf. induction l as [|x l IH]; simpl; intros ys H.
  - injection H as <-. constructor.
  - apply bind_Ok in H as (y & Hy & H). apply bind_Ok in H as (ys' & Hys & H).
    injection H as <-. constructor; eauto.
Qed.

Lemma py_max_elem (l : list datetime) (m : datetime) : py_max l = Ok m -> m ∈ l.
Proof.
  intros H. destruct (py_max_spec l) as (m' & Hm' & Hin & _).
  - intros ->. discriminate.
  - congruence.
Qed.

Lemma py_min_elem (l : list datetime) (m : datetime) : py_min l = Ok m -> m ∈ l.
Proof.
  intros H. destruct (py_min_spec l) as (m' & Hm' & Hin & _).
  - intros ->. discriminate.
  - congruence.
Qed.

Lemma clean_date_key_spec (pd out : gmap string pyval)
    (kf : string * (list datetime -> result datetime)) :
  (forall l m, snd kf l = Ok m -> m ∈ l) ->
  clean_date_key pd kf = Ok out ->
  is_Some (pd !! fst kf)
  /\ exists d, out = <[fst kf := PDate d]> pd /\ microsecond d = 0 /\ tzinfo d = None.
Proof.
  intros Hsel H. unfold clean_date_key, getitem in H.
  destruct (pd !! fst kf) as [v|] eqn:Hv; [|discriminate]. simpl in H.
  apply bind_Ok in H as (d & Hd & H). injection H as <-.
  split; [eauto|]. exists d. split; [reflexivity|].
  unfold clean_dates in Hd. apply bind_Ok in Hd as (ds & Hds & Hd).
  apply Hsel in Hd.
  apply (for_each_Forall _ (fun d => microsecond d = 0 /\ tzinfo d = None)) in Hds;
    [|apply clean_date_naive].
  rewrite Forall_forall in Hds. apply Hds, Hd.
Qed.

Lemma insert_is_Some {V} (m : gmap string V) (k k' : string) (v : V) :
  is_Some (m !! k) -> (is_Some (<[k := v]> m !! k') <-> is_Some (m !! k')).
Proof.
  intros Hk. destruct (decide (k = k')) as [<-|Hne].
  - rewrite lookup_insert_eq. split; eauto.
  - rewrite lookup_insert_ne by assumption. reflexivity.
Qed.

End NormaliserFrame.

(** X6. When the normaliser returns, it has assigned six keys and no other:
    the three dates hold naive datetimes without microseconds, the name
    servers and the status hold strings, the emails hold no list; every
    other key holds what it held, and no key is added or lost. *)
Theorem normaliser_assigns_six_keys (pd out : gmap string pyval)
    (Hclean : _clean_parsed_data pd = Ok out) :
  (forall k, k ∉ cleaned_keys -> out !! k = pd !! k)
  /\ (forall k, is_Some (out !! k) <-> is_Some (pd !! k))
  /\ whole_second (out !! "updated_date")
  /\ whole_second (out !! "creation_date")
  /\ whole_second (out !! "expiration_date")
  /\ (exists ns, out !! "name_servers" = Some (PStr ns))
  /\ (exists st, out !! "status" = Some (PStr st))
  /\ (exists em, out !! "emails" = Some (PScalar em)).
Proof.
  unfold _clean_parsed_data in Hclean.
  apply bind_Ok in Hclean as (pd3 & Hdates & H).
  unfold date_keys in Hdates. cbn [clean_date_keys] in Hdates.
  apply bind_Ok in Hdates as (pd1 & H1 & Hdates).
  apply bind_Ok in Hdates as (pd2 & H2 & Hdates).
  apply bind_Ok in Hdates as (pd3' & H3 & Hdates).
  injection Hdates as ->.
  apply clean_date_key_spec in H1 as (Hs1 & u & -> & Hu1 & Hu2); [|apply py_max_elem].
  apply clean_date_key_spec in H2 as (Hs2 & c & -> & Hc1 & Hc2); [|apply py_min_elem].
  apply clean_date_key_spec in H3 as (Hs3 & e & -> & He1 & He2); [|apply py_min_elem].
  cbn [fst] in *.
  apply bind_Ok in H as (nsv & Hnsv & H). apply bind_Ok in H as (ns & _ & H).
  apply bind_Ok in H as (stv & Hstv & H). apply bind_Ok in H as (st & _ & H).
  apply bind_Ok in H as (emv & Hemv & H). apply bind_Ok in H as (em & Hem & H).
  injection H as <-.
  unfold getitem in Hnsv, Hstv, Hemv.
  match type of Hnsv with context [?m !! ?k] =>
    assert (Hs4 : is_Some (m !! k)) by (destruct (m !! k); [eauto|discriminate]) end.
  match type of Hstv with context [?m !! ?k] =>
    assert (Hs5 : is_Some (m !! k)) by (destruct (m !! k); [eauto|discriminate]) end.
  match type of Hemv with context [?m !! ?k] =>
    assert (Hs6 : is_Some (m !! k)) by (destruct (m !! k); [eauto|discriminate]) end.
  assert (Hscalar : exists x, em = PScalar x).
  { destruct emv as [x|l]; simpl in Hem.
    - injection Hem as <-. eauto.
    - apply bind_Ok in Hem as (? & _ & Hem). injection Hem as <-. eexists. reflexivity. }
  destruct Hscalar as (x & ->).
  repeat split.
  - intros k Hk. unfold cleaned_keys in Hk.
    rewrite !not_elem_of_cons in Hk. destruct Hk as (? & ? & ? & ? & ? & ? & _).
    rewrite !lookup_insert_ne by congruence. reflexivity.
  - intros Hk. revert Hk.
    rewrite insert_is_Some by exact Hs6. rewrite insert_is_Some by exact Hs5.
    rewrite insert_is_Some by exact Hs4. rewrite insert_is_Some by exact Hs3.
    rewrite insert_is_Some by exact Hs2. rewrite insert_is_Some by exact Hs1. tauto.
  - rewrite insert_is_Some by exact Hs6. rewrite insert_is_Some by exact Hs5.
    rewrite insert_is_Some by exact Hs4. rewrite insert_is_Some by exact Hs3.
    rewrite insert_is_Some by exact Hs2. rewrite insert_is_Some by exact Hs1. tauto.
  - exists u. rewrite !lookup_insert_ne by discriminate. rewrite lookup_insert_eq. auto.
  - exists c. rewrite !lookup_insert_ne by discriminate. rewrite lookup_insert_eq. auto.
  - exists e. rewrite !lookup_insert_ne by discriminate. rewrite lookup_insert_eq. auto.
  - eexists. rewrite !lookup_insert_ne by discriminate. rewrite lookup_insert_eq. reflexivity.
  - eexists. rewrite !lookup_insert_ne by discriminate. rewrite lookup_insert_eq. reflexivity.
  - eexists. rewrite lookup_insert_eq. reflexivity.
Qed.

Lemma normaliser_assigns_six_keys_witness :
  cleaned0 !! "registrar" = raw0 !! "registrar"
  /\ whole_second (cleaned0 !! "updated_date")
  /\ exists em, cleaned0 !! "emails" = Some (PScalar em).
Proof.
  destruct (normaliser_assigns_six_keys raw0 cleaned0 raw0_cleaned)
    as (Hframe & _ & Hu & _ & _ & _ & _ & Hem).
  split; [|split; assumption].
  apply Hframe. unfold cleaned_keys. rewrite !not_elem_of_cons.
  repeat split; try discriminate. apply not_elem_of_nil.
Defined.

Section UnusableDates.

Lemma not_digit_no_match (s : string) :
  starts_with_digit s = false -> re_match date_t_re s = None.
Proof.
  destruct s as [|c s]; [reflexivity|]. simpl. intros Hc.
  unfold re_match, date_t_re. cbn [rmatch Nat.eqb rep]. unfold digit. rewrite Hc.
  reflexivity.
Qed.

Lemma clean_date_key_unusable (pd : gmap string pyval)
    (kf : string * (list datetime -> result datetime)) :
  snd kf [] = Raise ValueError ->
  unusable_date (pd !! fst kf) ->
  clean_date_key pd kf
  = Raise match pd !! fst kf with
          | None => KeyError (fst kf)
          | Some (PScalar SNone) => TypeError
          | Some (PList _) => ValueError
          | Some _ => SystemExit 1
          end.
Proof.
  intros Hempty [H|[H|[H|(s & H & Hs)]]]; unfold clean_date_key, getitem; rewrite H; simpl.
  - reflexivity.
  - reflexivity.
  - unfold clean_dates. simpl. rewrite Hempty. reflexivity.
  - unfold clean_dates. simpl. rewrite (not_digit_no_match s Hs). reflexivity.
Qed.

End UnusableDates.

(** X7. A record in which one of the three dates is missing, is [None], is
    an empty list, or is a string that does not start with a digit is not
    normalised: the normaliser raises. When that date is the updated
    date, which is looked at first, the exception is [KeyError],
    [TypeError], [ValueError] and the exit with status 1, in this order of
    the cases. *)
Theorem unusable_date_aborts (pd : gmap string pyval) (k : string)
    (Hk : k ∈ map fst date_keys)
    (Hbad : unusable_date (pd !! k)) :
  (forall out, _clean_parsed_data pd <> Ok out)
  /\ (k = "updated_date" ->
      _clean_parsed_data pd
      = Raise match pd !! k with
              | None => KeyError "updated_date"
              | Some (PScalar SNone) => TypeError
              | Some (PList _) => ValueError
              | Some _ => SystemExit 1
              end).
Proof.
  split.
  - intros out Hclean. unfold _clean_parsed_data in Hclean.
    apply bind_Ok in Hclean as (pd3 & Hdates & _).
    unfold date_keys in Hdates. cbn [clean_date_keys] in Hdates.
    apply bind_Ok in Hdates as (pd1 & H1 & Hdates).
    apply bind_Ok in Hdates as (pd2 & H2 & Hdates).
    apply bind_Ok in Hdates as (pd3' & H3 & _).
    pose proof H1 as H1'. pose proof H2 as H2'.
    apply clean_date_key_spec in H1' as (_ & u & -> & _); [|apply py_max_elem].
    apply clean_date_key_spec in H2' as (_ & c & -> & _); [|apply py_min_elem].
    cbn [fst] in *.
    unfold date_keys in Hk. cbn [map fst] in Hk.
    rewrite !elem_of_cons in Hk. destruct Hk as [->|[->|[->|Hk]]].
    + rewrite clean_date_key_unusable in H1; [discriminate|reflexivity|exact Hbad].
    + rewrite clean_date_key_unusable in H2; [discriminate|reflexivity|].
      cbn [fst]. rewrite lookup_insert_ne by discriminate. exact Hbad.
    + rewrite clean_date_key_unusable in H3; [discriminate|reflexivity|].
      cbn [fst]. rewrite !lookup_insert_ne by discriminate. exact Hbad.
    + apply elem_of_nil in Hk. exact Hk.
  - intros ->. unfold _clean_parsed_data, date_keys. cbn [clean_date_keys].
    rewrite clean_date_key_unusable; [reflexivity|reflexivity|exact Hbad].
Qed.

Lemma unusable_date_aborts_witness :
  _clean_parsed_data (sample PNone (PStr "a@x")) = Raise TypeError
  /\ _clean_parsed_data (sample (PStr "before Aug-1996") (PStr "a@x")) = Raise (SystemExit 1)
  /\ forall out, _clean_parsed_data (<["expiration_date" := PList []]> raw0) <> Ok out.
Proof.
  split; [|split].
  - refine (proj2 (unusable_date_aborts (sample PNone (PStr "a@x")) "updated_date" _ _) eq_refl).
    + unfold date_keys. cbn [map fst]. constructor.
    + right. left. reflexivity.
  - refine (proj2 (unusable_date_aborts (sample (PStr "before Aug-1996") (PStr "a@x"))
                     "updated_date" _ _) eq_refl).
    + unfold date_keys. cbn [map fst]. constructor.
    + right. right. right. exists "before Aug-1996". split; reflexivity.
  - refine (proj1 (unusable_date_aborts (<["expiration_date" := PList []]> raw0)
                     "expiration_date" _ _)).
    + unfold date_keys. cbn [map fst]. do 2 constructor. constructor.
    + right. right. left. apply lookup_insert_eq.
Defined.

(** ** What a check does to the store *)

Section CheckEffects.

Lemma lift_Ok {T} (r : result T) (w : world) (x : T) (w' : world) :
  lift r w = Ok (x, w') -> r = Ok x /\ w' = w.
Proof. unfold lift. destruct r; [|discriminate]. intros [= <- <-]. auto. Qed.

Lemma store_differences_effect (id : Z) (ds : list difference) :
  forall w u w',
    store_differences id ds w = Ok (u, w') ->
    domain_tbl w' = domain_tbl w /\ state_tbl w' = state_tbl w
    /\ state_auto w' = state_auto w /\ clock w' = clock w
    /\ whois_calls w' = whois_calls w
    /\ exists chs, changed_tbl w' = changed_tbl w ++ chs
                   /\ Forall (fun ch => ch_state ch = id) chs.
Proof.
  induction ds as [|[[info old] new] ds IH]; intros w u w'; simpl.
  - intros [= _ <-]. repeat split. exists []. rewrite app_nil_r. split; constructor.
  - intros H. apply bindM_Ok in H as (v & w1 & Hv & H).
    apply lift_Ok in Hv as (_ & ->).
    apply bindM_Ok in H as ([] & w2 & Hins & H).
    unfold insert_changed in Hins. destruct (_ && _); [|discriminate].
    injection Hins as <-.
    apply IH in H as (H1 & H2 & H3 & H4 & H5 & chs & H6 & H7). simpl in *.
    repeat split; try assumption.
    eexists. rewrite H6, <- app_assoc. split; [reflexivity|].
    constructor; [reflexivity|exact H7].
Qed.

(** The Domain row as a check leaves it. *)
Lemma alter_alter {V} (f g : V -> V) (k : string) (m : gmap string V) :
  alter f k (alter g k m) = alter (fun x => f (g x)) k m.
Proof.
  apply map_eq. intros k'. destruct (decide (k = k')) as [<-|Hne].
  - rewrite !lookup_alter_eq. destruct (m !! k); reflexivity.
  - rewrite !lookup_alter_ne by assumption. reflexivity.
Qed.

Lemma update_checked_effect (check_data : string) (do_dns : bool) (domain : string)
    (w : world) (u : unit) (w1 : world) :
  update_checked check_data do_dns domain w = Ok (u, w1) ->
  domain_tbl w1
  = alter (fun r => mkdomain (last_state r) (active_checks r) do_dns
                             (Some (clock w)) (Some check_data)) domain (domain_tbl w)
  /\ state_tbl w1 = state_tbl w /\ changed_tbl w1 = changed_tbl w
  /\ state_auto w1 = state_auto w /\ clock w1 = clock w
  /\ whois_calls w1 = whois_calls w.
Proof. unfold update_checked. intros [= _ <-]. repeat split. Qed.

Lemma insert_state_effect (domain check_data : string) (data : canon)
    (w : world) (id : Z) (w1 : world) :
  insert_state domain check_data data w = Ok (id, w1) ->
  id = state_auto w /\ is_Some (domain_tbl w !! domain)
  /\ domain_tbl w1 = domain_tbl w
  /\ state_tbl w1
     = state_tbl w ++ [mkstate (state_auto w) domain (clock w) check_data data]
  /\ changed_tbl w1 = changed_tbl w
  /\ state_auto w1 = state_auto w + 1 /\ clock w1 = clock w
  /\ whois_calls w1 = whois_calls w.
Proof.
  unfold insert_state.
  destruct (bool_decide (is_Some (domain_tbl w !! domain))) eqn:Hfk; [|discriminate].
  destruct (forallb _ _); [|discriminate].
  intros [= <- <-]. apply bool_decide_eq_true in Hfk. repeat split. exact Hfk.
Qed.

Lemma update_last_state_effect (new_state : option Z) (domain : string)
    (w : world) (u : unit) (w1 : world) :
  update_last_state new_state domain w = Ok (u, w1) ->
  domain_tbl w1
  = alter (fun r => mkdomain new_state (active_checks r) (do_dns r)
                             (last_checked r) (cur_raw_text r)) domain (domain_tbl w)
  /\ state_tbl w1 = state_tbl w /\ changed_tbl w1 = changed_tbl w
  /\ state_auto w1 = state_auto w /\ clock w1 = clock w
  /\ whois_calls w1 = whois_calls w.
Proof.
  unfold update_last_state.
  destruct (match new_state with Some _ => _ | None => _ end); [|discriminate].
  intros [= _ <-]. repeat split.
Qed.

Lemma commit_effect (w : world) (u : unit) (w1 : world) :
  commit w = Ok (u, w1) ->
  domain_tbl w1 = domain_tbl w
  /\ state_tbl w1 = state_tbl w /\ changed_tbl w1 = changed_tbl w
  /\ state_auto w1 = state_auto w /\ clock w1 = clock w
  /\ whois_calls w1 = whois_calls w.
Proof. unfold commit. intros [= _ <-]. repeat split. Qed.

Lemma _store_state_effect (domain check_data : string) (pd : gmap string pyval)
    (do_dns : bool) (w : world) (res : bool) (w' : world) :
  _store_state domain check_data pd do_dns w = Ok (res, w') ->
  domain_tbl w'
  = alter (fun r => mkdomain (if res then Some (state_auto w) else last_state r)
                             (active_checks r) do_dns (Some (clock w)) (Some check_data))
          domain (domain_tbl w)
  /\ (if res
      then is_Some (domain_tbl w !! domain)
           /\ exists data, state_params pd = Ok data
                /\ state_tbl w'
                   = state_tbl w ++ [mkstate (state_auto w) domain (clock w) check_data data]
      else state_tbl w' = state_tbl w /\ changed_tbl w' = changed_tbl w)
  /\ (exists chs, changed_tbl w' = changed_tbl w ++ chs
                  /\ Forall (fun ch => ch_state ch = state_auto w) chs)
  /\ clock w' = clock w /\ whois_calls w' = whois_calls w.
Proof.
  unfold _store_state. intros H.
  apply bindM_Ok in H as (row & w1 & Hrow & H). injection Hrow as <- <-.
  apply bindM_Ok in H as (found & w1 & Hfound & H).
  assert (Hw1 : w1 = w).
  { destruct (domain_tbl w !! domain) as [[[last|] ? ? ? ?]|].
    - apply bindM_Ok in Hfound as (prev & w0 & Hp & Hf). injection Hp as <- <-.
      apply lift_Ok in Hf as (_ & ->). reflexivity.
    - injection Hfound as _ <-. reflexivity.
    - injection Hfound as _ <-. reflexivity. }
  subst w1. clear Hfound.
  apply bindM_Ok in H as ([] & w1 & Hupd & H).
  apply update_checked_effect in Hupd as (Hd1 & Hs1 & Hc1 & Ha1 & Ht1 & Hn1).
  apply bindM_Ok in H as ([] & w2 & Hrec & H).
  apply bindM_Ok in H as ([] & w3 & Hcommit & H).
  apply commit_effect in Hcommit as (Hd3 & Hs3 & Hc3 & Ha3 & Ht3 & Hn3).
  injection H as <- <-.
  destruct (fst found).
  - apply bindM_Ok in Hrec as (data & w0 & Hd & Hrec).
    apply lift_Ok in Hd as (Hd & ->).
    apply bindM_Ok in Hrec as (id & w4 & Hins & Hrec).
    apply bindM_Ok in Hrec as ([] & w5 & Hptr & Hrec).
    apply insert_state_effect in Hins as (-> & Hfk & Hd4 & Hs4 & Hc4 & Ha4 & Ht4 & Hn4).
    apply update_last_state_effect in Hptr as (Hd5 & Hs5 & Hc5 & Ha5 & Ht5 & Hn5).
    apply store_differences_effect in Hrec as (Hd2 & Hs2 & Ha2 & Ht2 & Hn2 & chs & Hc2 & Hchs).
    split; [|split; [|split; [|split]]].
    + rewrite Hd3, Hd2, Hd5, Hd4, Hd1, alter_alter, Ha1. reflexivity.
    + split.
      * rewrite Hd1, lookup_alter_eq in Hfk. destruct (domain_tbl w !! domain); [eauto|].
        destruct Hfk as [? Hfk]; discriminate.
      * exists data. split; [exact Hd|].
        rewrite Hs3, Hs2, Hs5, Hs4, Hs1, Ha1, Ht1. reflexivity.
    + exists chs. rewrite Hc3, Hc2, Hc5, Hc4, Hc1. split; [reflexivity|].
      rewrite Ha1 in Hchs. exact Hchs.
    + congruence.
    + congruence.
  - injection Hrec as <-.
    split; [rewrite Hd3, Hd1; reflexivity|]. split; [split; congruence|].
    split; [|split; congruence].
    exists []. rewrite app_nil_r. split; [congruence|constructor].
Qed.

End CheckEffects.

Section CheckEffects2.

Variable whois_lookup : string -> nat -> string.
Variable load : string -> string -> result (gmap string pyval).
Variable query : string -> rdtype -> answer.
Variable self : app.

Lemma retry_effect (fuel : nat) (domain : string) :
  forall attempts cd w res w',
    retry whois_lookup self fuel domain attempts cd w = Ok (res, w') ->
    (whois_calls w <= whois_calls w')%nat
    /\ (Z.of_nat (whois_calls w') - Z.of_nat (whois_calls w)
        <= Z.max 0 (Z.min (Z.of_nat fuel) (max_retries self - attempts)))
    /\ (res = cd \/ (whois_calls w < whois_calls w')%nat).
Proof.
  induction fuel as [|fuel IH]; intros attempts cd w res w'.
  - simpl. intros [= <- <-]. split; [lia|]. split; [lia|]. left. reflexivity.
  - rewrite retry_S. destruct (attempts <? max_retries self) eqn:Hlt.
    + apply Z.ltb_lt in Hlt.
      intros H. apply bindM_Ok in H as (text & w1 & Ht & H). injection Ht as <- <-.
      destruct (_ && _).
      * apply bindM_Ok in H as ([] & w2 & Hs & H). unfold sleep in Hs.
        destruct (_ <? 0); [discriminate|]. injection Hs as <-.
        apply IH in H as (H1 & H2 & _). simpl in *. split; [lia|]. split; [lia|].
        right. lia.
      * injection H as _ <-. simpl. split; [lia|]. split; [lia|]. right. lia.
    + intros [= <- <-]. split; [lia|]. split; [lia|]. left. reflexivity.
Qed.

Lemma check_domain_effect (domain : string) (cd : option string)
    (w : world) (res : bool) (w' : world) :
  check_domain whois_lookup load query self domain cd w = Ok (res, w') ->
  (forall d, d <> domain -> domain_tbl w' !! d = domain_tbl w !! d)
  /\ (exists r', domain_tbl w' !! domain = Some r'
                 /\ active_checks r'
                    = match domain_tbl w !! domain with
                      | Some r => active_checks r
                      | None => true
                      end)
  /\ (exists sts, state_tbl w' = state_tbl w ++ sts
                  /\ Forall (fun st => st_domain st = domain /\ st_id st = state_auto w) sts
                  /\ (length sts <= 1)%nat)
  /\ (exists chs, changed_tbl w' = changed_tbl w ++ chs
                  /\ Forall (fun ch => ch_state ch = state_auto w) chs)
  /\ (res = false -> state_tbl w' = state_tbl w /\ changed_tbl w' = changed_tbl w)
  /\ (whois_calls w <= whois_calls w')%nat
  /\ Z.of_nat (whois_calls w') - Z.of_nat (whois_calls w) <= Z.max 0 (max_retries self)
  /\ (is_Some cd -> whois_calls w' = whois_calls w).
Proof.
  unfold check_domain. intros H.
  apply bindM_Ok in H as (row & w1 & Hrow & H). injection Hrow as <- <-.
  apply bindM_Ok in H as (dns & w1 & Hdns & H).
  assert (Hw1 : domain_tbl w1
                = match domain_tbl w !! domain with
                  | Some _ => domain_tbl w
                  | None => <[domain := mkdomain None true dns None None]> (domain_tbl w)
                  end
                /\ state_tbl w1 = state_tbl w /\ changed_tbl w1 = changed_tbl w
                /\ state_auto w1 = state_auto w /\ whois_calls w1 = whois_calls w).
  { destruct (domain_tbl w !! domain) eqn:Hrow.
    - injection Hdns as _ <-. repeat split.
    - apply bindM_Ok in Hdns as ([] & w2 & Hins & Hdns).
      unfold insert_domain in Hins. rewrite Hrow in Hins. injection Hins as <-.
      apply bindM_Ok in Hdns as ([] & w3 & Hcm & Hdns).
      injection Hcm as <-. injection Hdns as <- <-. repeat split. }
  clear Hdns. destruct Hw1 as (Hd1 & Hs1 & Hc1 & Ha1 & Hn1).
  assert (Hrow1 : exists r1, domain_tbl w1 !! domain = Some r1
                  /\ active_checks r1
                     = match domain_tbl w !! domain with
                       | Some r => active_checks r
                       | None => true
                       end).
  { rewrite Hd1. destruct (domain_tbl w !! domain) as [r|] eqn:Hrow.
    - exists r. split; [exact Hrow|reflexivity].
    - eexists. rewrite lookup_insert_eq. split; reflexivity. }
  assert (Hother1 : forall d, d <> domain -> domain_tbl w1 !! d = domain_tbl w !! d).
  { intros d Hne. rewrite Hd1. destruct (domain_tbl w !! domain); [reflexivity|].
    apply lookup_insert_ne. congruence. }
  apply bindM_Ok in H as (text & w2 & Hfetch & H).
  assert (Hw2 : domain_tbl w2 = domain_tbl w1 /\ state_tbl w2 = state_tbl w1
                /\ changed_tbl w2 = changed_tbl w1 /\ state_auto w2 = state_auto w1
                /\ (whois_calls w1 <= whois_calls w2)%nat
                /\ Z.of_nat (whois_calls w2) - Z.of_nat (whois_calls w1)
                   <= Z.max 0 (max_retries self)
                /\ (is_Some cd -> whois_calls w2 = whois_calls w1)).
  { destruct cd as [text0|].
    - injection Hfetch as _ <-. repeat split; lia.
    - pose proof (retry_tables _ _ _ _ _ _ _ _ _ Hfetch) as (? & ? & ? & ?).
      apply retry_effect in Hfetch as (? & ? & _).
      repeat split; try assumption; [lia|]. intros [? Hc]. discriminate. }
  clear Hfetch. destruct Hw2 as (Hd2 & Hs2 & Hc2 & Ha2 & Hn2 & Hb2 & Hg2).
  destruct text as [text|]; [|discriminate].
  destruct (comm_error text).
  { injection H as <- <-.
    split; [intros d Hne; rewrite Hd2; auto|].
    split; [rewrite Hd2; exact Hrow1|].
    split; [exists []; rewrite app_nil_r; split; [congruence|split; [constructor|simpl; lia]]|].
    split; [exists []; rewrite app_nil_r; split; [congruence|constructor]|].
    split; [discriminate|].
    split; [lia|]. split; [lia|]. intros Hcd. rewrite Hg2 by exact Hcd. exact Hn1. }
  apply bindM_Ok in H as (p1 & w3 & H1 & H).
  apply lift_Ok in H1 as (_ & ->).
  apply bindM_Ok in H as (p2 & w3 & H2 & H).
  apply lift_Ok in H2 as (_ & ->).
  apply bindM_Ok in H as (p3 & w3 & H3 & H).
  assert (w3 = w2) as ->.
  { destruct dns.
    - apply lift_Ok in H3 as (_ & ->). reflexivity.
    - injection H3 as _ <-. reflexivity. }
  apply _store_state_effect in H as (Hd & Hst & (chs & Hch & Hchs) & _ & Hn).
  destruct Hrow1 as (r1 & Hr1 & Hact).
  split; [|split; [|split; [|split; [|split; [|split; [|split]]]]]].
  - intros d Hne. rewrite Hd, lookup_alter_ne by congruence. rewrite Hd2. auto.
  - rewrite Hd, lookup_alter_eq, Hd2, Hr1. simpl. eexists. split; [reflexivity|exact Hact].
  - destruct res.
    + destruct Hst as (_ & data & _ & Hst). eexists. rewrite Hst, Hs2, Hs1.
      split; [reflexivity|]. split; [|simpl; lia].
      constructor; [|constructor]. simpl. split; [reflexivity|congruence].
    + destruct Hst as (Hst & _). exists []. rewrite app_nil_r.
      split; [congruence|]. split; [constructor|simpl; lia].
  - exists chs. rewrite Hch, Hc2, Hc1. split; [reflexivity|].
    eapply Forall_impl; [exact Hchs|]. simpl. intros ch ->. congruence.
  - intros ->. destruct Hst as (Hst & Hch'). split; congruence.
  - lia.
  - lia.
  - intros Hcd. rewrite Hn, Hg2 by exact Hcd. exact Hn1.
Qed.

End CheckEffects2.

(** A first check, run on the empty store. *)
Example check_on_empty_store :
  check_domain whois_up load0 resolver0 app0 "example.com" None store_empty
  = Ok (true, store_first).
Proof.
  apply (check_unknown_domain whois_up load0 resolver0 app0 "example.com"
           "Domain Name: EXAMPLE.COM" raw0 cleaned0
           (<["mx" := PStr ""]> (<["ip" := PStr "192.0.2.1"]> cleaned0)) record3 store_empty).
  - reflexivity.
  - constructor.
  - simpl. lia.
  - reflexivity.
  - vm_compute. reflexivity.
  - reflexivity.
  - exact raw0_cleaned.
  - apply resolver0_lookups.
  - refine (bool_decide_unpack _ _). vm_compute. exact I.
Qed.

(** X8. A check of a domain that returns has touched this domain only, and
    has only added to the history: the rows of the other domains are as
    they were, the row of the domain exists and keeps its active flag (set
    for a new row), no State and no Changed row is removed or altered, at
    most one State is appended, which belongs to the domain, the appended
    Changed rows belong to that State, and a check that reports no change
    appends nothing. *)
Theorem check_touches_one_domain_and_appends
    (whois_lookup : string -> nat -> string)
    (load : string -> string -> result (gmap string pyval))
    (query : string -> rdtype -> answer)
    (self : app) (domain : string) (check_data : option string)
    (w : world) (changed : bool) (w' : world)
    (Hrun : check_domain whois_lookup load query self domain check_data w
            = Ok (changed, w')) :
  (forall d, d <> domain -> domain_tbl w' !! d = domain_tbl w !! d)
  /\ (exists r', domain_tbl w' !! domain = Some r'
                 /\ active_checks r'
                    = match domain_tbl w !! domain with
                      | Some r => active_checks r
                      | None => true
                      end)
  /\ (exists sts, state_tbl w' = state_tbl w ++ sts
                  /\ Forall (fun st => st_domain st = domain /\ st_id st = state_auto w) sts
                  /\ (length sts <= 1)%nat)
  /\ (exists chs, changed_tbl w' = changed_tbl w ++ chs
                  /\ Forall (fun ch => ch_state ch = state_auto w) chs)
  /\ (changed = false -> state_tbl w' = state_tbl w /\ changed_tbl w' = changed_tbl w).
Proof.
  apply check_domain_effect in Hrun. tauto.
Qed.

Lemma check_touches_one_domain_and_appends_witness :
  (forall d, d <> "example.com" -> domain_tbl store_first !! d = domain_tbl store_empty !! d)
  /\ exists sts, state_tbl store_first = state_tbl store_empty ++ sts
                 /\ (length sts <= 1)%nat.
Proof.
  destruct (check_touches_one_domain_and_appends _ _ _ _ _ _ _ _ _ check_on_empty_store)
    as (Hother & _ & (sts & Hsts & _ & Hlen) & _).
  split; [exact Hother|]. exists sts. split; assumption.
Defined.

(** X9. A check sends at most [max_retries] whois queries, and none when
    the text to parse is handed over. *)
Theorem whois_queries_bounded
    (whois_lookup : string -> nat -> string)
    (load : string -> string -> result (gmap string pyval))
    (query : string -> rdtype -> answer)
    (self : app) (domain : string) (check_data : option string)
    (w : world) (changed : bool) (w' : world)
    (Hrun : check_domain whois_lookup load query self domain check_data w
            = Ok (changed, w')) :
  (whois_calls w <= whois_calls w')%nat
  /\ Z.of_nat (whois_calls w') - Z.of_nat (whois_calls w) <= Z.max 0 (max_retries self)
  /\ (is_Some check_data -> whois_calls w' = whois_calls w).
Proof.
  apply check_domain_effect in Hrun. tauto.
Qed.

Lemma whois_queries_bounded_witness :
  (whois_calls store_empty <= whois_calls store_first)%nat
  /\ Z.of_nat (whois_calls store_first) - Z.of_nat (whois_calls store_empty) <= 3.
Proof.
  destruct (whois_queries_bounded _ _ _ _ _ _ _ _ _ check_on_empty_store)
    as (Hge & Hle & _).
  split; [exact Hge|exact Hle].
Defined.

Section Repeated.

Lemma getitem_Ok (pd : gmap string pyval) (k : string) (v : pyval) :
  getitem pd k = Ok v -> pd !! k = Some v.
Proof. unfold getitem. destruct (pd !! k); [|discriminate]. intros [= <-]. reflexivity. Qed.

Lemma bind_param_Ok (v : pyval) (x : scalar) : bind_param v = Ok x -> v = PScalar x.
Proof. destruct v; [|discriminate]. intros [= <-]. reflexivity. Qed.

(** The parameters of the insertion are the canonical record of the parsed
    record. *)
Lemma state_params_canonical (pd : gmap string pyval) (c : canon) :
  state_params pd = Ok c -> canonical pd c.
Proof.
  unfold state_params. intros H.
  repeat match type of H with
         | Py.bind _ _ = Ok _ => apply bind_Ok in H as (? & ? & H)
         end.
  injection H as <-.
  repeat match goal with
         | Hg : getitem _ _ = Ok _ |- _ => apply getitem_Ok in Hg
         | Hb : bind_param _ = Ok _ |- _ => apply bind_param_Ok in Hb
         end.
  subst. unfold canonical, columns. cbn [c_registrar c_whois_server c_referral_url
    c_updated_date c_creation_date c_expiration_date c_name_servers c_status c_emails
    c_dnssec c_name c_org c_address c_city c_state c_zipcode c_ip c_mx].
  repeat (constructor; [cbn [fst snd]; assumption|]). constructor.
Qed.

(** The newest state is found by its id when the older ids are below it. *)
Lemma find_newest (sts : list state_row) (new : state_row) :
  Forall (fun st => st_id st < st_id new) sts ->
  find (fun st => bool_decide (st_id st = st_id new)) (sts ++ [new]) = Some new.
Proof.
  induction 1 as [|st sts Hlt _ IH]; simpl.
  - rewrite bool_decide_true by reflexivity. reflexivity.
  - rewrite bool_decide_false by lia. exact IH.
Qed.

End Repeated.

Example consistent_store_new : consistent store_new.
Proof.
  unfold consistent, pointers_own. simpl. repeat split; try constructor.
  - intros d r id H. apply lookup_singleton_Some in H as [_ <-]. discriminate.
  - intros d r id st H. apply lookup_singleton_Some in H as [_ <-]. discriminate.
Qed.

(** X10. After a check has recorded a state in a consistent store, storing
    the same parsed record again - at any later time, with any raw text and
    DNS setting - finds no change: it returns [False], and adds no State
    and no Changed row. The state that the first check recorded is the one
    the second compares against. *)
Theorem same_record_stored_once
    (domain check_data : string) (pd : gmap string pyval) (do_dns : bool)
    (w w1 : world)
    (Hcons : consistent w)
    (Hrun : _store_state domain check_data pd do_dns w = Ok (true, w1)) :
  forall (check_data' : string) (do_dns' : bool) (w2 : world),
    domain_tbl w2 = domain_tbl w1 ->
    state_tbl w2 = state_tbl w1 ->
    exists w3,
      _store_state domain check_data' pd do_dns' w2 = Ok (false, w3)
      /\ state_tbl w3 = state_tbl w2
      /\ changed_tbl w3 = changed_tbl w2
      /\ journal w3 = journal w2 ++ [UpdateChecked domain; Commit].
Proof.
  intros cd' b' w2 Hd2 Hs2.
  apply _store_state_effect in Hrun as (Hd & ((r & Hr) & data & Hdata & Hst) & _).
  apply state_params_canonical in Hdata.
  destruct Hcons as (Hids & _).
  pose (new := mkstate (state_auto w) domain (clock w) check_data data).
  rewrite (_store_state_previous domain cd' pd data b'
             (mkdomain (Some (state_auto w)) (active_checks r) do_dns
                       (Some (clock w)) (Some check_data))
             (state_auto w) new w2).
  - rewrite decide_True by reflexivity.
    eexists. split; [reflexivity|]. repeat split.
  - rewrite Hd2, Hd, lookup_alter_eq, Hr. reflexivity.
  - reflexivity.
  - rewrite Hs2, Hst. apply (find_newest (state_tbl w) new). exact Hids.
  - exact Hdata.
  - intros Hne. contradiction Hne. reflexivity.
Qed.

Lemma same_record_stored_once_witness :
  exists w3,
    _store_state "example.com" "raw text, again" (parsed_of record0) true
      (after_recorded "example.com" "raw text" record0 false
         (mkdomain None true true None None) [] store_new)
    = Ok (false, w3)
    /\ state_tbl w3 = [mkstate 1 "example.com" 1000 "raw text" record0].
Proof.
  destruct (same_record_stored_once "example.com" "raw text" (parsed_of record0) false
              store_new
              (after_recorded "example.com" "raw text" record0 false
                 (mkdomain None true true None None) [] store_new)
              consistent_store_new
              (_store_state_initial "example.com" "raw text" (parsed_of record0) record0 false
                 (mkdomain None true true None None) store_new
                 eq_refl eq_refl (canonical_parsed_of record0) (Forall_nil_2 _))
              "raw text, again" true _ eq_refl eq_refl)
    as (w3 & Hrun & Hst & _).
  exists w3. split; [exact Hrun|exact Hst].
Defined.

(** X11. The unique index on (domain, check_time) rejects a second State of
    a domain in the same second: a check that finds a change while a State
    of the domain carries the current time raises [IntegrityError]. *)
Theorem second_state_in_same_second_rejected
    (domain check_data : string) (pd : gmap string pyval) (new : canon)
    (do_dns : bool) (r : domain_row) (last : Z) (prev : state_row) (w : world)
    (Hrow : domain_tbl w !! domain = Some r)
    (Hlast : last_state r = Some last)
    (Hprev : select_state last w = Ok (Some prev, w))
    (Hcanon : canonical pd new)
    (Hdiff : st_data prev <> new)
    (Hsame : exists st, st ∈ state_tbl w /\ st_domain st = domain
                        /\ st_check_time st = clock w) :
  _store_state domain check_data pd do_dns w = Raise IntegrityError.
Proof.
  assert (Hfind : find (fun st => bool_decide (st_id st = last)) (state_tbl w) = Some prev).
  { unfold select_state in Hprev. injection Hprev as Hprev. exact Hprev. }
  unfold _store_state.
  unfold bindM at 1. unfold select_domain at 1. rewrite Hrow.
  destruct r as [ls ac dd lc raw]. simpl in Hlast. subst ls.
  unfold bindM at 1. unfold bindM at 1. unfold select_state at 1. rewrite Hfind.
  unfold lift at 1. rewrite (find_differences_spec prev pd new Hcanon).
  cbv zeta. simpl fst. simpl snd.
  rewrite bool_decide_true
    by (intros Hc; apply Hdiff; apply field_changes_nil; exact Hc).
  unfold bindM at 1. unfold update_checked at 1.
  unfold bindM at 1. unfold bindM at 1. unfold lift at 1.
  rewrite (canonical_state_params _ _ Hcanon).
  unfold bindM at 1. unfold insert_state at 1. simpl.
  rewrite (alter_known _ _ _ _ Hrow), lookup_insert_eq.
  rewrite bool_decide_true by eauto.
  destruct Hsame as (st & Hst & Hdom & Htime).
  assert (Hfresh : forallb (fun st => negb (bool_decide (st_domain st = domain) &&
                                            bool_decide (st_check_time st = clock w)))
                           (state_tbl w) = false).
  { apply not_true_is_false. intros Hall.
    rewrite forallb_forall in Hall. apply list_elem_of_In in Hst.
    specialize (Hall st Hst).
    rewrite !bool_decide_true in Hall by assumption. discriminate. }
  rewrite Hfresh. reflexivity.
Qed.

Lemma second_state_in_same_second_rejected_witness :
  _store_state "example.com" "new raw text" (parsed_of record1) true
    (set_clock 1000 store_one)
  = Raise IntegrityError.
Proof.
  apply (second_state_in_same_second_rejected "example.com" "new raw text"
           (parsed_of record1) record1 true
           (mkdomain (Some 1) true false (Some 1000) (Some "raw text")) 1
           (mkstate 1 "example.com" 1000 "raw text" record0) (set_clock 1000 store_one)).
  - reflexivity.
  - reflexivity.
  - reflexivity.
  - apply canonical_parsed_of.
  - discriminate.
  - eexists. split; [apply list_elem_of_singleton; reflexivity|]. split; reflexivity.
Defined.

(** ** The retry loop *)

Section Retries.

Variable whois_lookup : string -> nat -> string.
Variable self : app.

Lemma retry_until (domain : string) :
  0 <= delay_between_domains self ->
  forall (n f : nat) (attempts : Z) (check_data : option string) (w : world),
    attempts + Z.of_nat n < max_retries self ->
    (n < f)%nat ->
    (forall k, (k < n)%nat ->
               comm_error (whois_lookup domain (whois_calls w + k)) = true) ->
    comm_error (whois_lookup domain (whois_calls w + n)) = false ->
    retry whois_lookup self f domain attempts check_data w
    = Ok (Some (whois_lookup domain (whois_calls w + n)),
          after_retries (S n) (delay_between_domains self) w).
Proof.
  intros Hdelay. induction n as [|n IH]; intros f attempts check_data w Hmax Hfuel Hfail Hgood.
  - destruct f as [|f]; [lia|]. rewrite retry_S.
    destruct (Z.ltb_spec attempts (max_retries self)); [|lia].
    unfold bindM, client_lookup. rewrite Nat.add_0_r in Hgood. rewrite Hgood, andb_false_r.
    unfold ret, after_retries, count_call. simpl.
    rewrite Nat.add_0_r, Z.add_0_r, app_nil_r, Nat.add_1_r. reflexivity.
  - destruct f as [|f]; [lia|]. rewrite retry_S.
    destruct (Z.ltb_spec attempts (max_retries self)); [|lia].
    unfold bindM at 1. unfold client_lookup at 1. cbv beta match.
    destruct (Z.ltb_spec (attempts + 1) (max_retries self)); [|lia].
    pose proof (Hfail 0%nat ltac:(lia)) as Hfirst. rewrite Nat.add_0_r in Hfirst.
    rewrite Hfirst. change (true && true) with true. cbv beta match.
    unfold bindM at 1. unfold sleep at 1.
    destruct (Z.ltb_spec (delay_between_domains self) 0); [lia|].
    cbv beta match. rewrite (IH f).
    + simpl. unfold after_retries. simpl.
      rewrite Nat.sub_0_r, <- app_assoc. simpl.
      replace (S (whois_calls w + n)) with (whois_calls w + S n)%nat by lia.
      replace (S (whois_calls w + S n)) with (whois_calls w + S (S n))%nat by lia.
      replace (clock w + delay_between_domains self + Z.of_nat n * delay_between_domains self)
        with (clock w + Z.of_nat (S n) * delay_between_domains self) by lia.
      reflexivity.
    + lia.
    + lia.
    + intros k Hk. simpl. replace (S (whois_calls w + k)) with (whois_calls w + S k)%nat by lia.
      apply Hfail. lia.
    + simpl. replace (S (whois_calls w + n)) with (whois_calls w + S n)%nat by lia.
      exact Hgood.
Qed.

End Retries.

(** X12. The retry loop stops at the first answer that does not report the
    communication error: when the first [n] answers report it and the next
    one does not, and [n + 1] attempts are allowed, the loop hands over that
    answer after [n + 1] queries and [n] pauses of [delay_between_domains]
    seconds, and touches no table. *)
Theorem retry_stops_at_first_answer
    (whois_lookup : string -> nat -> string) (self : app)
    (domain : string) (n : nat) (w : world)
    (Hdelay : 0 <= delay_between_domains self)
    (Hallowed : Z.of_nat n < max_retries self)
    (Hfail : forall k, (k < n)%nat ->
                       comm_error (whois_lookup domain (whois_calls w + k)%nat) = true)
    (Hgood : comm_error (whois_lookup domain (whois_calls w + n)%nat) = false) :
  exists w',
    retry whois_lookup self (Z.to_nat (max_retries self)) domain 0 None w
    = Ok (Some (whois_lookup domain (whois_calls w + n)%nat), w')
    /\ whois_calls w' = (whois_calls w + n + 1)%nat
    /\ clock w' = clock w + Z.of_nat n * delay_between_domains self
    /\ journal w' = journal w ++ repeat (Sleep (delay_between_domains self)) n
    /\ domain_tbl w' = domain_tbl w
    /\ state_tbl w' = state_tbl w
    /\ changed_tbl w' = changed_tbl w.
Proof.
  rewrite (retry_until whois_lookup self domain Hdelay n) by (assumption || lia).
  eexists. split; [reflexivity|]. unfold after_retries. simpl.
  rewrite Nat.sub_0_r. repeat split. lia.
Qed.

Lemma retry_stops_at_first_answer_witness :
  exists w',
    retry flaky app0 3 "example.com" 0 None store_one
    = Ok (Some "Domain Name: EXAMPLE.COM", w')
    /\ whois_calls w' = 2%nat
    /\ clock w' = 2030
    /\ journal w' = [Sleep 30].
Proof.
  destruct (retry_stops_at_first_answer flaky app0 "example.com" 1 store_one)
    as (w' & Hrun & Hcalls & Hclock & Hj & _).
  - simpl. lia.
  - simpl. lia.
  - intros k Hk. destruct k; [reflexivity|lia].
  - reflexivity.
  - exists w'. split; [exact Hrun|]. split; [exact Hcalls|]. split; [exact Hclock|exact Hj].
Defined.

(** X13. With no attempt allowed ([max_retries] zero or negative) and no
    text handed over, the loop is not entered and the check ends in a
    [TypeError]: the test for the communication error is made on [None]. *)
Theorem no_attempt_allowed_raises
    (whois_lookup : string -> nat -> string)
    (load : string -> string -> result (gmap string pyval))
    (query : string -> rdtype -> answer)
    (self : app) (domain : string) (w : world)
    (Hnone : max_retries self <= 0) :
  check_domain whois_lookup load query self domain None w = Raise TypeError.
Proof.
  unfold check_domain.
  replace (Z.to_nat (max_retries self)) with 0%nat by lia.
  unfold bindM at 1. unfold select_domain at 1.
  destruct (domain_tbl w !! domain) as [r|] eqn:Hrow.
  - reflexivity.
  - unfold bindM at 1. unfold bindM at 1. unfold insert_domain at 1. rewrite Hrow.
    reflexivity.
Qed.

Lemma no_attempt_allowed_raises_witness :
  check_domain whois_up load0 resolver0 app_no_attempt "example.com" None store_one
  = Raise TypeError.
Proof.
  apply no_attempt_allowed_raises. simpl. lia.
Defined.

(** ** What a purge does to the store *)

Section PurgeEffects.

Lemma filter_equiv {X} (P Q : X -> Prop) `{forall x, Decision (P x)} `{forall x, Decision (Q x)}
    (l : list X) :
  (forall x, x ∈ l -> (P x <-> Q x)) -> filter P l = filter Q l.
Proof.
  induction l as [|x l IH]; intros Hl; [reflexivity|].
  rewrite !filter_cons.
  assert (Hx : P x <-> Q x) by (apply Hl; left).
  rewrite IH by (intros y Hy; apply Hl; right; exact Hy).
  destruct (decide (P x)), (decide (Q x)); tauto.
Qed.

Lemma purge_domain_effect (domain : string) (w : world) (u : unit) (w' : world) :
  purge_domain domain w = Ok (u, w') ->
  is_Some (domain_tbl w !! domain)
  /\ domain_tbl w' = delete domain (domain_tbl w)
  /\ state_tbl w'
     = filter (fun st => st_id st ∉ domain_state_ids domain w) (state_tbl w)
  /\ changed_tbl w'
     = filter (fun ch => ch_state ch ∉ domain_state_ids domain w) (changed_tbl w)
  /\ state_auto w' = state_auto w /\ changed_auto w' = changed_auto w
  /\ clock w' = clock w /\ whois_calls w' = whois_calls w.
Proof.
  unfold purge_domain. intros H.
  apply bindM_Ok in H as (known & w0 & Hk & H).
  apply bindM_Ok in Hk as (row & w00 & Hrow & Hk).
  injection Hrow as <- <-. injection Hk as <- <-.
  destruct (bool_decide (is_Some (domain_tbl w !! domain))) eqn:Hknown; [|discriminate].
  apply bool_decide_eq_true in Hknown. cbn [negb] in H.
  apply bindM_Ok in H as (states & w0 & Hget & H).
  destruct (_get_state_ids_spec domain w) as (states' & Hget' & Hperm).
  rewrite Hget' in Hget. injection Hget as <- <-.
  fold (domain_state_ids domain w) in Hperm.
  set (ids := map fst states') in *.
  assert (Hempty : states' = [] -> ids = []) by (intros ->; reflexivity).
  assert (Hsame : forall id, id ∉ ids <-> id ∉ domain_state_ids domain w)
    by (intros id; rewrite Hperm; reflexivity).
  apply bindM_Ok in H as ([] & w1 & H1 & H).
  assert (E1 : domain_tbl w1 = domain_tbl w /\ state_tbl w1 = state_tbl w
               /\ changed_tbl w1 = filter (fun ch => ch_state ch ∉ ids) (changed_tbl w)
               /\ state_auto w1 = state_auto w /\ changed_auto w1 = changed_auto w
               /\ clock w1 = clock w /\ whois_calls w1 = whois_calls w).
  { destruct (decide (states' = [])) as [Hs|Hs].
    - rewrite bool_decide_false in H1 by tauto. injection H1 as <-.
      rewrite (Hempty Hs).
      rewrite filter_all by (apply Forall_forall; intros; apply not_elem_of_nil).
      repeat split.
    - rewrite bool_decide_true in H1 by tauto. unfold delete_changed in H1.
      injection H1 as <-. repeat split. }
  clear H1. destruct E1 as (Hd1 & Hs1 & Hc1 & Ha1 & Hb1 & Ht1 & Hn1).
  apply bindM_Ok in H as ([] & w2 & H2 & H).
  unfold update_last_state in H2. cbv match in H2.
  assert (E2 : domain_tbl w2
               = alter (fun r => mkdomain None (active_checks r) (do_dns r)
                                          (last_checked r) (cur_raw_text r))
                       domain (domain_tbl w1)
               /\ state_tbl w2 = state_tbl w1 /\ changed_tbl w2 = changed_tbl w1
               /\ state_auto w2 = state_auto w1 /\ changed_auto w2 = changed_auto w1
               /\ clock w2 = clock w1 /\ whois_calls w2 = whois_calls w1).
  { injection H2 as <-. repeat split. }
  clear H2. destruct E2 as (Hd2 & Hs2 & Hc2 & Ha2 & Hb2 & Ht2 & Hn2).
  apply bindM_Ok in H as ([] & w3 & H3 & H).
  assert (E3 : domain_tbl w3 = domain_tbl w2
               /\ state_tbl w3 = filter (fun st => st_id st ∉ ids) (state_tbl w2)
               /\ changed_tbl w3 = changed_tbl w2
               /\ state_auto w3 = state_auto w2 /\ changed_auto w3 = changed_auto w2
               /\ clock w3 = clock w2 /\ whois_calls w3 = whois_calls w2).
  { destruct (decide (states' = [])) as [Hs|Hs].
    - rewrite bool_decide_false in H3 by tauto. injection H3 as <-.
      rewrite (Hempty Hs).
      rewrite filter_all by (apply Forall_forall; intros; apply not_elem_of_nil).
      repeat split.
    - rewrite bool_decide_true in H3 by tauto. unfold delete_state in H3.
      destruct (existsb _ _); [discriminate|].
      injection H3 as <-. repeat split. }
  clear H3. destruct E3 as (Hd3 & Hs3 & Hc3 & Ha3 & Hb3 & Ht3 & Hn3).
  apply bindM_Ok in H as ([] & w4 & H4 & H).
  unfold delete_domain in H4. destruct (_ && _); [discriminate|].
  injection H4 as <-. unfold commit in H. destruct u. injection H as <-. simpl.
  split; [exact Hknown|].
  split.
  { rewrite Hd3, Hd2, Hd1, delete_alter. case_decide; [reflexivity|congruence]. }
  split.
  { rewrite Hs3, Hs2, Hs1. apply filter_equiv. intros st _. apply Hsame. }
  split.
  { rewrite Hc3, Hc2, Hc1. apply filter_equiv. intros ch _. apply Hsame. }
  repeat split; congruence.
Qed.

(** Rows with distinct keys. *)
Lemma NoDup_fmap_eq {X Y} (f : X -> Y) (l : list X) (x y : X) :
  NoDup (map f l) -> x ∈ l -> y ∈ l -> f x = f y -> x = y.
Proof.
  induction l as [|z l IH]; simpl; intros Hnd Hx Hy Hf.
  - apply elem_of_nil in Hx. contradiction.
  - apply NoDup_cons in Hnd as [Hz Hnd].
    apply elem_of_cons in Hx as [->|Hx]; apply elem_of_cons in Hy as [->|Hy].
    + reflexivity.
    + exfalso. apply Hz. rewrite Hf. apply list_elem_of_fmap. eauto.
    + exfalso. apply Hz. rewrite <- Hf. apply list_elem_of_fmap. eauto.
    + auto.
Qed.

End PurgeEffects.

(** X14. A purge spares the other domains. In a store whose State ids are
    distinct (the primary key of [state]), a purge of a domain that returns
    removes the row of the domain and its States, and the Changed rows of
    those States; every other Domain row, every State of another domain and
    every Changed row of such a State is kept, in the order it had, and the
    auto-increment counters are not reset. *)
Theorem purge_spares_other_domains (domain : string) (w w' : world)
    (Hkey : NoDup (state_ids w))
    (Hrun : purge_domain domain w = Ok (tt, w')) :
  domain_tbl w' !! domain = None
  /\ (forall d, d <> domain -> domain_tbl w' !! d = domain_tbl w !! d)
  /\ state_tbl w' = filter (fun st => st_domain st <> domain) (state_tbl w)
  /\ changed_tbl w'
     = filter (fun ch => Forall (fun st => st_id st = ch_state ch -> st_domain st <> domain)
                                (state_tbl w))
              (changed_tbl w)
  /\ state_auto w' = state_auto w /\ changed_auto w' = changed_auto w.
Proof.
  apply purge_domain_effect in Hrun as (_ & Hd & Hs & Hc & Ha & Hb & _).
  assert (Hids : forall id, id ∈ domain_state_ids domain w
                            <-> exists st, st ∈ state_tbl w /\ st_id st = id
                                           /\ st_domain st = domain).
  { intros id. unfold domain_state_ids. rewrite list_elem_of_fmap. split.
    - intros (st & -> & Hst). apply list_elem_of_filter in Hst as [? ?]. eauto.
    - intros (st & Hst & <- & Hdom). exists st. split; [reflexivity|].
      apply list_elem_of_filter. auto. }
  split; [rewrite Hd; apply lookup_delete_eq|].
  split; [intros d Hne; rewrite Hd; apply lookup_delete_ne; congruence|].
  split; [|split; [|split; assumption]].
  - rewrite Hs. apply filter_equiv. intros st Hst. rewrite Hids. split.
    + intros Hnot Hdom. apply Hnot. eauto.
    + intros Hdom (st' & Hst' & Hid & Hdom'). apply Hdom.
      rewrite (NoDup_fmap_eq st_id (state_tbl w) st st' Hkey Hst Hst') by congruence.
      exact Hdom'.
  - rewrite Hc. apply filter_equiv. intros ch _. rewrite Hids, Forall_forall. split.
    + intros Hnot st Hst Hid Hdom. apply Hnot. eauto.
    + intros Hall (st & Hst & Hid & Hdom). exact (Hall st Hst Hid Hdom).
Qed.

Example purge_store_pair :
  purge_domain "example.com" store_pair
  = Ok (tt, store_purged).
Proof. vm_cast_no_check (eq_refl (Ok (tt, store_purged))). Qed.

Lemma purge_spares_other_domains_witness :
  domain_tbl store_purged !! "example.com" = None
  /\ domain_tbl store_purged !! "example.org" = domain_tbl store_pair !! "example.org"
  /\ state_tbl store_purged = [mkstate 3 "example.org" 2500 "org text" record0].
Proof.
  destruct (purge_spares_other_domains "example.com" store_pair _
              ltac:(refine (bool_decide_unpack _ _); vm_compute; exact I)
              purge_store_pair)
    as (Hgone & Hother & Hst & _).
  split; [exact Hgone|]. split; [apply Hother; discriminate|exact Hst].
Defined.

Section Unknown.

Lemma unknown_domain_exits (domain : string) (w : world) :
  domain_tbl w !! domain = None ->
  purge_domain domain w = Raise (SystemExit 1)
  /\ forall b, set_domain_status domain b w = Raise (SystemExit 1).
Proof.
  intros Hrow. unfold purge_domain, set_domain_status.
  unfold bindM at 1. unfold _have_domain at 1. unfold bindM at 1.
  unfold select_domain at 1. rewrite Hrow.
  split; [reflexivity|]. intros b.
  unfold bindM at 1. unfold _have_domain at 1. unfold bindM at 1.
  unfold select_domain at 1. rewrite Hrow. reflexivity.
Qed.

End Unknown.

(** X15. A purge is final: after a purge of a domain that returned, the
    domain is unknown, so that a second purge and a change of its
    active flag both end the program with exit status 1. *)
Theorem purged_domain_is_unknown (domain : string) (w w' : world)
    (Hrun : purge_domain domain w = Ok (tt, w')) :
  _have_domain domain w' = Ok (false, w')
  /\ purge_domain domain w' = Raise (SystemExit 1)
  /\ forall active, set_domain_status domain active w' = Raise (SystemExit 1).
Proof.
  apply purge_domain_effect in Hrun as (_ & Hd & _).
  assert (Hrow : domain_tbl w' !! domain = None) by (rewrite Hd; apply lookup_delete_eq).
  split; [|apply unknown_domain_exits, Hrow].
  unfold _have_domain, bindM, select_domain, ret. rewrite Hrow. reflexivity.
Qed.

Lemma purged_domain_is_unknown_witness :
  purge_domain "example.com" store_purged = Raise (SystemExit 1).
Proof.
  exact (proj1 (proj2 (purged_domain_is_unknown "example.com" store_pair _ purge_store_pair))).
Defined.

(** ** The active flag and the batch *)

(** X16. Changing the active flag of a known domain changes this flag and
    nothing else: the other columns of its row, the other rows, the States
    and the Changed rows are as before, and the change is committed. Setting
    the flag back to its former value restores the table of domains. *)
Theorem active_flag_set_alone (domain : string) (active : bool)
    (r : domain_row) (w : world)
    (Hrow : domain_tbl w !! domain = Some r) :
  exists w',
    set_domain_status domain active w = Ok (tt, w')
    /\ domain_tbl w'
       = <[domain := mkdomain (last_state r) active (do_dns r)
                              (last_checked r) (cur_raw_text r)]> (domain_tbl w)
    /\ state_tbl w' = state_tbl w
    /\ changed_tbl w' = changed_tbl w
    /\ journal w' = journal w ++ [Commit]
    /\ exists w'',
         set_domain_status domain (active_checks r) w' = Ok (tt, w'')
         /\ domain_tbl w'' = domain_tbl w.
Proof.
  assert (Hset : forall b r0 w0, domain_tbl w0 !! domain = Some r0 ->
            set_domain_status domain b w0
            = Ok (tt, log Commit
                        (set_domains
                           (<[domain := mkdomain (last_state r0) b (do_dns r0)
                                                 (last_checked r0) (cur_raw_text r0)]>
                              (domain_tbl w0)) w0))).
  { intros b r0 w0 Hr0. unfold set_domain_status.
    unfold bindM at 1. unfold _have_domain at 1. unfold bindM at 1.
    unfold select_domain at 1. rewrite Hr0. unfold ret at 1.
    rewrite bool_decide_true by eauto. change (negb true) with false. cbv match.
    unfold bindM, update_active, commit.
    rewrite (alter_known _ _ _ _ Hr0). reflexivity. }
  eexists. split; [apply Hset, Hrow|].
  repeat split.
  eexists. split.
  - apply Hset. simpl. apply lookup_insert_eq.
  - simpl. rewrite insert_insert_eq. destruct r. simpl. apply insert_id. exact Hrow.
Qed.

Lemma active_flag_set_alone_witness :
  exists w',
    set_domain_status "example.com" false store_one = Ok (tt, w')
    /\ domain_tbl w'
       = {[ "example.com" := mkdomain (Some 1) false false (Some 1000) (Some "raw text") ]}
    /\ state_tbl w' = state_tbl store_one.
Proof.
  destruct (active_flag_set_alone "example.com" false
              (mkdomain (Some 1) true false (Some 1000) (Some "raw text")) store_one eq_refl)
    as (w' & Hrun & Hd & Hs & _).
  exists w'. split; [exact Hrun|]. split; [|exact Hs].
  rewrite Hd. simpl. apply insert_singleton_eq.
Defined.

Section BatchEffects.

Variable whois_lookup : string -> nat -> string.
Variable load : string -> string -> result (gmap string pyval).
Variable query : string -> rdtype -> answer.
Variable self : app.

Lemma select_active_elem (w : world) (d : string) :
  d ∈ sorted (map fst (map_to_list
                         (filter (fun kr => active_checks (snd kr) = true) (domain_tbl w))))
  <-> exists r, domain_tbl w !! d = Some r /\ active_checks r = true.
Proof.
  rewrite sorted_permutation, list_elem_of_fmap. split.
  - intros ([k r] & -> & Hin). apply elem_of_map_to_list in Hin.
    apply map_lookup_filter_Some in Hin as [Hl Ha]. eauto.
  - intros (r & Hl & Ha). exists (d, r). split; [reflexivity|].
    apply elem_of_map_to_list. apply map_lookup_filter_Some. auto.
Qed.

Lemma select_active_nodup (w : world) :
  NoDup (sorted (map fst (map_to_list
                            (filter (fun kr => active_checks (snd kr) = true)
                                    (domain_tbl w))))).
Proof. rewrite sorted_permutation. apply NoDup_fst_map_to_list. Qed.

Lemma sleep_effect (secs : Z) (w : world) (u : unit) (w' : world) :
  sleep secs w = Ok (u, w') ->
  domain_tbl w' = domain_tbl w /\ state_tbl w' = state_tbl w
  /\ changed_tbl w' = changed_tbl w /\ state_auto w' = state_auto w.
Proof.
  unfold sleep. destruct (secs <? 0); [discriminate|]. intros [= _ <-]. repeat split.
Qed.

Lemma check_each_effect (domains : list string) :
  forall first have_changes w res w',
    check_each whois_lookup load query self domains first have_changes w = Ok (res, w') ->
    (forall d, d ∉ domains -> domain_tbl w' !! d = domain_tbl w !! d)
    /\ (forall d, is_Some (domain_tbl w' !! d)
                  <-> is_Some (domain_tbl w !! d) \/ d ∈ domains)
    /\ (forall d r r', domain_tbl w !! d = Some r -> domain_tbl w' !! d = Some r' ->
                       active_checks r' = active_checks r)
    /\ (forall st, st ∈ state_tbl w' -> st ∈ state_tbl w \/ st_domain st ∈ domains)
    /\ (forall st, st ∈ state_tbl w -> st ∈ state_tbl w').
Proof.
  induction domains as [|domain rest IH]; intros first hc w res w' H.
  - simpl in H. injection H as _ <-.
    split; [reflexivity|]. split; [|split; [|split]].
    + intros d. split; [auto|]. intros [?|Hd]; [assumption|].
      apply elem_of_nil in Hd. contradiction.
    + intros d r r' Hr Hr'. congruence.
    + auto.
    + auto.
  - cbn [check_each] in H.
    apply bindM_Ok in H as ([] & w0 & Hsleep & H).
    assert (Hw0 : domain_tbl w0 = domain_tbl w /\ state_tbl w0 = state_tbl w
                  /\ changed_tbl w0 = changed_tbl w /\ state_auto w0 = state_auto w).
    { destruct (negb first); [apply sleep_effect in Hsleep; exact Hsleep|].
      injection Hsleep as <-. repeat split. }
    clear Hsleep. destruct Hw0 as (Hd0 & Hs0 & _ & _).
    apply bindM_Ok in H as (changed & w1 & Hcheck & H).
    apply check_domain_effect in Hcheck
      as (Hother & (r1 & Hr1 & Hact) & (sts & Hsts & Hdom & _) & _).
    apply IH in H as (Hrest & Hknown & Hflag & Hnew & Hold).
    rewrite Hd0 in *. rewrite Hs0 in *.
    split; [|split; [|split; [|split]]].
    + intros d Hd. rewrite not_elem_of_cons in Hd. destruct Hd as [Hne Hd].
      rewrite Hrest by exact Hd. apply Hother, Hne.
    + intros d. rewrite Hknown, elem_of_cons.
      destruct (decide (d = domain)) as [->|Hne].
      * rewrite Hr1. split; [auto|]. intros _. left. eauto.
      * rewrite Hother by exact Hne. tauto.
    + intros d r r' Hr Hr'.
      destruct (decide (d = domain)) as [->|Hne].
      * rewrite Hr in Hact. rewrite <- Hact. apply (Hflag domain r1 r' Hr1 Hr').
      * apply (Hflag d r r'); [|exact Hr']. rewrite Hother by exact Hne. exact Hr.
    + intros st Hst. apply Hnew in Hst as [Hst|Hst].
      * rewrite Hsts in Hst. apply elem_of_app in Hst as [Hst|Hst]; [left; exact Hst|].
        right. rewrite Forall_forall in Hdom. destruct (Hdom st Hst) as [-> _]. left.
      * right. right. exact Hst.
    + intros st Hst. apply Hold. rewrite Hsts. apply elem_of_app. left. exact Hst.
Qed.

End BatchEffects.

(** X17. The batch checks each domain whose active flag is set once, in
    ascending order of the names, and no other domain. *)
Theorem active_domains_checked_in_order
    (whois_lookup : string -> nat -> string)
    (load : string -> string -> result (gmap string pyval))
    (query : string -> rdtype -> answer)
    (self : app) (w : world) :
  exists domains,
    check_all_domains whois_lookup load query self w
    = check_each whois_lookup load query self domains true false w
    /\ Sorted String.le domains
    /\ NoDup domains
    /\ forall d, d ∈ domains
                 <-> exists r, domain_tbl w !! d = Some r /\ active_checks r = true.
Proof.
  eexists. split; [reflexivity|]. split; [apply sorted_is_sorted|].
  split; [apply select_active_nodup|]. apply select_active_elem.
Qed.

(** X18. A batch that returns leaves the domains without the active flag
    alone: their rows are as they were and no State of them is added. It
    adds and removes no domain, changes no active flag, and removes no
    State. *)
Theorem inactive_domains_left_alone
    (whois_lookup : string -> nat -> string)
    (load : string -> string -> result (gmap string pyval))
    (query : string -> rdtype -> answer)
    (self : app) (w : world) (changed : bool) (w' : world)
    (Hrun : check_all_domains whois_lookup load query self w = Ok (changed, w')) :
  (forall d r, domain_tbl w !! d = Some r -> active_checks r = false ->
               domain_tbl w' !! d = Some r
               /\ forall st, st ∈ state_tbl w' -> st_domain st = d -> st ∈ state_tbl w)
  /\ (forall d, is_Some (domain_tbl w' !! d) <-> is_Some (domain_tbl w !! d))
  /\ (forall d r r', domain_tbl w !! d = Some r -> domain_tbl w' !! d = Some r' ->
                     active_checks r' = active_checks r)
  /\ (forall st, st ∈ state_tbl w -> st ∈ state_tbl w').
Proof.
  unfold check_all_domains in Hrun.
  apply bindM_Ok in Hrun as (domains & w0 & Hsel & Hrun).
  unfold select_active in Hsel. injection Hsel as <- <-.
  apply check_each_effect in Hrun as (Hother & Hknown & Hflag & Hnew & Hold).
  split; [|split; [|split]].
  - intros d r Hr Hoff.
    assert (Hnot : d ∉ sorted (map fst (map_to_list
                     (filter (fun kr => active_checks (snd kr) = true) (domain_tbl w))))).
    { rewrite select_active_elem. intros (r0 & Hr0 & Hon). congruence. }
    split; [rewrite Hother by exact Hnot; exact Hr|].
    intros st Hst Hd. apply Hnew in Hst as [Hst|Hst]; [exact Hst|].
    rewrite Hd in Hst. contradiction.
  - intros d. rewrite Hknown, select_active_elem. split; [|auto].
    intros [?|(r & Hr & _)]; [assumption|eauto].
  - exact Hflag.
  - exact Hold.
Qed.

Example batch_on_store_mixed :
  check_all_domains whois_up load0 resolver0 app0 store_mixed = Ok (true, store_checked).
Proof. vm_cast_no_check (eq_refl (Ok (true, store_checked))). Qed.

Lemma inactive_domains_left_alone_witness :
  domain_tbl store_checked !! "example.com"
  = Some (mkdomain (Some 1) false false (Some 1000) (Some "raw text"))
  /\ forall st, st ∈ state_tbl store_checked -> st_domain st = "example.com" ->
                st ∈ state_tbl store_mixed.
Proof.
  destruct (inactive_domains_left_alone _ _ _ _ _ _ _ batch_on_store_mixed) as (Hoff & _).
  apply (Hoff "example.com"); reflexivity.
Defined.

(** ** Stores that the program keeps *)

Section Sound.

Variable whois_lookup : string -> nat -> string.
Variable load : string -> string -> result (gmap string pyval).
Variable query : string -> rdtype -> answer.
Variable self : app.

Lemma NoDup_fmap_filter {X Y} (f : X -> Y) (P : X -> Prop) `{forall x, Decision (P x)}
    (l : list X) :
  NoDup (map f l) -> NoDup (map f (filter P l)).
Proof.
  induction l as [|x l IH]; simpl; intros Hnd; [constructor|].
  apply NoDup_cons in Hnd as [Hx Hnd]. rewrite filter_cons.
  destruct (decide (P x)); [|auto]. simpl. apply NoDup_cons. split; [|auto].
  intros Hin. apply Hx. apply list_elem_of_fmap in Hin as (y & -> & Hy).
  apply list_elem_of_filter in Hy as [_ Hy]. apply list_elem_of_fmap. eauto.
Qed.

Lemma check_domain_sound domain cd w res w' :
  check_domain whois_lookup load query self domain cd w = Ok (res, w') ->
  sound w -> sound w'.
Proof.
  intros Hrun [Hc Hnd]. split; [eapply check_domain_consistent; eassumption|].
  apply check_domain_effect in Hrun as (_ & _ & (sts & Hsts & Hnew & Hlen) & _).
  unfold state_ids in *. rewrite Hsts, map_app. apply NoDup_app. split; [exact Hnd|].
  destruct Hc as (Hids & _).
  split.
  - intros id Hold Hin.
    apply list_elem_of_fmap in Hold as (st & -> & Hst).
    apply list_elem_of_fmap in Hin as (st' & Heq & Hst').
    rewrite Forall_forall in Hids, Hnew. specialize (Hids st Hst).
    destruct (Hnew st' Hst') as [_ Hid]. lia.
  - destruct sts as [|st [|st' sts]]; simpl in *; [constructor| |lia].
    apply NoDup_singleton.
Qed.

Lemma check_each_sound (domains : list string) :
  forall first have_changes w res w',
    check_each whois_lookup load query self domains first have_changes w = Ok (res, w') ->
    sound w -> sound w'.
Proof.
  induction domains as [|domain rest IH]; intros first hc w res w' H Hs.
  - simpl in H. injection H as _ <-. exact Hs.
  - cbn [check_each] in H.
    apply bindM_Ok in H as ([] & w0 & Hsleep & H).
    assert (Hs0 : sound w0).
    { destruct (negb first); [|injection Hsleep as <-; exact Hs].
      apply sleep_effect in Hsleep as (Hd & Hst & Hch & Ha).
      destruct Hs as [Hc Hnd]. split.
      - revert Hc. apply consistent_tables; assumption.
      - unfold state_ids. rewrite Hst. exact Hnd. }
    apply bindM_Ok in H as (changed & w1 & Hcheck & H).
    eapply IH; [exact H|]. eapply check_domain_sound; eassumption.
Qed.

Lemma purge_domain_sound domain w u w' :
  purge_domain domain w = Ok (u, w') -> sound w -> sound w'.
Proof.
  intros Hrun [Hc Hnd]. split; [eapply purge_domain_consistent; eassumption|].
  apply purge_domain_effect in Hrun as (_ & _ & Hst & _).
  unfold state_ids in *. rewrite Hst. apply NoDup_fmap_filter, Hnd.
Qed.

Lemma set_domain_status_sound domain active w u w' :
  set_domain_status domain active w = Ok (u, w') -> sound w -> sound w'.
Proof.
  unfold set_domain_status. intros H [Hc Hnd].
  apply bindM_Ok in H as (known & w0 & Hk & H).
  apply bindM_Ok in Hk as (row & w00 & Hrow & Hk).
  injection Hrow as <- <-. injection Hk as <- <-.
  destruct (negb _); [discriminate|].
  apply bindM_Ok in H as ([] & w1 & Hupd & H).
  unfold update_active in Hupd. injection Hupd as <-.
  unfold commit in H. injection H as _ <-.
  split; [|exact Hnd].
  destruct Hc as (H1 & H2 & H3 & H4).
  unfold consistent, pointers_own. simpl. repeat split; auto.
  - intros d r id Hl. rewrite lookup_alter in Hl. case_decide.
    + destruct (domain_tbl w !! domain) as [r0|] eqn:E; [|discriminate].
      injection Hl as <-. simpl. subst. eauto.
    + eauto.
  - intros d r id st Hl. rewrite lookup_alter in Hl. case_decide.
    + destruct (domain_tbl w !! domain) as [r0|] eqn:E; [|discriminate].
      injection Hl as <-. simpl. subst. eauto.
    + eauto.
Qed.

End Sound.

(** X19. The operations keep the store sound. In a store that is
    consistent - ids are below the auto-increment counter, a [last_state]
    pointer and the Changed rows refer to ids handed out before, a pointer
    identifies States of its own domain only - and whose State ids are
    distinct, every check, batch, purge and change of the active flag that
    returns leaves a store of that kind. The empty store is of that kind,
    and in such a store the pointers identify States of their own domain and
    no Changed row refers to the next State id. *)
Theorem operations_keep_store_sound
    (whois_lookup : string -> nat -> string)
    (load : string -> string -> result (gmap string pyval))
    (query : string -> rdtype -> answer)
    (self : app) (w : world)
    (Hsound : sound w) :
  (forall domain check_data changed w',
      check_domain whois_lookup load query self domain check_data w = Ok (changed, w') ->
      sound w')
  /\ (forall changed w',
         check_all_domains whois_lookup load query self w = Ok (changed, w') -> sound w')
  /\ (forall domain w', purge_domain domain w = Ok (tt, w') -> sound w')
  /\ (forall domain active w', set_domain_status domain active w = Ok (tt, w') -> sound w')
  /\ pointers_own w /\ id_free w /\ NoDup (state_ids w)
  /\ sound store_empty.
Proof.
  split; [|split; [|split; [|split]]].
  - intros domain cd changed w' Hrun. eapply check_domain_sound; eassumption.
  - intros changed w' Hrun. unfold check_all_domains in Hrun.
    apply bindM_Ok in Hrun as (domains & w0 & Hsel & Hrun).
    unfold select_active in Hsel. injection Hsel as <- <-.
    eapply check_each_sound; eassumption.
  - intros domain w' Hrun. eapply purge_domain_sound; eassumption.
  - intros domain active w' Hrun. eapply set_domain_status_sound; eassumption.
  - destruct Hsound as [Hc Hnd]. destruct (consistent_pointers w Hc) as [Hown Hid].
    split; [exact Hown|]. split; [exact Hid|]. split; [exact Hnd|].
    split; [apply consistent_empty|constructor].
Qed.

Lemma operations_keep_store_sound_witness :
  sound store_first /\ pointers_own store_empty.
Proof.
  destruct (operations_keep_store_sound whois_up load0 resolver0 app0 store_empty
              (conj consistent_empty (NoDup_nil_2 : NoDup (state_ids store_empty))))
    as (Hcheck & _ & _ & _ & Hown & _).
  split; [|exact Hown].
  exact (Hcheck "example.com" None true store_first check_on_empty_store).
Defined.

(** ** The resolver's answers as sets *)

Section AnswerSets.

(** A loop whose body raises one exception only either raises it, at an
    element of the list, or collects the images of all elements. *)
Lemma for_each_cases {X Y} (f : X -> result Y) (e0 : exn) (l : list X) :
  (forall x e, f x = Raise e -> e = e0) ->
  (for_each f l = Raise e0 /\ exists x, x ∈ l /\ f x = Raise e0)
  \/ (exists ys, for_each f l = Ok ys
                 /\ (forall x, x ∈ l -> exists y, f x = Ok y)
                 /\ forall y, y ∈ ys <-> exists x, x ∈ l /\ f x = Ok y).
Proof.
  intros Hf. induction l as [|x l IH].
  - right. exists []. split; [reflexivity|]. split.
    + intros x Hx. apply elem_of_nil in Hx. contradiction.
    + intros y. split.
      * intros Hy. apply elem_of_nil in Hy. contradiction.
      * intros (x & Hx & _). apply elem_of_nil in Hx. contradiction.
  - cbn [for_each]. destruct (f x) as [y|e] eqn:Hx.
    + destruct IH as [(Hr & x' & Hx' & Hfx')|(ys & Hys & Hall & Himg)].
      * left. rewrite Hr. split; [reflexivity|]. exists x'. split; [right; exact Hx'|exact Hfx'].
      * right. exists (y :: ys). rewrite Hys. split; [reflexivity|]. split.
        -- intros x' Hx'. apply elem_of_cons in Hx' as [->|Hx']; [eauto|auto].
        -- intros y'. rewrite elem_of_cons, Himg. split.
           ++ intros [->|(x' & Hx' & Hfx')].
              ** exists x. split; [left|exact Hx].
              ** exists x'. split; [right; exact Hx'|exact Hfx'].
           ++ intros (x' & Hx' & Hfx'). apply elem_of_cons in Hx' as [->|Hx'].
              ** left. congruence.
              ** right. eauto.
    + left. pose proof (Hf x e Hx) as ->. split; [reflexivity|].
      exists x. split; [left|exact Hx].
Qed.

Lemma for_each_same_elements {X} (f : X -> result string) (e0 : exn) (l1 l2 : list X) :
  (forall x e, f x = Raise e -> e = e0) ->
  (forall x, x ∈ l1 <-> x ∈ l2) ->
  same_found (for_each f l1) (for_each f l2).
Proof.
  intros Hf Hsame.
  destruct (for_each_cases f e0 l1 Hf) as [(H1 & x1 & Hx1 & Hfx1)|(ys1 & H1 & Hall1 & Himg1)];
    destruct (for_each_cases f e0 l2 Hf) as [(H2 & x2 & Hx2 & Hfx2)|(ys2 & H2 & Hall2 & Himg2)];
    rewrite H1, H2; simpl.
  - reflexivity.
  - destruct (Hall2 x1 (proj1 (Hsame x1) Hx1)) as (y & Hy). rewrite Hy in Hfx1. discriminate.
  - destruct (Hall1 x2 (proj2 (Hsame x2) Hx2)) as (y & Hy). rewrite Hy in Hfx2. discriminate.
  - intros y. rewrite Himg1, Himg2. split; intros (x & Hx & Hfx); exists x;
      (split; [apply Hsame; exact Hx|exact Hfx]).
Qed.

Lemma lookup_into_same (f : rdata -> result string) (a b : answer)
    (acc1 acc2 : list string) :
  (forall x e, f x = Raise e -> e = AttributeError) ->
  same_records a b ->
  (forall x, x ∈ acc1 <-> x ∈ acc2) ->
  same_found (lookup_into f a acc1) (lookup_into f b acc2).
Proof.
  intros Hf Hab Hacc. unfold same_records in Hab.
  assert (Hnil : for_each f [] = Ok []) by reflexivity.
  assert (Hgen : forall l1 l2, (forall r, r ∈ l1 <-> r ∈ l2) ->
            same_found (Py.bind (for_each f l1) (fun found => Ok (acc1 ++ found)))
                       (Py.bind (for_each f l2) (fun found => Ok (acc2 ++ found)))).
  { intros l1 l2 Hl. pose proof (for_each_same_elements f AttributeError l1 l2 Hf Hl) as Hs.
    destruct (for_each f l1) as [ys1|e1], (for_each f l2) as [ys2|e2]; simpl in *;
      try contradiction; [|exact Hs].
    intros x. rewrite !elem_of_app, Hacc, Hs. reflexivity. }
  destruct a as [l1| |], b as [l2| |]; simpl in Hab; try contradiction.
  - apply Hgen, Hab.
  - specialize (Hgen l1 [] Hab). simpl in Hgen. rewrite app_nil_r in Hgen. exact Hgen.
  - specialize (Hgen [] l2 Hab). simpl in Hgen. rewrite app_nil_r in Hgen. exact Hgen.
  - exact Hacc.
  - reflexivity.
Qed.

Lemma address_of_raises (x : rdata) (e : exn) : address_of x = Raise e -> e = AttributeError.
Proof. destruct x; simpl; congruence. Qed.

Lemma mx_of_raises (x : rdata) (e : exn) : mx_of x = Raise e -> e = AttributeError.
Proof. destruct x; simpl; congruence. Qed.

End AnswerSets.

(** X20. The injected DNS data do not depend on the order of the records
    in the resolver's answers, nor on repetitions, nor on whether an empty
    answer is reported as [NoAnswer]: two resolvers whose answers to the
    three queries hold the same records yield the same parsed record, or
    the same exception. *)
Theorem dns_answer_order_irrelevant
    (query1 query2 : string -> rdtype -> answer)
    (domain : string) (pd : gmap string pyval)
    (Hsame : forall t, same_records (query1 domain t) (query2 domain t)) :
  _inject_dns_lookups query1 domain pd = _inject_dns_lookups query2 domain pd.
Proof.
  unfold _inject_dns_lookups.
  pose proof (lookup_into_same address_of _ _ [] [] address_of_raises (Hsame A)
                ltac:(reflexivity)) as HA.
  destruct (lookup_into address_of (query1 domain A) []) as [a1|e1],
           (lookup_into address_of (query2 domain A) []) as [a2|e2];
    simpl in HA; try contradiction; [|rewrite HA; reflexivity]. simpl.
  pose proof (lookup_into_same address_of _ _ a1 a2 address_of_raises (Hsame AAAA) HA) as H6.
  destruct (lookup_into address_of (query1 domain AAAA) a1) as [b1|e1],
           (lookup_into address_of (query2 domain AAAA) a2) as [b2|e2];
    simpl in H6; try contradiction; [|rewrite H6; reflexivity]. simpl.
  pose proof (lookup_into_same mx_of _ _ [] [] mx_of_raises (Hsame MX)
                ltac:(reflexivity)) as HM.
  destruct (lookup_into mx_of (query1 domain MX) []) as [m1|e1],
           (lookup_into mx_of (query2 domain MX) []) as [m2|e2];
    simpl in HM; try contradiction; [|rewrite HM; reflexivity]. simpl.
  rewrite (sorted_set_ext b1 b2 H6), (sorted_set_ext m1 m2 HM). reflexivity.
Qed.

Lemma dns_answer_order_irrelevant_witness :
  _inject_dns_lookups resolver1 "example.com" cleaned0
  = _inject_dns_lookups resolver2 "example.com" cleaned0.
Proof.
  apply dns_answer_order_irrelevant.
  intros [| |]; unfold same_records; simpl; intros r.
  - rewrite !elem_of_cons. tauto.
  - reflexivity.
  - rewrite !elem_of_cons. tauto.
Defined.

(** X21. A failure of the resolver other than [NoAnswer] - such as a name
    that does not exist - is not caught: when the whois answer is parsed
    and normalised and DNS lookups are made, a failing query for the
    address records ends the check with the resolver's exception. *)
Theorem resolver_failure_aborts_check
    (whois_lookup : string -> nat -> string)
    (load : string -> string -> result (gmap string pyval))
    (query : string -> rdtype -> answer)
    (self : app) (domain text : string) (raw cleaned : gmap string pyval) (w : world)
    (Hretries : 1 <= max_retries self)
    (Htext : text = whois_lookup domain (whois_calls w))
    (Hok : comm_error text = false)
    (Hload : load domain text = Ok raw)
    (Hclean : _clean_parsed_data raw = Ok cleaned)
    (Hdns : lookups_wanted self (domain_tbl w !! domain) = true)
    (Hfail : query domain A = Failed) :
  check_domain whois_lookup load query self domain None w = Raise DNSException
  /\ check_domain whois_lookup load query self domain (Some text) w = Raise DNSException.
Proof.
  assert (Hinj : forall pd, _inject_dns_lookups query domain pd = Raise DNSException).
  { intros pd. unfold _inject_dns_lookups. rewrite Hfail. reflexivity. }
  unfold lookups_wanted in Hdns.
  assert (Hrest : forall w1 : world,
            whois_calls w1 = whois_calls w ->
            forall cd : option string,
              cd = None \/ cd = Some text ->
              (do! check_data :=
                 match cd with
                 | None => retry whois_lookup self (Z.to_nat (max_retries self)) domain 0 None
                 | Some _ => ret cd
                 end in
               match check_data with
               | None => raise TypeError
               | Some check_data =>
                   if comm_error check_data then ret true
                   else
                     do! parsed_data := lift (load domain check_data) in
                     do! parsed_data := lift (_clean_parsed_data parsed_data) in
                     do! parsed_data := lift (_inject_dns_lookups query domain parsed_data) in
                     _store_state domain check_data parsed_data true
               end) w1 = Raise DNSException).
  { intros w1 Hcalls cd [->| ->].
    - unfold bindM at 1. rewrite retry_first_answer; [|exact Hretries|].
      2:{ rewrite Hcalls, <- Htext. exact Hok. }
      rewrite Hcalls, <- Htext, Hok.
      unfold bindM, lift. rewrite Hload, Hclean, Hinj. reflexivity.
    - unfold bindM at 1. unfold ret at 1. rewrite Hok.
      unfold bindM, lift. rewrite Hload, Hclean, Hinj. reflexivity. }
  assert (Hall : forall cd, cd = None \/ cd = Some text ->
            check_domain whois_lookup load query self domain cd w = Raise DNSException).
  { intros cd Hcd. unfold check_domain.
    unfold bindM at 1. unfold select_domain at 1.
    destruct (domain_tbl w !! domain) as [r|] eqn:Hrow.
    - unfold bindM at 1. unfold ret at 1.
      replace (match dns_behavior self with
               | DOMAIN_DEFAULT => do_dns r | FORCE_YES => true | FORCE_NO => false end)
        with true by (destruct (dns_behavior self); congruence).
      apply Hrest; [reflexivity|exact Hcd].
    - replace (match dns_behavior self with FORCE_NO => false | _ => true end)
        with true by (destruct (dns_behavior self); congruence).
      unfold bindM at 1. unfold bindM at 1. unfold insert_domain at 1. rewrite Hrow.
      unfold bindM at 1. unfold commit at 1. unfold ret at 1.
      apply Hrest; [reflexivity|exact Hcd]. }
  split; apply Hall; auto.
Qed.

Lemma resolver_failure_aborts_check_witness :
  check_domain whois_up load0 resolver_down app0 "example.com" None store_new
  = Raise DNSException.
Proof.
  refine (proj1 (resolver_failure_aborts_check whois_up load0 resolver_down app0
                   "example.com" "Domain Name: EXAMPLE.COM" raw0 cleaned0 store_new
                   _ eq_refl _ eq_refl raw0_cleaned eq_refl eq_refl)).
  - simpl. lia.
  - vm_compute. reflexivity.
Defined.

(** ** The DNS setting of a run, and records that lack a key *)

Example check_without_dns :
  check_domain whois_up load0 resolver0 app_no_dns "example.com"
    (Some "Domain Name: EXAMPLE.COM") store_new
  = Ok (true, store_no_dns).
Proof. vm_cast_no_check (eq_refl (Ok (true, store_no_dns))). Qed.

(** X22. A check that stores writes the DNS setting of the run into the
    row of the domain, with the time and the raw text: after a check of a
    text without the communication error, [do_dns] is what the run did -
    forced on, forced off, or what the row said (yes for a new row) - so
    that a later run with the default setting does the same; a forced
    setting outlives the run. *)
Theorem check_records_dns_setting
    (whois_lookup : string -> nat -> string)
    (load : string -> string -> result (gmap string pyval))
    (query : string -> rdtype -> answer)
    (self : app) (domain text : string) (w : world) (changed : bool) (w' : world)
    (Hok : comm_error text = false)
    (Hrun : check_domain whois_lookup load query self domain (Some text) w
            = Ok (changed, w')) :
  exists r',
    domain_tbl w' !! domain = Some r'
    /\ do_dns r' = lookups_wanted self (domain_tbl w !! domain)
    /\ last_checked r' = Some (clock w)
    /\ cur_raw_text r' = Some text
    /\ last_state r'
       = (if changed then Some (state_auto w)
          else match domain_tbl w !! domain with
               | Some r => last_state r
               | None => None
               end)
    /\ forall self', dns_behavior self' = DOMAIN_DEFAULT ->
         lookups_wanted self' (domain_tbl w' !! domain)
         = lookups_wanted self (domain_tbl w !! domain).
Proof.
  unfold check_domain in Hrun.
  apply bindM_Ok in Hrun as (row & w1 & Hrow & H). injection Hrow as <- <-.
  apply bindM_Ok in H as (dns & w1 & Hdns & H).
  assert (Hw1 : dns = lookups_wanted self (domain_tbl w !! domain)
                /\ clock w1 = clock w /\ state_auto w1 = state_auto w
                /\ exists r1, domain_tbl w1 !! domain = Some r1
                     /\ last_state r1 = match domain_tbl w !! domain with
                                        | Some r => last_state r
                                        | None => None
                                        end).
  { unfold lookups_wanted. destruct (domain_tbl w !! domain) as [r|] eqn:Hrow.
    - injection Hdns as <- <-. split; [destruct (dns_behavior self); reflexivity|].
      split; [reflexivity|]. split; [reflexivity|]. exists r. split; [exact Hrow|reflexivity].
    - apply bindM_Ok in Hdns as ([] & w2 & Hins & Hdns).
      unfold insert_domain in Hins. rewrite Hrow in Hins. injection Hins as <-.
      apply bindM_Ok in Hdns as ([] & w3 & Hcm & Hdns).
      injection Hcm as <-. injection Hdns as <- <-.
      split; [destruct (dns_behavior self); reflexivity|].
      split; [reflexivity|]. split; [reflexivity|].
      eexists. split; [apply lookup_insert_eq|reflexivity]. }
  clear Hdns. destruct Hw1 as (Hdns & Hclock & Hauto & r1 & Hr1 & Hlast).
  apply bindM_Ok in H as (cd & w2 & Hfetch & H). injection Hfetch as <- <-.
  rewrite Hok in H.
  apply bindM_Ok in H as (p1 & w3 & H1 & H). apply lift_Ok in H1 as (_ & ->).
  apply bindM_Ok in H as (p2 & w3 & H2 & H). apply lift_Ok in H2 as (_ & ->).
  apply bindM_Ok in H as (p3 & w3 & H3 & H).
  assert (w3 = w1) as ->.
  { destruct dns.
    - apply lift_Ok in H3 as (_ & ->). reflexivity.
    - injection H3 as _ <-. reflexivity. }
  apply _store_state_effect in H as (Hd & _).
  eexists. split; [rewrite Hd, lookup_alter_eq, Hr1; reflexivity|].
  cbn [do_dns last_checked cur_raw_text last_state].
  split; [exact Hdns|]. split; [congruence|]. split; [reflexivity|].
  split; [destruct changed; congruence|].
  intros self' Hdefault. unfold lookups_wanted at 1.
  rewrite Hdefault, Hd, lookup_alter_eq, Hr1. simpl. exact Hdns.
Qed.

Lemma check_records_dns_setting_witness :
  exists r',
    domain_tbl store_no_dns !! "example.com" = Some r'
    /\ do_dns r' = false
    /\ lookups_wanted app0 (domain_tbl store_no_dns !! "example.com") = false.
Proof.
  destruct (check_records_dns_setting whois_up load0 resolver0 app_no_dns "example.com"
              "Domain Name: EXAMPLE.COM" store_new true store_no_dns
              ltac:(vm_compute; reflexivity) check_without_dns)
    as (r' & Hr' & Hdns & _ & _ & _ & Hnext).
  exists r'. split; [exact Hr'|]. split; [exact Hdns|]. apply Hnext. reflexivity.
Defined.

Section MissingKeys.

Lemma getitems_first_missing (pd : gmap string pyval) (keys : list string) (k : string) :
  find (fun key => bool_decide (pd !! key = None)) keys = Some k ->
  for_each (getitem pd) keys = Raise (KeyError k).
Proof.
  induction keys as [|key keys IH]; simpl; [discriminate|].
  unfold getitem at 1. destruct (pd !! key) as [v|] eqn:Hkey.
  - rewrite bool_decide_false by discriminate. intros H. rewrite (IH H). reflexivity.
  - rewrite bool_decide_true by reflexivity. intros [= <-]. reflexivity.
Qed.

Lemma state_params_missing (pd : gmap string pyval) (e : exn) :
  for_each (getitem pd) (map fst datapoints) = Raise e -> state_params pd = Raise e.
Proof.
  unfold state_params, datapoints. cbn [map fst for_each]. unfold getitem.
  repeat match goal with
         | |- context [pd !! ?k] =>
             destruct (pd !! k); cbn [Py.bind]; [|intros [= <-]; reflexivity]
         end.
  discriminate.
Qed.

Lemma find_differences_missing (prev : state_row) (pd : gmap string pyval)
    (items : list (string * string)) (k : string) :
  Forall (fun ke => exists v, row_item (Some prev) (fst ke) = Ok v) items ->
  find (fun key => bool_decide (pd !! key = None)) (map fst items) = Some k ->
  forall b acc, find_differences (Some prev) pd items b acc = Raise (KeyError k).
Proof.
  induction 1 as [|[key eng] items (v & Hv) _ IH]; simpl; [discriminate|].
  intros Hfind b acc. simpl in Hv. rewrite Hv. cbn [Py.bind].
  unfold getitem at 1. destruct (pd !! key) as [new|] eqn:Hkey.
  - rewrite bool_decide_false in Hfind by discriminate. cbn [Py.bind].
    destruct (py_ne _ _); apply IH, Hfind.
  - rewrite bool_decide_true in Hfind by reflexivity. injection Hfind as <-. reflexivity.
Qed.

End MissingKeys.

(** X23. A parsed record that lacks one of the eighteen tracked keys cannot
    be stored: for a domain without a state, or with a state to compare
    against, [_store_state] raises the [KeyError] of the first key, in the
    declared order, that the record lacks. *)
Theorem missing_tracked_key_raises
    (domain check_data : string) (pd : gmap string pyval) (do_dns : bool)
    (r : domain_row) (w : world) (k : string)
    (Hrow : domain_tbl w !! domain = Some r)
    (Hprev : match last_state r with
             | Some last => exists prev, select_state last w = Ok (Some prev, w)
             | None => True
             end)
    (Hmissing : first_missing pd = Some k) :
  _store_state domain check_data pd do_dns w = Raise (KeyError k)
  /\ k ∈ map fst datapoints
  /\ pd !! k = None.
Proof.
  split.
  - unfold _store_state.
    unfold bindM at 1. unfold select_domain at 1. rewrite Hrow.
    destruct r as [[last|] ac dd lc raw]; simpl in Hprev.
    + destruct Hprev as (prev & Hprev).
      unfold select_state in Hprev. injection Hprev as Hfind.
      unfold bindM at 1. unfold bindM at 1. unfold select_state at 1. rewrite Hfind.
      unfold lift at 1.
      rewrite (find_differences_missing prev pd datapoints k); [reflexivity| |exact Hmissing].
      unfold datapoints. repeat (constructor; [eexists; reflexivity|]). constructor.
    + unfold bindM at 1. unfold ret at 1. cbv zeta. simpl fst. simpl snd.
      unfold bindM at 1. unfold update_checked at 1.
      unfold bindM at 1. unfold bindM at 1. unfold lift at 1.
      rewrite (state_params_missing pd (KeyError k)); [reflexivity|].
      apply getitems_first_missing. exact Hmissing.
  - unfold first_missing in Hmissing. apply find_some in Hmissing as [Hin Hk].
    apply bool_decide_eq_true in Hk. split; [apply list_elem_of_In; exact Hin|exact Hk].
Qed.

Lemma missing_tracked_key_raises_witness :
  _store_state "example.com" "raw text" (delete "dnssec" (parsed_of record1)) false store_one
  = Raise (KeyError "dnssec").
Proof.
  refine (proj1 (missing_tracked_key_raises "example.com" "raw text"
                   (delete "dnssec" (parsed_of record1)) false
                   (mkdomain (Some 1) true false (Some 1000) (Some "raw text")) store_one
                   "dnssec" eq_refl _ _)).
  - simpl. eexists. reflexivity.
  - vm_compute. reflexivity.
Defined.
